(** * FracttalUpdater: the update pipeline, the value calculator and the
      remote meter client, embedded from the Python sources

    - [Py]         the part of the Python run time the sources rely on
                   (text, [int()], [float()], double precision arithmetic,
                   exceptions);
    - [Processing] [src/fracttal_updater/processing.py];
    - [Api]        [src/fracttal_updater/api.py];
    - [Gui]        [UpdateWorker.run] of [src/fracttal_updater/gui.py];
    - [Spec]       the words of the specification and the examples;
    - the properties of the specification, after the definitions. *)

From Stdlib Require Import ZArith List Bool Lia String Ascii.
From Stdlib Require Import Floats.SpecFloat.
From stdpp Require Import gmap.
Import ListNotations.

Local Open Scope Z_scope.

(* ===================================================================== *)
(** * Python run time                                                     *)
(* ===================================================================== *)

Module Py.

(** A Python [str] is a sequence of Unicode code points. *)
Definition str := list Z.

(** The text of an ASCII literal. *)
Fixpoint lit (s : string) : str :=
  match s with
  | EmptyString => []
  | String a s' => Z.of_N (N_of_ascii a) :: lit s'
  end.

Arguments lit : simpl never.

Definition str_eqb (a b : str) : bool := bool_decide (a = b).

(** Exceptions that the modelled code can meet.  [ConnectionError],
    [HTTPError], [JSONDecodeError] and [InvalidJSONError] are the ones of
    [requests]; all four derive from [requests.RequestException] (the
    third one since requests 2.27).  [ValueError] is the plain one. *)
Inductive exn :=
| ValueError
| IndexError
| OverflowError
| ZeroDivisionError
| AttributeError
| TypeError
| KeyError
| OSError
| RecursionError
| ConnectionError
| HTTPError (status : Z)
| JSONDecodeError
| InvalidJSONError.

Definition is_RequestException (e : exn) : bool :=
  match e with
  | ConnectionError | HTTPError _ | JSONDecodeError | InvalidJSONError => true
  | _ => false
  end.

(** A computation that returns a value or raises. *)
Inductive result (A : Type) :=
| Return (a : A)
| Raise (e : exn).
Arguments Return {A} a.
Arguments Raise {A} e.

Definition bind {A B} (m : result A) (k : A -> result B) : result B :=
  match m with
  | Return a => k a
  | Raise e => Raise e
  end.

(** [try: body  except <classes> as e: handler e] *)
Definition try_except {A} (body : result A) (caught : exn -> bool)
    (handler : exn -> result A) : result A :=
  match body with
  | Return a => Return a
  | Raise e => if caught e then handler e else Raise e
  end.

Definition raises {A} (m : result A) : bool :=
  match m with Return _ => false | Raise _ => true end.

(** ** Text *)

(** [str.isspace] on one character (Unicode 14 white space). *)
Definition isspace (c : Z) : bool :=
  ((9 <=? c) && (c <=? 13)) || ((28 <=? c) && (c <=? 32))
  || (c =? 133) || (c =? 160) || (c =? 5760)
  || ((8192 <=? c) && (c <=? 8202))
  || (c =? 8232) || (c =? 8233) || (c =? 8239) || (c =? 8287)
  || (c =? 12288).

Fixpoint lstrip (s : str) : str :=
  match s with
  | c :: s' => if isspace c then lstrip s' else s
  | [] => []
  end.

Definition rstrip (s : str) : str := rev (lstrip (rev s)).

(** [s.strip()] *)
Definition strip (s : str) : str := rstrip (lstrip s).

(** [s.replace(old, new)] for one-character [old] and [new]. *)
Definition replace (old new : Z) (s : str) : str :=
  map (fun c => if c =? old then new else c) s.

(** [s.split(sep)] for a one-character separator: never empty. *)
Fixpoint split (sep : Z) (s : str) : list str :=
  match s with
  | [] => [[]]
  | c :: s' =>
      if c =? sep then [] :: split sep s'
      else match split sep s' with
           | p :: ps => (c :: p) :: ps
           | [] => [[c]]
           end
  end.

(** [s.upper()] on the ASCII letters.  Outside ASCII, where the Unicode
    tables are not reproduced, a character is left as it is: no such
    character has an [O] or a [K] in its upper-case form, so that the
    comparison of the result with ["OK"], its only use in the pipeline, is
    the one Python computes. *)
Definition upper_char (c : Z) : Z :=
  if (97 <=? c) && (c <=? 122) then c - 32 else c.

Definition upper (s : str) : str := map upper_char s.

Definition lower_ascii (c : Z) : Z :=
  if (65 <=? c) && (c <=? 90) then c + 32 else c.

(** [parts[i]] *)
Definition index {A} (l : list A) (i : nat) : result A :=
  match nth_error l i with
  | Some a => Return a
  | None => Raise IndexError
  end.

(** ** Decimal digits *)

(** First code point of each run of ten decimal digits (general category
    Nd, Unicode 14), ASCII first. *)
Definition decimal_zeros : list Z :=
  [48; 1632; 1776; 1984; 2406; 2534; 2662; 2790; 2918; 3046; 3174; 3302;
   3430; 3558; 3664; 3792; 3872; 4160; 4240; 6112; 6160; 6470; 6608; 6784;
   6800; 6992; 7088; 7232; 7248; 42528; 43216; 43264; 43472; 43504; 43600;
   44016; 65296; 66720; 68912; 69734; 69872; 69942; 70096; 70384; 70736;
   70864; 71248; 71360; 71472; 71904; 72016; 72784; 73040; 73120; 92768;
   92864; 93008; 120782; 120792; 120802; 120812; 120822; 123200; 123632;
   125264; 130032].

(** [Py_UNICODE_TODECIMAL] *)
Definition to_decimal (c : Z) : option Z :=
  match find (fun z => (z <=? c) && (c <? z + 10)) decimal_zeros with
  | Some z => Some (c - z)
  | None => None
  end.

(** What [int()] and [float()] do to their argument first: characters
    below 127 are kept, other white space becomes a blank, other decimal
    digits become ASCII digits, and anything else a question mark (which
    no number contains). *)
Definition to_ascii_char (c : Z) : Z :=
  if c <? 127 then c
  else if isspace c then 32
  else match to_decimal c with
       | Some d => 48 + d
       | None => 63
       end.

Definition to_ascii (s : str) : str := map to_ascii_char s.

(** C's [isspace] in the C locale. *)
Definition c_isspace (c : Z) : bool :=
  ((9 <=? c) && (c <=? 13)) || (c =? 32).

Definition is_digit (c : Z) : bool := (48 <=? c) && (c <=? 57).

Fixpoint span_digits (s : str) : str * str :=
  match s with
  | c :: s' =>
      if is_digit c then let '(d, r) := span_digits s' in (c :: d, r)
      else ([], s)
  | [] => ([], [])
  end.

Fixpoint skip_c_space (s : str) : str :=
  match s with
  | c :: s' => if c_isspace c then skip_c_space s' else s
  | [] => []
  end.

(** Value of a run of ASCII digits. *)
Definition digits_value (d : str) : Z :=
  fold_left (fun acc c => 10 * acc + (c - 48)) d 0.

(** Splits an optional sign off: [true] for a minus. *)
Definition take_sign (s : str) : bool * str :=
  match s with
  | 45 :: s' => (true, s')
  | 43 :: s' => (false, s')
  | _ => (false, s)
  end.

(** ** [int(text)] *)

(** Digits with single underscores between them, then the rest. *)
Fixpoint span_int_digits (prev_underscore : bool) (s : str) : option (str * str) :=
  match s with
  | c :: s' =>
      if is_digit c then
        match span_int_digits false s' with
        | Some (d, r) => Some (c :: d, r)
        | None => None
        end
      else if c =? 95 then
        if prev_underscore then None else span_int_digits true s'
      else if prev_underscore then None else Some ([], s)
  | [] => if prev_underscore then None else Some ([], [])
  end.

(** [sys.get_int_max_str_digits()], CPython's default. *)
Definition int_max_str_digits : nat := 4300.

Definition int_of_str (s : str) : result Z :=
  let '(neg, body) := take_sign (skip_c_space (to_ascii s)) in
  match body with
  | c :: _ =>
      if is_digit c then
        match span_int_digits false body with
        | Some (d, r) =>
            if negb (Nat.leb (length d) int_max_str_digits) then Raise ValueError
            else match skip_c_space r with
                 | [] => Return (if neg then - digits_value d else digits_value d)
                 | _ :: _ => Raise ValueError
                 end
        | None => Raise ValueError
        end
      else Raise ValueError
  | [] => Raise ValueError
  end.

(** ** Double precision numbers *)

(** A Python [float] is an IEEE 754 binary64 number. *)
Definition float := spec_float.

Definition prec : Z := 53.
Definition emax : Z := 1024.

Definition fzero : float := S754_zero false.
Definition fadd : float -> float -> float := SFadd prec emax.
Definition feqb : float -> float -> bool := SFeqb.
Definition fltb : float -> float -> bool := SFltb.

(** The double nearest to the integer [m] (ties to even), infinite beyond
    the range. *)
Definition round_Z (m : Z) : float := binary_normalize prec emax m 0 false.

(** The double nearest to [a / b], for [a] and [b] different from 0. *)
Definition round_quotient (a b : Z) : float :=
  SFdiv prec emax (S754_finite (a <? 0) (Z.to_pos (Z.abs a)) 0)
                  (S754_finite (b <? 0) (Z.to_pos (Z.abs b)) 0).

Definition is_infinite (x : float) : bool :=
  match x with S754_infinity _ => true | _ => false end.

(** [math.isfinite(x)]: neither infinite nor NaN. *)
Definition is_finite (x : float) : bool :=
  match x with
  | S754_zero _ | S754_finite _ _ _ => true
  | S754_infinity _ | S754_nan => false
  end.

(** [float(n)] for an [int]: an [int] beyond the range does not convert. *)
Definition float_of_int (n : Z) : result float :=
  let x := round_Z n in
  if is_infinite x then Raise OverflowError else Return x.

(** [a / b] on two [int]s. *)
Definition int_truediv (a b : Z) : result float :=
  if b =? 0 then Raise ZeroDivisionError
  else if a =? 0 then Return (S754_zero (b <? 0))
  else
    let x := round_quotient a b in
    if is_infinite x then Raise OverflowError else Return x.

(** [n + x] for an [int] and a [float]. *)
Definition int_add_float (n : Z) (x : float) : result float :=
  bind (float_of_int n) (fun y => Return (fadd y x)).

(** [x == 0] *)
Definition float_is_zero (x : float) : bool := feqb x fzero.

(** ** [float(text)] *)

(** Underscores may only stand between two digits; they are dropped. *)
Fixpoint drop_underscores (prev : Z) (s : str) : option str :=
  match s with
  | c :: s' =>
      if c =? 95 then
        if is_digit prev then drop_underscores c s' else None
      else if (prev =? 95) && negb (is_digit c) then None
      else match drop_underscores c s' with
           | Some r => Some (c :: r)
           | None => None
           end
  | [] => if prev =? 95 then None else Some []
  end.

(** The value [(-1)^neg * m * 10^e], correctly rounded. *)
Definition decimal_to_float (neg : bool) (m e : Z) : float :=
  if m =? 0 then S754_zero neg
  else if 0 <=? e then round_Z ((if neg then - m else m) * 10 ^ e)
  else round_quotient (if neg then - m else m) (10 ^ (- e)).

(** An exponent part: [e] or [E], an optional sign, digits. *)
Definition parse_exponent (s : str) : option Z :=
  match s with
  | [] => Some 0
  | c :: s' =>
      if (c =? 101) || (c =? 69) then
        let '(neg, t) := take_sign s' in
        match span_digits t with
        | ((_ :: _) as d, []) => Some (if neg then - digits_value d else digits_value d)
        | _ => None
        end
      else None
  end.

(** A number without its sign: digits, an optional point and digits, with
    a digit somewhere, and an optional exponent. *)
Definition parse_decimal (neg : bool) (s : str) : option float :=
  let '(ip, r) := span_digits s in
  let '(fp, r') := match r with
                   | 46 :: t => span_digits t
                   | _ => ([], r)
                   end in
  match ip ++ fp with
  | [] => None
  | _ :: _ =>
      match parse_exponent r' with
      | Some e => Some (decimal_to_float neg (digits_value (ip ++ fp))
                                         (e - Z.of_nat (length fp)))
      | None => None
      end
  end.

Definition parse_float_body (s : str) : option float :=
  let '(neg, t) := take_sign s in
  let w := map lower_ascii t in
  if str_eqb w (lit "inf") || str_eqb w (lit "infinity") then Some (S754_infinity neg)
  else if str_eqb w (lit "nan") then Some S754_nan
  else parse_decimal neg t.

Definition c_strip (s : str) : str := rev (skip_c_space (rev (skip_c_space s))).

Definition float_of_str (s : str) : result float :=
  match drop_underscores 0 (to_ascii s) with
  | Some t =>
      match parse_float_body (c_strip t) with
      | Some x => Return x
      | None => Raise ValueError
      end
  | None => Raise ValueError
  end.

End Py.

(* ===================================================================== *)
(** * processing.py                                                       *)
(* ===================================================================== *)

Module Processing.
Import Py.

(** A row of the report, as the pipeline reads it.  Every access in the
    sources is [str(row.get(column, default))], so a row is given by the
    text that [str] produces for the cell under each column label (a text
    cell is its own text; a cell that pandas read as missing is the float
    NaN, whose text is [nan]).  The column labels of a report are
    distinct. *)
Definition row := gmap str str.

(** [str(row.get(column, default))], with the text of the default. *)
Definition get_str (r : row) (column default_text : str) : str :=
  match r !! column with
  | Some text => text
  | None => default_text
  end.

(** Column labels; the category label has an accented i (U+00ED). *)
Definition col_categoria : str := lit "Categor" ++ [237] ++ lit "a".
Definition col_km : str := lit "Km".
Definition col_tiempo : str := lit "Tiempo de marcha".
Definition col_interno : str := lit "Interno".
Definition col_estado : str := lit "Estado".

Definition comma : Z := 44.
Definition point : Z := 46.
Definition colon : Z := 58.

(** The [Maquinarias] branch inside its [try]. *)
Definition hours_of_parts (parts : list str) : result float :=
  bind (index parts 0) (fun p0 =>
  bind (int_of_str p0) (fun horas =>
  bind (if Nat.ltb 1 (length parts)
        then bind (index parts 1) int_of_str
        else Return 0) (fun minutos =>
  bind (int_truediv minutos 60) (fun q =>
  int_add_float horas q)))).

Definition caught_by_time_parser (e : exn) : bool :=
  match e with ValueError | IndexError => true | _ => false end.

Definition caught_by_km_parser (e : exn) : bool :=
  match e with ValueError => true | _ => false end.

Definition calculate_value_to_add (r : row) : result (float * str) :=
  let categoria := strip (get_str r col_categoria (lit "")) in
  if str_eqb categoria (lit "Flota Liviana") || str_eqb categoria (lit "Camiones") then
    try_except
      (bind (float_of_str (replace comma point (get_str r col_km (lit "0"))))
            (fun valor => Return (valor, lit "Km")))
      caught_by_km_parser
      (fun _ => Return (fzero, lit "Km"))
  else if str_eqb categoria (lit "Maquinarias") then
    let tiempo := strip (get_str r col_tiempo (lit "0:00")) in
    try_except
      (bind (hours_of_parts (split colon tiempo))
            (fun horas => Return (horas, lit "Horas")))
      caught_by_time_parser
      (fun _ => Return (fzero, lit "Horas"))
  else
    Return (fzero, lit "Desconocido").

Definition get_interno_and_categoria (r : row) : str * str :=
  (strip (get_str r col_interno (lit "")),
   strip (get_str r col_categoria (lit ""))).

(** [mark_status]: the cell it writes.  The header is on sheet row 9, the
    status column is the one labelled [Estado] (added when absent), and
    the row of index [row_index] is on sheet row [header_row + 1 +
    row_index]. *)
Definition header_row : Z := 9.

Definition excel_row (row_index : nat) : Z := header_row + 1 + Z.of_nat row_index.

End Processing.

(* ===================================================================== *)
(** * api.py                                                              *)
(* ===================================================================== *)

Module Api.
Import Py.

(** A JSON document, and the Python value [response.json()] returns for
    it; [JNull] is [None], an integer is the one written, the members of
    an object come in the order of the document. *)
#[warnings="-register-all"]
Inductive json :=
| JNull
| JBool (b : bool)
| JInt (n : Z)
| JFloat (x : float)
| JStr (s : str)
| JList (items : list json)
| JDict (members : list (str * json)).

(** Truth value of a Python object. *)
Definition truthy (v : json) : bool :=
  match v with
  | JNull => false
  | JBool b => b
  | JInt n => negb (n =? 0)
  | JFloat x => negb (float_is_zero x)
  | JStr s => match s with [] => false | _ => true end
  | JList l => match l with [] => false | _ => true end
  | JDict d => match d with [] => false | _ => true end
  end.

Definition is_None (v : json) : bool :=
  match v with JNull => true | _ => false end.

Fixpoint lookup_member (key : str) (members : list (str * json)) : option json :=
  match members with
  | (k, v) :: rest => if str_eqb k key then Some v else lookup_member key rest
  | [] => None
  end.

(** [v.get(key, default)]: only a [dict] has the method. *)
Definition get (v : json) (key : str) (default : json) : result json :=
  match v with
  | JDict members =>
      Return (match lookup_member key members with
              | Some x => x
              | None => default
              end)
  | _ => Raise AttributeError
  end.

(** [v[key]] for a text key. *)
Definition getitem (v : json) (key : str) : result json :=
  match v with
  | JDict members =>
      match lookup_member key members with
      | Some x => Return x
      | None => Raise KeyError
      end
  | _ => Raise TypeError
  end.

(** [v[0]] *)
Definition first (v : json) : result json :=
  match v with
  | JList (x :: _) => Return x
  | JList [] => Raise IndexError
  | JStr (c :: _) => Return (JStr [c])
  | JStr [] => Raise IndexError
  | JDict _ => Raise KeyError
  | _ => Raise TypeError
  end.

(** What the pipeline's [contador_actual + valor_a_sumar] computes, the
    left operand being a decoded JSON value. *)
Definition add_float (v : json) (x : float) : result float :=
  match v with
  | JInt n => int_add_float n x
  | JBool b => int_add_float (if b then 1 else 0) x
  | JFloat y => Return (fadd y x)
  | _ => Raise TypeError
  end.

(** An HTTP response: its status, the JSON document of its body ([None]
    when the body is not JSON), its body as text, and the room the
    interpreter has, where [response.json()] is called, for nested arrays
    and objects before it reaches its recursion limit. *)
Record response := {
  status_code : Z;
  body : option json;
  text : str;
  depth_left : nat
}.

(** What a call of [requests] does: it brings a response back, or no
    response at all (a [requests.ConnectionError], say), or it does not
    send the request because the payload has no JSON encoding
    ([requests.InvalidJSONError]). *)
Inductive outcome :=
| Responds (r : response)
| NoResponse
| NotSent.

Definition send (o : outcome) : result response :=
  match o with
  | Responds r => Return r
  | NoResponse => Raise ConnectionError
  | NotSent => Raise InvalidJSONError
  end.

(** [response.raise_for_status()] *)
Definition raise_for_status (r : response) : result unit :=
  if (400 <=? status_code r) && (status_code r <? 600)
  then Raise (HTTPError (status_code r))
  else Return tt.

(** An integer written with more than [int_max_str_digits] digits. *)
Definition over_int_limit (n : Z) : bool :=
  10 ^ Z.of_nat int_max_str_digits <=? Z.abs n.

Arguments over_int_limit : simpl never.

(** The decoder of [response.json()] over a document, read from left to
    right, with room for [depth] nested arrays and objects: an integer
    written with more than [int_max_str_digits] digits is refused with a
    plain [ValueError], and [RecursionError] is raised where the nesting
    goes beyond the room there is. *)
Fixpoint decode (depth : nat) (v : json) {struct v} : result unit :=
  match v with
  | JInt n => if over_int_limit n then Raise ValueError else Return tt
  | JList items =>
      match depth with
      | O => Raise RecursionError
      | S d =>
          (fix each (l : list json) : result unit :=
             match l with
             | [] => Return tt
             | x :: l' => bind (decode d x) (fun _ => each l')
             end) items
      end
  | JDict members =>
      match depth with
      | O => Raise RecursionError
      | S d =>
          (fix each (l : list (str * json)) : result unit :=
             match l with
             | [] => Return tt
             | (_, x) :: l' => bind (decode d x) (fun _ => each l')
             end) members
      end
  | _ => Return tt
  end.

(** [response.json()]: a body that is not JSON raises the
    [JSONDecodeError] of [requests]; what the decoder raises on a JSON
    body is not converted. *)
Definition json_of (r : response) : result json :=
  match body r with
  | Some v => bind (decode (depth_left r) v) (fun _ => Return v)
  | None => Raise JSONDecodeError
  end.

(** The client: its credentials and the token ([None] at first). *)
Record FracttalAPI := {
  api_key : str;
  api_secret : str;
  token : json
}.

Definition init (key secret : str) : FracttalAPI :=
  {| api_key := key; api_secret := secret; token := JNull |}.

Definition set_token (self : FracttalAPI) (t : json) : FracttalAPI :=
  {| api_key := api_key self; api_secret := api_secret self; token := t |}.

(** [authenticate]: [o] is what the POST to the token endpoint does.
    Returns the flag and the client with its token. *)
Definition authenticate (self : FracttalAPI) (o : outcome) : result (bool * FracttalAPI) :=
  try_except
    (bind (send o) (fun response =>
     bind (raise_for_status response) (fun _ =>
     bind (json_of response) (fun data =>
     bind (get data (lit "access_token") JNull) (fun t =>
     let self' := set_token self t in
     Return (negb (is_None (token self')), self'))))))
    is_RequestException
    (fun _ => Return (false, self)).

(** [get_meter_value]: [o] is what the GET on the meter of the serial
    does. *)
Definition get_meter_value (o : outcome) : result json :=
  try_except
    (bind (send o) (fun response =>
     bind (raise_for_status response) (fun _ =>
     bind (json_of response) (fun data =>
     bind (get data (lit "data") JNull) (fun d =>
     if negb (truthy d) then Return JNull
     else
       bind (getitem data (lit "data")) (fun d' =>
       bind (first d') (fun meter =>
       bind (get meter (lit "last_data") (JDict [])) (fun last_data =>
       get last_data (lit "accumulated_value") JNull))))))))
    is_RequestException
    (fun _ => Return JNull).

(** The message of [update_meter], its variable parts kept. *)
Inductive message :=
| MsgUpdated
| MsgReported (data : json)
| MsgHttp (status : Z) (text : str)
| MsgException (e : exn).

(** [update_meter]: [o] is what the PUT of the reading does. *)
Definition update_meter (o : outcome) : result (bool * message) :=
  try_except
    (bind (send o) (fun response =>
     if status_code response =? 200 then
       bind (json_of response) (fun data =>
       bind (get data (lit "success") JNull) (fun s =>
       if truthy s then Return (true, MsgUpdated)
       else Return (false, MsgReported data)))
     else Return (false, MsgHttp (status_code response) (text response))))
    is_RequestException
    (fun e => Return (false, MsgException e)).

End Api.

(* ===================================================================== *)
(** * gui.py: UpdateWorker.run                                            *)
(* ===================================================================== *)

Module Gui.
Import Py Processing Api.

(** The four counters of a run. *)
Record counters := {
  successful : nat;
  failed : nat;
  skipped : nat;
  already_processed : nat
}.

Definition zero_counters : counters :=
  {| successful := 0; failed := 0; skipped := 0; already_processed := 0 |}.

Definition incr_successful (c : counters) : counters :=
  {| successful := S (successful c); failed := failed c;
     skipped := skipped c; already_processed := already_processed c |}.
Definition incr_failed (c : counters) : counters :=
  {| successful := successful c; failed := S (failed c);
     skipped := skipped c; already_processed := already_processed c |}.
Definition incr_skipped (c : counters) : counters :=
  {| successful := successful c; failed := failed c;
     skipped := S (skipped c); already_processed := already_processed c |}.
Definition incr_already_processed (c : counters) : counters :=
  {| successful := successful c; failed := failed c;
     skipped := skipped c; already_processed := S (already_processed c) |}.

(** The lines of the log, their variable parts kept. *)
Inductive log_line :=
| LogAuthenticating
| LogAuthenticated
| LogLoading
| LogLoaded (total_rows : nat)
| LogAlreadyProcessed (interno : str)
| LogRow (interno categoria : str)
| LogNoMeter
| LogZeroValue
| LogSum (contador_actual : json) (valor_a_sumar nuevo_valor : float) (unidad : str)
| LogUpdated
| LogUpdateFailed (m : message)
| LogBlank
| LogRule
| LogSummary (c : counters)
| LogError (e : exn).

(** The message of [finished_signal]. *)
Inductive summary :=
| AuthenticationError
| Completed (successful failed : nat)
| Failure (e : exn).

(** What a run does that can be observed from outside, in order: the four
    signals of the worker, and its calls of the client, of [load_excel]
    and of [mark_status], each with what it returned. *)
Inductive event :=
| Log (l : log_line)
| Progress (current total : nat)
| Stats (c : counters)
| Finished (ok : bool) (m : summary)
| CallAuthenticate (r : result bool)
| CallLoadExcel
| CallGetMeter (serial : str) (r : result json)
| CallUpdateMeter (serial : str) (new_value : float) (r : result (bool * message))
| CallMarkStatus (row_index : nat) (status : str).

(** The surroundings of a run: what the token endpoint answers, what
    [load_excel] returns, and what the meter endpoints answer to the
    request made for the row of a given index; for the update, to the
    request that carries a given value, when it is sent. *)
Record world := {
  auth_reply : outcome;
  report : result (list row);
  meter_reply : nat -> str -> outcome;
  put_reply : nat -> str -> float -> outcome
}.

(** What [requests.put(url, headers=..., json=payload)] does for the row
    of index [idx]: the payload is encoded with [allow_nan=False], so a
    value that is NaN or infinite is refused and nothing is sent;
    otherwise the remote answers. *)
Definition update_reply (w : world) (idx : nat) (serial : str) (new_value : float)
    : outcome :=
  if is_finite new_value then put_reply w idx serial new_value else NotSent.

(** Code that emits events and returns or raises. *)
Definition M (A : Type) : Type := list event * result A.

Definition ret {A} (a : A) : M A := ([], Return a).
Definition emit (e : event) : M unit := ([e], Return tt).
Definition lift {A} (r : result A) : M A := ([], r).
Definition call {A} (e : event) (r : result A) : M A := ([e], r).

Definition bindM {A B} (m : M A) (k : A -> M B) : M B :=
  match m with
  | (ev, Return a) => let '(ev', r) := k a in (ev ++ ev', r)
  | (ev, Raise e) => (ev, Raise e)
  end.

Notation "x <- m ;; k" := (bindM m (fun x => k))
  (at level 20, m at level 99, k at level 200, only parsing).
Notation "' p <- m ;; k" := (bindM m (fun x => let 'p := x in k))
  (at level 20, p pattern, m at level 99, k at level 200, only parsing).
Notation "m ;; k" := (bindM m (fun _ => k))
  (at level 100, k at level 200, only parsing, right associativity).

Definition api_authenticate (w : world) (api : FracttalAPI) : M (bool * FracttalAPI) :=
  let r := authenticate api (auth_reply w) in
  call (CallAuthenticate (bind r (fun p => Return (fst p)))) r.

Definition api_get_meter_value (w : world) (idx : nat) (serial : str) : M json :=
  let r := get_meter_value (meter_reply w idx serial) in
  call (CallGetMeter serial r) r.

Definition api_update_meter (w : world) (idx : nat) (serial : str) (new_value : float)
    : M (bool * message) :=
  let r := update_meter (update_reply w idx serial new_value) in
  call (CallUpdateMeter serial new_value r) r.

Definition load_excel (w : world) : M (list row) := call CallLoadExcel (report w).

(** [mark_status(self.filepath, idx, status)]: the workbook is opened, the
    status is put into the cell of the [Estado] column on the sheet row
    [excel_row idx] and the workbook is saved; whatever goes wrong is
    caught inside, and nothing is returned.  A run is seen to write a
    status where it makes this call. *)
Definition mark_status (row_index : nat) (status : str) : M unit :=
  emit (CallMarkStatus row_index status).

(** The body of the loop, for the row [r] of index [idx], from the
    counters [c] to the counters after the row. *)
Definition process_row (w : world) (total_rows idx : nat) (r : row) (c : counters)
    : M counters :=
  let current := (idx + 1)%nat in
  emit (Progress current total_rows) ;;
  let '(interno, categoria) := get_interno_and_categoria r in
  if str_eqb interno [] || str_eqb interno (lit "nan") then ret c
  else
    emit (Stats c) ;;
    let estado := upper (strip (get_str r col_estado (lit ""))) in
    if str_eqb estado (lit "OK") then
      emit (Log (LogAlreadyProcessed interno)) ;;
      let c := incr_already_processed c in
      emit (Stats c) ;;
      ret c
    else
      emit (Log (LogRow interno categoria)) ;;
      contador_actual <- api_get_meter_value w idx interno ;;
      if is_None contador_actual then
        emit (Log LogNoMeter) ;;
        let c := incr_failed c in
        emit (Stats c) ;;
        ret c
      else
        '(valor_a_sumar, unidad) <- lift (calculate_value_to_add r) ;;
        if float_is_zero valor_a_sumar then
          emit (Log LogZeroValue) ;;
          let c := incr_skipped c in
          emit (Stats c) ;;
          ret c
        else
          nuevo_valor <- lift (add_float contador_actual valor_a_sumar) ;;
          emit (Log (LogSum contador_actual valor_a_sumar nuevo_valor unidad)) ;;
          '(success, message) <- api_update_meter w idx interno nuevo_valor ;;
          c <- (if (success : bool) then
                  emit (Log LogUpdated) ;;
                  mark_status idx (lit "OK") ;;
                  ret (incr_successful c)
                else
                  emit (Log (LogUpdateFailed message)) ;;
                  ret (incr_failed c)) ;;
          emit (Stats c) ;;
          ret c.

(** [for idx, row in df.iterrows()], from the row of index [idx] on. *)
Fixpoint iterrows (w : world) (total_rows idx : nat) (rows : list row) (c : counters)
    : M counters :=
  match rows with
  | [] => ret c
  | r :: rest =>
      c' <- process_row w total_rows idx r c ;;
      iterrows w total_rows (S idx) rest c'
  end.

(** The [try] block of [run]; [None] is the early [return]. *)
Definition run_body (w : world) (api : FracttalAPI) : M (option counters) :=
  emit (Log LogAuthenticating) ;;
  '(ok, api) <- api_authenticate w api ;;
  if negb ok then
    emit (Finished false AuthenticationError) ;;
    ret None
  else
    emit (Log LogAuthenticated) ;;
    emit (Log LogLoading) ;;
    df <- load_excel w ;;
    let total_rows := length df in
    emit (Log (LogLoaded total_rows)) ;;
    c <- iterrows w total_rows 0 df zero_counters ;;
    emit (Log LogBlank) ;;
    emit (Log LogRule) ;;
    emit (Log (LogSummary c)) ;;
    emit (Finished true (Completed (successful c) (failed c))) ;;
    ret (Some c).

(** [run]: the events of a run, its [except Exception] included. *)
Definition run (w : world) (api : FracttalAPI) : list event :=
  match run_body w api with
  | (ev, Return _) => ev
  | (ev, Raise e) => ev ++ [Log (LogError e); Finished false (Failure e)]
  end.

(** The counters a run ends with, when it gets to the end of the rows. *)
Definition final_counters (w : world) (api : FracttalAPI) : option counters :=
  match run_body w api with
  | (_, Return c) => c
  | (_, Raise _) => None
  end.

End Gui.

(* ===================================================================== *)
(** * Vocabulary of the properties                                        *)
(* ===================================================================== *)

Module Spec.
Import Py Processing Api Gui.

(** Equality of two texts, ignoring the case of the ASCII letters. *)
Definition eq_ignoring_case (a b : str) : bool :=
  str_eqb (map lower_ascii a) (map lower_ascii b).

(** The identifier of a row: its [Interno] field, trimmed. *)
Definition identifier (r : row) : str := fst (get_interno_and_categoria r).

(** The identifier is missing: empty, or the text of a missing value. *)
Definition no_identifier (r : row) : Prop :=
  identifier r = [] \/ identifier r = lit "nan".

(** The status of a row: its [Estado] field, trimmed. *)
Definition status (r : row) : str := strip (get_str r col_estado (lit "")).

(** The category of a row: its category field, trimmed. *)
Definition category (r : row) : str := strip (get_str r col_categoria (lit "")).

(** What the four stat cards of the window show after the events of a
    run: [start_update] sets them to 0 and [update_stats] to the counters
    of each [stats_update] signal. *)
Definition stat_cards (events : list event) : counters :=
  fold_left (fun shown e => match e with Stats c => c | _ => shown end)
            events zero_counters.

Definition is_remote_call (e : event) : bool :=
  match e with
  | CallGetMeter _ _ | CallUpdateMeter _ _ _ => true
  | _ => false
  end.

Definition is_update_call (e : event) : bool :=
  match e with CallUpdateMeter _ _ _ => true | _ => false end.

Definition is_mark (e : event) : bool :=
  match e with CallMarkStatus _ _ => true | _ => false end.

(** Events that belong to the work on the rows: loading them, visiting
    one, reporting counters, calling the meter endpoints, writing a
    status. *)
Definition is_row_work (e : event) : bool :=
  match e with
  | CallLoadExcel | Progress _ _ | Stats _ | CallGetMeter _ _
  | CallUpdateMeter _ _ _ | CallMarkStatus _ _ => true
  | _ => false
  end.

(** The rows of the report of a world, by index. *)
Definition row_at (w : world) (j : nat) : option row :=
  match report w with
  | Return rows => nth_error rows j
  | Raise _ => None
  end.

(** No status is written in [ev]. *)
Definition no_mark (ev : list event) : Prop := Forall (fun e => is_mark e = false) ev.


(** Every status written in [ev] is the [OK] of a row between [lo] and
    [hi], written once, right after the line that follows a successful
    update of the meter of that row. *)
Definition written_after_success (rows_at : nat -> option row) (lo hi : nat)
    (ev : list event) : Prop :=
  forall pre j s post,
    ev = pre ++ CallMarkStatus j s :: post ->
    s = lit "OK" /\ (lo <= j < hi)%nat /\
    (exists r pre' v m,
        rows_at j = Some r /\
        pre = pre' ++ [CallUpdateMeter (identifier r) v (Return (true, m));
                       Log LogUpdated]) /\
    (forall s', ~ In (CallMarkStatus j s') pre) /\
    (forall s', ~ In (CallMarkStatus j s') post).


(** The events of a row up to the lookup of its meter. *)
Definition row_head (total_rows idx : nat) (r : row) (c : counters) (v : json)
    : list event :=
  [Progress (idx + 1) total_rows; Stats c;
   Log (LogRow (identifier r) (category r));
   CallGetMeter (identifier r) (Return v)].

(** *** The value calculator (specification, 4.2) *)

Definition distance (r : row) : str := get_str r col_km (lit "0").
Definition running_time (r : row) : str := strip (get_str r col_tiempo (lit "0:00")).

(** What the code reads off the distance: what [float] makes of the
    text, a comma replaced by a point, if it makes something of it. *)
Definition float_of_distance (text : str) : option float :=
  match float_of_str (replace comma point text) with
  | Return x => Some x
  | Raise _ => None
  end.

(** A decimal string (specification, 3 and 4.2): an optional sign,
    digits, and optionally a separator, comma or point, followed by
    digits. *)
Record decimal := {
  negative : bool;
  whole : str;
  fraction : str
}.

Definition is_separator (c : Z) : bool := (c =? comma) || (c =? point).

Definition decimal_string (text : str) : option decimal :=
  let '(neg, t) := take_sign text in
  match span_digits t with
  | ((_ :: _) as w, []) => Some {| negative := neg; whole := w; fraction := [] |}
  | ((_ :: _) as w, c :: t') =>
      if is_separator c then
        match span_digits t' with
        | ((_ :: _) as f, []) => Some {| negative := neg; whole := w; fraction := f |}
        | _ => None
        end
      else None
  | _ => None
  end.

(** The number a decimal string writes, as a double: the nearest one
    (minus zero for a zero written with a minus sign). *)
Definition decimal_value (d : decimal) : float :=
  let n := digits_value (whole d ++ fraction d) in
  let signed := if negative d then - n else n in
  if n =? 0 then S754_zero (negative d)
  else match fraction d with
       | [] => round_Z signed
       | _ :: _ => round_quotient signed (10 ^ Z.of_nat (length (fraction d)))
       end.

(** A Latin letter that no notation of a number has: any but a, e, f, i,
    n, t and y, the letters of an exponent, of [inf], [infinity] and
    [nan]. *)
Definition is_other_letter (c : Z) : bool :=
  let l := lower_ascii c in
  (97 <=? l) && (l <=? 122)
  && negb (existsb (Z.eqb l) [97; 101; 102; 105; 110; 116; 121]).

Definition has_other_letter (text : str) : bool := existsb is_other_letter text.

(** The characters of a number in figures: a digit, a sign, the point,
    the letter of the exponent. *)
Definition number_char (c : Z) : Prop :=
  is_digit c = true \/ In c [43; 45; 46; 69; 101].

(** The text before the first [sep] and the text after it. *)
Fixpoint cut (sep : Z) (s : str) : option (str * str) :=
  match s with
  | [] => None
  | c :: s' =>
      if c =? sep then Some ([], s')
      else match cut sep s' with
           | Some (a, b) => Some (c :: a, b)
           | None => None
           end
  end.

Definition parse_int (text : str) : option Z :=
  match int_of_str text with
  | Return n => Some n
  | Raise _ => None
  end.

(** [H:MM]: integer hours, a colon, integer minutes. *)
Definition parse_h_mm (text : str) : option (Z * Z) :=
  match cut colon text with
  | None => None
  | Some (h, mm) =>
      match parse_int h, parse_int mm with
      | Some h, Some m => Some (h, m)
      | _, _ => None
      end
  end.

(** [minutes / 60] and [hours + minutes / 60], as doubles. *)
Definition sixtieth (minutes : Z) : float :=
  if minutes =? 0 then fzero else round_quotient minutes 60.

Definition decimal_hours (hours minutes : Z) : float :=
  fadd (round_Z hours) (sixtieth minutes).

(** The case definition of the specification, in its words. *)
Definition spec_calculate_value_to_add (r : row) : float * str :=
  if str_eqb (category r) (lit "Flota Liviana") || str_eqb (category r) (lit "Camiones") then
    (match decimal_string (distance r) with
     | Some d => decimal_value d
     | None => fzero
     end, lit "Km")
  else if str_eqb (category r) (lit "Maquinarias") then
    (match parse_h_mm (running_time r) with
     | Some (h, m) => decimal_hours h m
     | None => fzero
     end, lit "Horas")
  else (fzero, lit "Desconocido").

(** The running time read field by field: the hours are the text before
    the first colon, the minutes the text between the first colon and the
    second, if there is a colon. *)
Definition time_fields (text : str) : str * option str :=
  match cut colon text with
  | None => (text, None)
  | Some (h, rest) =>
      (h, Some (match cut colon rest with
                | Some (mm, _) => mm
                | None => rest
                end))
  end.

(** Integer hours and minutes; no colon at all means 0 minutes. *)
Definition parse_hours_minutes (text : str) : option (Z * Z) :=
  let '(h, mm) := time_fields text in
  match parse_int h with
  | Some h =>
      match mm with
      | None => Some (h, 0)
      | Some mm =>
          match parse_int mm with
          | Some m => Some (h, m)
          | None => None
          end
      end
  | None => None
  end.

(** The case definition, with the running time read field by field. *)
Definition value_by_cases (r : row) : float * str :=
  if str_eqb (category r) (lit "Flota Liviana") || str_eqb (category r) (lit "Camiones") then
    (match decimal_string (distance r) with
     | Some d => decimal_value d
     | None => fzero
     end, lit "Km")
  else if str_eqb (category r) (lit "Maquinarias") then
    (match parse_hours_minutes (running_time r) with
     | Some (h, m) => decimal_hours h m
     | None => fzero
     end, lit "Horas")
  else (fzero, lit "Desconocido").

(** The hours and the sixtieth of the minutes are within the range of a
    double. *)
Definition within_double_range (hours minutes : Z) : bool :=
  negb (is_infinite (round_Z hours)) && negb (is_infinite (sixtieth minutes)).

(** *** Worlds and rows of the examples *)

Definition silent_world : world :=
  {| auth_reply := NoResponse; report := Return [];
     meter_reply := fun _ _ => NoResponse;
     put_reply := fun _ _ _ => NoResponse |}.


Definition json_reply (v : json) : outcome :=
  Responds {| status_code := 200; body := Some v; text := []; depth_left := 900 |}.

(** The lookup answers with one meter whose accumulated value is [v]. *)
Definition meter_found (v : json) : outcome :=
  json_reply (JDict [(lit "data",
    JList [JDict [(lit "last_data", JDict [(lit "accumulated_value", v)])]])]).

Definition update_accepted : outcome :=
  json_reply (JDict [(lit "success", JBool true)]).

Definition token_granted : outcome :=
  json_reply (JDict [(lit "access_token", JStr (lit "token"))]).

(** A report of the given rows, every meter reading [v], every update
    accepted. *)
Definition steady_world (rows : list row) (v : json) : world :=
  {| auth_reply := token_granted; report := Return rows;
     meter_reply := fun _ _ => meter_found v;
     put_reply := fun _ _ _ => update_accepted |}.

Definition vehicle_row (interno categoria km : string) : row :=
  <[col_interno := lit interno]>
    (<[col_categoria := lit categoria]> (<[col_km := lit km]> ∅)).

Definition machine_row (interno tiempo : string) : row :=
  <[col_interno := lit interno]>
    (<[col_categoria := lit "Maquinarias"]> (<[col_tiempo := lit tiempo]> ∅)).

(** A machine whose running time has no colon. *)
Definition row_hours_only : row := machine_row "EX-7" "5".

(** A machine whose running time is a 1 followed by 309 zeros. *)
Definition huge_hours : str := lit "1" ++ repeat 48 309.
Definition row_huge_hours : row :=
  <[col_interno := lit "EX-7"]>
    (<[col_categoria := lit "Maquinarias"]> (<[col_tiempo := huge_hours]> ∅)).

(** A truck whose category is written in small letters. *)
Definition row_small_letters : row := vehicle_row "ER-1022" "camiones" "50".

(** A truck that went half a kilometre backwards. *)
Definition row_backwards : row := vehicle_row "ER-1022" "Camiones" "-0,5".

(** The reading of a meter as a double, when it is a number that has
    one. *)
Definition reading (v : json) : option float :=
  match v with
  | JInt n => if is_infinite (round_Z n) then None else Some (round_Z n)
  | JBool b => Some (round_Z (if b then 1 else 0))
  | JFloat x => Some x
  | _ => None
  end.

(** A reading of ten thousand million million, and minus a half. *)
Definition big_reading : Z := 10 ^ 16.
Definition minus_half : float := S754_finite true 4503599627370496 (-53).

Definition array_body : outcome := json_reply (JList []).

(** A meter that has no reading yet: its [last_data] is [null]. *)
Definition meter_without_reading : outcome :=
  json_reply (JDict [(lit "data", JList [JDict [(lit "last_data", JNull)]])]).



End Spec.

(* ===================================================================== *)
(** * The paths of a row through the loop                                 *)
(* ===================================================================== *)

Module Rows.
Import Py Processing Api Gui Spec.

(** Where the body of the loop leaves a row: at one of its four
    [continue], at the end of the body after an update that succeeded or
    failed, or at a call that raised. *)
Inductive path :=
| PassedOver
| AlreadyProcessed
| LookupRaised (e : exn)
| NoMeter (contador : json)
| CalculatorRaised (contador : json) (e : exn)
| ZeroDelta (contador : json) (valor : float) (unidad : str)
| SumRaised (contador : json) (valor : float) (unidad : str) (e : exn)
| UpdateRaised (contador : json) (valor : float) (unidad : str) (nuevo : float) (e : exn)
| Updated (contador : json) (valor : float) (unidad : str) (nuevo : float) (m : message)
| UpdateFailed (contador : json) (valor : float) (unidad : str) (nuevo : float) (m : message).

(** The row has an identifier. *)
Definition has_identifier (r : row) : bool :=
  negb (str_eqb (identifier r) [] || str_eqb (identifier r) (lit "nan")).

(** The row is marked [OK]. *)
Definition marked_ok (r : row) : bool := eq_ignoring_case (status r) (lit "OK").

(** The path of the row [r] of index [idx] in the world [w]. *)
Definition path_of (w : world) (idx : nat) (r : row) : path :=
  if negb (has_identifier r) then PassedOver
  else if marked_ok r then AlreadyProcessed
  else
    match get_meter_value (meter_reply w idx (identifier r)) with
    | Raise e => LookupRaised e
    | Return contador =>
        if is_None contador then NoMeter contador
        else
          match calculate_value_to_add r with
          | Raise e => CalculatorRaised contador e
          | Return (valor, unidad) =>
              if float_is_zero valor then ZeroDelta contador valor unidad
              else
                match add_float contador valor with
                | Raise e => SumRaised contador valor unidad e
                | Return nuevo =>
                    match update_meter (update_reply w idx (identifier r) nuevo) with
                    | Raise e => UpdateRaised contador valor unidad nuevo e
                    | Return (true, m) => Updated contador valor unidad nuevo m
                    | Return (false, m) => UpdateFailed contador valor unidad nuevo m
                    end
                end
          end
    end.

(** The counters after a row that took the path [p], or the exception
    that ended the loop there. *)
Definition after (c : counters) (p : path) : result counters :=
  match p with
  | PassedOver => Return c
  | AlreadyProcessed => Return (incr_already_processed c)
  | NoMeter _ => Return (incr_failed c)
  | ZeroDelta _ _ _ => Return (incr_skipped c)
  | Updated _ _ _ _ _ => Return (incr_successful c)
  | UpdateFailed _ _ _ _ _ => Return (incr_failed c)
  | LookupRaised e | CalculatorRaised _ e | SumRaised _ _ _ e
  | UpdateRaised _ _ _ _ e => Raise e
  end.

(** The events of a row that took the path [p]. *)
Definition events_of (total_rows idx : nat) (r : row) (c : counters) (p : path)
    : list event :=
  let progress := Progress (idx + 1) total_rows in
  let started := [progress; Stats c; Log (LogRow (identifier r) (category r))] in
  let sent contador valor unidad nuevo res :=
    row_head total_rows idx r c contador ++
    [Log (LogSum contador valor nuevo unidad);
     CallUpdateMeter (identifier r) nuevo res] in
  match p with
  | PassedOver => [progress]
  | AlreadyProcessed =>
      [progress; Stats c; Log (LogAlreadyProcessed (identifier r));
       Stats (incr_already_processed c)]
  | LookupRaised e => started ++ [CallGetMeter (identifier r) (Raise e)]
  | NoMeter contador =>
      row_head total_rows idx r c contador ++ [Log LogNoMeter; Stats (incr_failed c)]
  | CalculatorRaised contador _ => row_head total_rows idx r c contador
  | ZeroDelta contador _ _ =>
      row_head total_rows idx r c contador ++ [Log LogZeroValue; Stats (incr_skipped c)]
  | SumRaised contador _ _ _ => row_head total_rows idx r c contador
  | UpdateRaised contador valor unidad nuevo e =>
      sent contador valor unidad nuevo (Raise e)
  | Updated contador valor unidad nuevo m =>
      sent contador valor unidad nuevo (Return (true, m)) ++
      [Log LogUpdated; CallMarkStatus idx (lit "OK"); Stats (incr_successful c)]
  | UpdateFailed contador valor unidad nuevo m =>
      sent contador valor unidad nuevo (Return (false, m)) ++
      [Log (LogUpdateFailed m); Stats (incr_failed c)]
  end.

(** The number of rows counted by the four counters together. *)
Definition counted (c : counters) : nat :=
  (successful c + failed c + skipped c + already_processed c)%nat.

(** What the stat cards show after [events], when they showed [shown]. *)
Definition cards_after (shown : counters) (events : list event) : counters :=
  fold_left (fun shown e => match e with Stats c => c | _ => shown end) events shown.

(** The progress signals among the events. *)
Fixpoint progress_signals (events : list event) : list (nat * nat) :=
  match events with
  | Progress current total :: rest => (current, total) :: progress_signals rest
  | _ :: rest => progress_signals rest
  | [] => []
  end.

Definition is_finished (e : event) : bool :=
  match e with Finished _ _ => true | _ => false end.

Definition is_lookup (e : event) : bool :=
  match e with CallGetMeter _ _ => true | _ => false end.

(** The number of events of a kind. *)
Definition count (kind : event -> bool) (events : list event) : nat :=
  length (List.filter kind events).

(** The path made a lookup of the meter. *)
Definition looked_up (p : path) : bool :=
  match p with
  | PassedOver | AlreadyProcessed => false
  | _ => true
  end.

(** The events of a run before the first row and after the last one. *)
Definition run_prefix (total_rows : nat) : list event :=
  [Log LogAuthenticating; CallAuthenticate (Return true); Log LogAuthenticated;
   Log LogLoading; CallLoadExcel; Log (LogLoaded total_rows)].

Definition run_suffix (c : counters) : list event :=
  [Log LogBlank; Log LogRule; Log (LogSummary c);
   Finished true (Completed (successful c) (failed c))].

Definition is_no_meter_line (e : event) : bool :=
  match e with Log LogNoMeter => true | _ => false end.

(** What the path sent to [update_meter], if it got there: the reading,
    the delta and its unit, the value sent and what the call did. *)
Definition sent (p : path) : option (json * float * str * float * result (bool * message)) :=
  match p with
  | UpdateRaised x d u v e => Some (x, d, u, v, Raise e)
  | Updated x d u v m => Some (x, d, u, v, Return (true, m))
  | UpdateFailed x d u v m => Some (x, d, u, v, Return (false, m))
  | _ => None
  end.

(** Every call of [update_meter] among the events is made for a row of
    the report, right after the lookup of the meter of that row returned
    a reading and after the line of the sum, with the sum of that reading
    and of the delta of the row, which is not 0. *)
Definition updates_follow_lookups (w : world) (rows_at : nat -> option row)
    (total_rows : nat) (ev : list event) : Prop :=
  forall pre s v res post,
    ev = pre ++ CallUpdateMeter s v res :: post ->
    exists j r c x d u pre',
      rows_at j = Some r /\ identifier r = s /\
      pre = pre' ++ row_head total_rows j r c x ++ [Log (LogSum x d v u)] /\
      is_None x = false /\
      calculate_value_to_add r = Return (d, u) /\
      float_is_zero d = false /\
      add_float x d = Return v /\
      res = update_meter (update_reply w j s v).

Definition is_quiet (e : event) : bool := negb (is_remote_call e) && negb (is_mark e).

(** The exception a path ends the loop with, if it does. *)
Definition raised (p : path) : option exn :=
  match p with
  | LookupRaised e | CalculatorRaised _ e | SumRaised _ _ _ e
  | UpdateRaised _ _ _ _ e => Some e
  | _ => None
  end.

End Rows.

(* ===================================================================== *)
(** * Kinds of responses                                                  *)
(* ===================================================================== *)

Module Replies.
Import Py Processing Api Gui Spec.








End Replies.

(* ===================================================================== *)
(** * Signs                                                               *)
(* ===================================================================== *)

Module Signs.
Import Py.

(** The hyphen-minus. *)
Definition minus : Z := 45.

(** The double does not carry a minus sign (NaN has none). *)
Definition unsigned (x : float) : Prop :=
  match x with
  | S754_zero s | S754_infinity s | S754_finite s _ _ => s = false
  | S754_nan => True
  end.

(** [x < 0] *)
Definition below_zero (x : float) : bool := fltb x fzero.

End Signs.

(* ===================================================================== *)
(** * gui.py: FracttalUpdaterApp, and main.py                             *)
(* ===================================================================== *)

Module Window.
Import Py Gui.

(** The texts of the status indicator. *)
Inductive status_text := Listo | Procesando | Completado | Error.

(** A line of the log area: the one [select_file] writes, with the path
    whose name it shows, or one that came with [log_message]. *)
Inductive log_entry :=
| FileLine (filepath : str)
| WorkerLine (l : log_line).

(** The progress bar; its minimum stays 0.  Qt starts it with the range
    0..100 and no value, which it keeps as -1. *)
Record QProgressBar := {
  maximum : Z;
  value : Z
}.

(** [setMaximum(m)] for [m >= 0]: when the maximum changes, a value
    above the new one is reset. *)
Definition setMaximum (m : nat) (bar : QProgressBar) : QProgressBar :=
  if Z.of_nat m =? maximum bar then bar
  else
    {| maximum := Z.of_nat m;
       value := if (value bar <? -1) || (Z.of_nat m <? value bar) then -1 else value bar |}.

(** [setValue(v)]: a value out of the range is not taken, unless the
    range is 0..0. *)
Definition setValue (v : nat) (bar : QProgressBar) : QProgressBar :=
  if (maximum bar <? Z.of_nat v) && negb (maximum bar =? 0) then bar
  else {| maximum := maximum bar; value := Z.of_nat v |}.

(** What the window holds and shows.  The label of the file shows the
    name of the path kept in [file_label]; [dialogs] are the messages of
    the error dialogs shown so far; the two buttons are kept by whether
    they are enabled. *)
Record window := {
  api_key : str;
  api_secret : str;
  selected_file : option str;
  status_label : status_text;
  stat_success : nat;
  stat_failed : nat;
  stat_skipped : nat;
  stat_already : nat;
  progress_bar : QProgressBar;
  file_label : option str;
  select_btn : bool;
  start_btn : bool;
  log_area : list log_entry;
  dialogs : list summary
}.

(** [__init__] and [init_ui]. *)
Definition initial (key secret : str) : window :=
  {| api_key := key; api_secret := secret;
     selected_file := None;
     status_label := Listo;
     stat_success := 0; stat_failed := 0; stat_skipped := 0; stat_already := 0;
     progress_bar := {| maximum := 100; value := -1 |};
     file_label := None;
     select_btn := true;
     start_btn := false;
     log_area := [];
     dialogs := [] |}.

(** The four stat cards, as counters. *)
Definition shown (win : window) : counters :=
  {| successful := stat_success win; failed := stat_failed win;
     skipped := stat_skipped win; already_processed := stat_already win |}.

Definition append_log (entry : log_entry) (win : window) : window :=
  {| api_key := api_key win; api_secret := api_secret win;
     selected_file := selected_file win;
     status_label := status_label win;
     stat_success := stat_success win; stat_failed := stat_failed win;
     stat_skipped := stat_skipped win; stat_already := stat_already win;
     progress_bar := progress_bar win;
     file_label := file_label win;
     select_btn := select_btn win;
     start_btn := start_btn win;
     log_area := log_area win ++ [entry];
     dialogs := dialogs win |}.

Definition clear_log (win : window) : window :=
  {| api_key := api_key win; api_secret := api_secret win;
     selected_file := selected_file win;
     status_label := status_label win;
     stat_success := stat_success win; stat_failed := stat_failed win;
     stat_skipped := stat_skipped win; stat_already := stat_already win;
     progress_bar := progress_bar win;
     file_label := file_label win;
     select_btn := select_btn win;
     start_btn := start_btn win;
     log_area := [];
     dialogs := dialogs win |}.

Definition update_progress (current total : nat) (win : window) : window :=
  {| api_key := api_key win; api_secret := api_secret win;
     selected_file := selected_file win;
     status_label := status_label win;
     stat_success := stat_success win; stat_failed := stat_failed win;
     stat_skipped := stat_skipped win; stat_already := stat_already win;
     progress_bar := setValue current (setMaximum total (progress_bar win));
     file_label := file_label win;
     select_btn := select_btn win;
     start_btn := start_btn win;
     log_area := log_area win;
     dialogs := dialogs win |}.

Definition update_stats (c : counters) (win : window) : window :=
  {| api_key := api_key win; api_secret := api_secret win;
     selected_file := selected_file win;
     status_label := status_label win;
     stat_success := successful c; stat_failed := failed c;
     stat_skipped := skipped c; stat_already := already_processed c;
     progress_bar := progress_bar win;
     file_label := file_label win;
     select_btn := select_btn win;
     start_btn := start_btn win;
     log_area := log_area win;
     dialogs := dialogs win |}.

(** [on_finished]: both buttons are enabled again; on a failure the
    message is shown in an error dialog. *)
Definition on_finished (success : bool) (message : summary) (win : window) : window :=
  {| api_key := api_key win; api_secret := api_secret win;
     selected_file := selected_file win;
     status_label := if success then Completado else Error;
     stat_success := stat_success win; stat_failed := stat_failed win;
     stat_skipped := stat_skipped win; stat_already := stat_already win;
     progress_bar := progress_bar win;
     file_label := file_label win;
     select_btn := true;
     start_btn := true;
     log_area := log_area win;
     dialogs := if success then dialogs win else dialogs win ++ [message] |}.

(** [select_file], where [filepath] is what the file dialog returns: the
    empty text when it is cancelled. *)
Definition select_file (filepath : str) (win : window) : window :=
  if str_eqb filepath [] then win
  else
    append_log (FileLine filepath)
      {| api_key := api_key win; api_secret := api_secret win;
         selected_file := Some filepath;
         status_label := status_label win;
         stat_success := stat_success win; stat_failed := stat_failed win;
         stat_skipped := stat_skipped win; stat_already := stat_already win;
         progress_bar := progress_bar win;
         file_label := Some filepath;
         select_btn := select_btn win;
         start_btn := true;
         log_area := log_area win;
         dialogs := dialogs win |}.

(** [not self.selected_file] *)
Definition no_file (win : window) : bool :=
  match selected_file win with
  | None => true
  | Some filepath => str_eqb filepath []
  end.

(** [start_update], up to the start of the worker: the window, and the
    client the worker is given, if one is started. *)
Definition start_update (win : window) : window * option Api.FracttalAPI :=
  if no_file win then (win, None)
  else
    ({| api_key := api_key win; api_secret := api_secret win;
        selected_file := selected_file win;
        status_label := Procesando;
        stat_success := 0; stat_failed := 0; stat_skipped := 0; stat_already := 0;
        progress_bar := setValue 0 (progress_bar win);
        file_label := file_label win;
        select_btn := false;
        start_btn := false;
        log_area := log_area win;
        dialogs := dialogs win |},
     Some (Api.init (api_key win) (api_secret win))).

(** The slot an event of the worker arrives at; the calls of the worker
    are no signals. *)
Definition deliver (e : event) (win : window) : window :=
  match e with
  | Log l => append_log (WorkerLine l) win
  | Progress current total => update_progress current total win
  | Stats c => update_stats c win
  | Finished ok m => on_finished ok m win
  | _ => win
  end.

(** The signals of a run arrive in order.  While the worker runs the two
    buttons are disabled, and the button that clears the log is not:
    [cleared_before k] says whether it is clicked before the event
    number [k] arrives. *)
Fixpoint deliver_all (cleared_before : nat -> bool) (k : nat) (events : list event)
    (win : window) : window :=
  match events with
  | [] => win
  | e :: rest =>
      let win := if cleared_before k then clear_log win else win in
      deliver_all cleared_before (S k) rest (deliver e win)
  end.

(** A click on the start button, to the end of the run it starts, in the
    world [w] of that run. *)
Definition session (w : world) (cleared_before : nat -> bool) (win : window) : window :=
  match start_update win with
  | (win', Some api) => deliver_all cleared_before 0 (run w api) win'
  | (win', None) => win'
  end.

(** What the user does with the window between runs: a disabled button
    takes no click. *)
Inductive action :=
| ClickSelect (filepath : str)
| ClickStart (w : world) (cleared_before : nat -> bool)
| ClickClear.

Definition click (win : window) (a : action) : window :=
  match a with
  | ClickSelect filepath => if select_btn win then select_file filepath win else win
  | ClickStart w cleared_before =>
      if start_btn win then session w cleared_before win else win
  | ClickClear => clear_log win
  end.

Definition clicks (actions : list action) (win : window) : window :=
  fold_left click actions win.

(** main.py: [api_key] and [api_secret] are what [os.getenv] returns.
    Without credentials the configuration error is shown and the process
    exits with 1; otherwise the window is shown. *)
Inductive started :=
| ConfigurationError
| Shown (win : window).

(** [not value], for what [os.getenv] returns. *)
Definition unset (value : option str) : bool :=
  match value with
  | None => true
  | Some text => str_eqb text []
  end.

Definition main (api_key api_secret : option str) : started :=
  match api_key, api_secret with
  | Some key, Some secret =>
      if unset api_key || unset api_secret then ConfigurationError
      else Shown (initial key secret)
  | _, _ => ConfigurationError
  end.

(** The bar after a [progress_update] signal. *)
Definition bar_step (bar : QProgressBar) (signal : nat * nat) : QProgressBar :=
  setValue (fst signal) (setMaximum (snd signal) bar).

(** The bar at its end, for a run of [total_rows] rows. *)
Definition full (total_rows : nat) : QProgressBar :=
  {| maximum := Z.of_nat total_rows; value := Z.of_nat total_rows |}.

End Window.

(* ===================================================================== *)
(** * Properties                                                          *)
(* ===================================================================== *)

Import Py Processing Api Gui Spec.

Lemma str_eqb_true (a b : str) : str_eqb a b = true <-> a = b.
Proof. unfold str_eqb. apply bool_decide_eq_true. Qed.

Lemma str_eqb_false (a b : str) : str_eqb a b = false <-> a <> b.
Proof. unfold str_eqb. apply bool_decide_eq_false. Qed.

Lemma str_eqb_refl (a : str) : str_eqb a a = true.
Proof. now apply str_eqb_true. Qed.

(** ** Rows without identifier *)

(** C8. A row whose identifier is empty or is the text of a missing value
    is passed over: the only event of the row is its progress signal (no
    call of the client, no status written) and the four counters are the
    ones before the row. *)
Theorem no_identifier_row_is_passed_over
    (w : world) (total_rows idx : nat) (r : row) (c : counters) :
  no_identifier r ->
  process_row w total_rows idx r c = ([Progress (idx + 1) total_rows], Return c).
Proof.
  unfold no_identifier, identifier, process_row.
  destruct (get_interno_and_categoria r) as [interno categoria]; simpl.
  intros [-> | ->]; reflexivity.
Qed.

Lemma no_identifier_row_is_passed_over_witness :
  let r : row := <[col_interno := lit " nan "]> ∅ in
  no_identifier r /\
  process_row silent_world 1 0 r zero_counters = ([Progress 1 1], Return zero_counters).
Proof.
  intros r. assert (H : no_identifier r) by (right; vm_compute; reflexivity).
  split; [exact H | exact (no_identifier_row_is_passed_over silent_world 1 0 r zero_counters H)].
Defined.

(** ** Rows already processed *)

Lemma lower_o (c : Z) : lower_ascii c = 111 -> upper_char c = 79.
Proof.
  unfold lower_ascii, upper_char.
  destruct (65 <=? c) eqn:A; destruct (c <=? 90) eqn:B; simpl;
    destruct (97 <=? c) eqn:C; destruct (c <=? 122) eqn:D; simpl; lia.
Qed.

Lemma lower_k (c : Z) : lower_ascii c = 107 -> upper_char c = 75.
Proof.
  unfold lower_ascii, upper_char.
  destruct (65 <=? c) eqn:A; destruct (c <=? 90) eqn:B; simpl;
    destruct (97 <=? c) eqn:C; destruct (c <=? 122) eqn:D; simpl; lia.
Qed.

Lemma upper_of_ok (s : str) :
  eq_ignoring_case s (lit "OK") = true -> upper s = lit "OK".
Proof.
  unfold eq_ignoring_case. rewrite str_eqb_true. simpl.
  destruct s as [|o [|k [|x s]]]; simpl; try discriminate.
  intros H. injection H as Ho Hk.
  now rewrite (lower_o _ Ho), (lower_k _ Hk).
Qed.

(** C5. A row that has an identifier and whose status, trimmed and
    whatever its case, is [OK] is counted as already processed and nothing
    else: the events of the row are its progress signal, the counters
    before, a log line and the counters after, with no call of the client
    between them, and only the already-processed counter has moved, by
    one, when the loop goes on to the next row. *)
Theorem ok_row_is_already_processed
    (w : world) (total_rows idx : nat) (r : row) (c : counters) :
  identifier r <> [] ->
  identifier r <> lit "nan" ->
  eq_ignoring_case (status r) (lit "OK") = true ->
  process_row w total_rows idx r c =
    ([Progress (idx + 1) total_rows;
      Stats c;
      Log (LogAlreadyProcessed (identifier r));
      Stats (incr_already_processed c)],
     Return (incr_already_processed c))
  /\ Forall (fun e => is_remote_call e = false) (fst (process_row w total_rows idx r c))
  /\ incr_already_processed c =
       {| successful := successful c; failed := failed c; skipped := skipped c;
          already_processed := S (already_processed c) |}.
Proof.
  unfold identifier, status. intros Hne Hnan Hok.
  assert (E : process_row w total_rows idx r c =
    ([Progress (idx + 1) total_rows; Stats c;
      Log (LogAlreadyProcessed (fst (get_interno_and_categoria r)));
      Stats (incr_already_processed c)], Return (incr_already_processed c))).
  { unfold process_row.
    destruct (get_interno_and_categoria r) as [interno categoria]; simpl in *.
    apply str_eqb_false in Hne, Hnan. rewrite Hne, Hnan. simpl.
    rewrite (upper_of_ok _ Hok), str_eqb_refl. reflexivity. }
  split; [exact E|]. split; [|reflexivity].
  rewrite E. simpl. repeat constructor.
Qed.

Lemma ok_row_is_already_processed_witness :
  let r : row := <[col_interno := lit "ER-1022"]> (<[col_estado := lit " ok "]> ∅) in
  identifier r <> [] /\ identifier r <> lit "nan" /\
  eq_ignoring_case (status r) (lit "OK") = true /\
  process_row silent_world 1 0 r zero_counters =
    ([Progress 1 1; Stats zero_counters; Log (LogAlreadyProcessed (lit "ER-1022"));
      Stats (incr_already_processed zero_counters)],
     Return (incr_already_processed zero_counters)).
Proof.
  intros r.
  assert (H1 : identifier r <> []) by (vm_compute; discriminate).
  assert (H2 : identifier r <> lit "nan") by (vm_compute; discriminate).
  assert (H3 : eq_ignoring_case (status r) (lit "OK") = true) by (vm_compute; reflexivity).
  split; [exact H1|]. split; [exact H2|]. split; [exact H3|].
  exact (proj1 (ok_row_is_already_processed silent_world 1 0 r zero_counters H1 H2 H3)).
Defined.

(** ** Authentication failure *)

(** C4. When [authenticate] returns false the run is over after its
    failure signal: the source is not loaded, no row is visited, the meter
    endpoints are not called, no counter is reported and the four stat
    cards still show zero. *)
Theorem authentication_failure_aborts_run (w : world) (api api' : FracttalAPI) :
  authenticate api (auth_reply w) = Return (false, api') ->
  run w api = [Log LogAuthenticating; CallAuthenticate (Return false);
               Finished false AuthenticationError]
  /\ Forall (fun e => is_row_work e = false) (run w api)
  /\ final_counters w api = None
  /\ stat_cards (run w api) = zero_counters.
Proof.
  intros H.
  assert (E : run_body w api =
    ([Log LogAuthenticating; CallAuthenticate (Return false);
      Finished false AuthenticationError], Return None)).
  { unfold run_body, api_authenticate. rewrite H. reflexivity. }
  unfold run, final_counters. rewrite E.
  split; [reflexivity|]. split; [repeat constructor|]. split; reflexivity.
Qed.

Lemma authentication_failure_aborts_run_witness :
  let api := init (lit "key") (lit "secret") in
  authenticate api (auth_reply silent_world) = Return (false, api) /\
  run silent_world api = [Log LogAuthenticating; CallAuthenticate (Return false);
                          Finished false AuthenticationError].
Proof.
  intros api.
  assert (H : authenticate api (auth_reply silent_world) = Return (false, api))
    by reflexivity.
  split; [exact H|].
  exact (proj1 (authentication_failure_aborts_run silent_world api api H)).
Defined.

(** ** Writing the status *)

Ltac all_unmarked := unfold no_mark; simpl; repeat constructor.

Lemma no_mark_not_in (ev : list event) (j : nat) (s : str) :
  no_mark ev -> ~ In (CallMarkStatus j s) ev.
Proof.
  intros H Hin. unfold no_mark in H. rewrite List.Forall_forall in H.
  specialize (H _ Hin). discriminate.
Qed.

Section StatusWrites.

(** The row of each index. *)
Variable rows_at : nat -> option row.

Lemma written_no_mark lo hi ev :
  no_mark ev -> written_after_success rows_at lo hi ev.
Proof.
  intros H pre j s post E. exfalso.
  apply (no_mark_not_in ev j s H). rewrite E. apply in_elt.
Qed.

Lemma written_in_range lo hi ev j s :
  written_after_success rows_at lo hi ev ->
  In (CallMarkStatus j s) ev -> (lo <= j < hi)%nat.
Proof.
  intros H Hin. destruct (in_split _ _ Hin) as (l1 & l2 & E).
  destruct (H _ _ _ _ E) as (_ & Hr & _). exact Hr.
Qed.

Lemma written_app lo mid hi a b :
  (lo <= mid <= hi)%nat ->
  written_after_success rows_at lo mid a ->
  written_after_success rows_at mid hi b ->
  written_after_success rows_at lo hi (a ++ b).
Proof.
  intros Hm Ha Hb pre j s post E.
  apply app_eq_app in E. destruct E as [l [[E1 E2] | [E1 E2]]].
  - (* the write is in [a], or is the first event of [b] *)
    symmetry in E2.
    destruct l as [|x l].
    + simpl in E2. rewrite app_nil_r in E1. subst pre.
      destruct (Hb [] j s post E2) as (_ & _ & (r & pre' & v & m & _ & Hp) & _).
      destruct pre'; discriminate.
    + simpl in E2. injection E2 as -> E2. subst post.
      destruct (Ha pre j s l E1) as (Hs & Hr & Hp & Hpre & Hpost).
      split; [exact Hs|]. split; [lia|]. split; [exact Hp|]. split; [exact Hpre|].
      intros s' Hin. apply in_app_or in Hin. destruct Hin as [Hin | Hin].
      * exact (Hpost s' Hin).
      * pose proof (written_in_range _ _ _ _ _ Hb Hin). lia.
  - (* the write is in [b] *)
    subst pre.
    destruct (Hb l j s post E2) as (Hs & Hr & (r & pre' & v & m & Hrow & Hp) & Hpre & Hpost).
    split; [exact Hs|]. split; [lia|].
    split.
    + exists r, (a ++ pre'), v, m. split; [exact Hrow|]. rewrite Hp. now rewrite <- app_assoc.
    + split; [|exact Hpost].
      intros s' Hin. apply in_app_or in Hin. destruct Hin as [Hin | Hin].
      * pose proof (written_in_range _ _ _ _ _ Ha Hin). lia.
      * exact (Hpre s' Hin).
Qed.

(** The events of one row: no status is written, or one, at the end of a
    successful update. *)
Lemma process_row_marks (w : world) (total_rows idx : nat) (r : row) (c : counters) :
  no_mark (fst (process_row w total_rows idx r c)) \/
  exists ev0 v m,
    process_row w total_rows idx r c =
      (ev0 ++ [CallUpdateMeter (identifier r) v (Return (true, m)); Log LogUpdated;
               CallMarkStatus idx (lit "OK"); Stats (incr_successful c)],
       Return (incr_successful c))
    /\ no_mark ev0.
Proof.
  unfold process_row, identifier.
  destruct (get_interno_and_categoria r) as [interno categoria]; simpl.
  destruct (str_eqb interno [] || str_eqb interno (lit "nan")); simpl.
  { left. all_unmarked. }
  destruct (str_eqb (upper (strip (get_str r col_estado (lit "")))) (lit "OK")); simpl.
  { left. all_unmarked. }
  unfold api_get_meter_value, call.
  destruct (get_meter_value (meter_reply w idx interno)) as [contador|e]; simpl.
  2: { left. all_unmarked. }
  destruct (is_None contador); simpl.
  { left. all_unmarked. }
  unfold lift.
  destruct (calculate_value_to_add r) as [[valor unidad]|e]; simpl.
  2: { left. all_unmarked. }
  destruct (float_is_zero valor); simpl.
  { left. all_unmarked. }
  destruct (add_float contador valor) as [nuevo|e]; simpl.
  2: { left. all_unmarked. }
  unfold api_update_meter, call.
  destruct (update_meter (update_reply w idx interno nuevo)) as [[[|] m]|e] eqn:U; simpl.
  - right.
    exists [Progress (idx + 1) total_rows; Stats c; Log (LogRow interno categoria);
            CallGetMeter interno (Return contador);
            Log (LogSum contador valor nuevo unidad)], nuevo, m.
    split; [reflexivity | all_unmarked].
  - left. all_unmarked.
  - left. all_unmarked.
Qed.

Lemma written_weaken lo hi lo' hi' ev :
  (lo' <= lo)%nat -> (hi <= hi')%nat ->
  written_after_success rows_at lo hi ev ->
  written_after_success rows_at lo' hi' ev.
Proof.
  intros Hlo Hhi H pre j s post E.
  destruct (H pre j s post E) as (Hs & Hr & Hrest).
  split; [exact Hs|]. split; [lia | exact Hrest].
Qed.

Lemma process_row_written (w : world) (total_rows idx : nat) (r : row)
    (c : counters) :
  rows_at idx = Some r ->
  written_after_success rows_at idx (S idx) (fst (process_row w total_rows idx r c)).
Proof.
  intros Hr.
  destruct (process_row_marks w total_rows idx r c) as [H | (ev0 & v & m & E & H0)].
  { now apply written_no_mark. }
  rewrite E. simpl. intros pre j s post Eq.
  apply app_eq_app in Eq. destruct Eq as [l [[E1 E2] | [E1 E2]]].
  - destruct l as [|x l]; simpl in E2; [discriminate|].
    injection E2 as <- _. exfalso.
    apply (no_mark_not_in ev0 j s H0). rewrite E1. apply in_elt.
  - destruct l as [|x1 [|x2 [|x3 [|x4 l]]]]; simpl in E2; try discriminate.
    + injection E2 as <- <- E3 E4. inversion E3; subst.
      split; [reflexivity|]. split; [lia|]. split.
      * exists r, ev0, v, m. split; [exact Hr | reflexivity].
      * split.
        -- intros s' Hin. apply in_app_or in Hin. destruct Hin as [Hin | Hin].
           ++ exact (no_mark_not_in ev0 j s' H0 Hin).
           ++ simpl in Hin. destruct Hin as [Hin | [Hin | []]]; discriminate.
        -- intros s' Hin. simpl in Hin. destruct Hin as [Hin | []]. discriminate.
    + injection E2 as _ _ _ E5. destruct l; discriminate.
Qed.

Lemma iterrows_written (w : world) (total_rows : nat) :
  forall (rows : list row) (idx : nat) (c : counters),
    (forall k, nth_error rows k = rows_at (idx + k)%nat) ->
    written_after_success rows_at idx (idx + length rows)
      (fst (iterrows w total_rows idx rows c)).
Proof.
  induction rows as [|r rest IH]; intros idx c Hrows.
  { apply written_no_mark. constructor. }
  simpl iterrows.
  assert (Hr : rows_at idx = Some r).
  { specialize (Hrows 0%nat). simpl in Hrows. now rewrite Nat.add_0_r in Hrows. }
  pose proof (process_row_written w total_rows idx r c Hr) as H1.
  unfold bindM. destruct (process_row w total_rows idx r c) as [ev [c'|e]]; simpl in *.
  - assert (H2 : written_after_success rows_at (S idx) (S idx + length rest)
                   (fst (iterrows w total_rows (S idx) rest c'))).
    { apply IH. intros k. specialize (Hrows (S k)). simpl in Hrows.
      rewrite Hrows. f_equal. lia. }
    destruct (iterrows w total_rows (S idx) rest c') as [ev' res]; simpl in *.
    replace (idx + S (length rest))%nat with (S idx + length rest)%nat by lia.
    apply (written_app idx (S idx)); [lia | exact H1 | exact H2].
  - apply (written_weaken idx (S idx)); [lia | lia | exact H1].
Qed.

End StatusWrites.

Lemma run_written (w : world) (api : FracttalAPI) :
  exists hi, written_after_success (row_at w) 0 hi (run w api).
Proof.
  unfold run, run_body, api_authenticate, call, load_excel, call.
  destruct (authenticate api (auth_reply w)) as [[[|] api']|e]; simpl.
  2: { exists 0%nat. apply written_no_mark. all_unmarked. }
  2: { exists 0%nat. apply written_no_mark. all_unmarked. }
  destruct (report w) as [rows|e] eqn:R; simpl.
  2: { exists 0%nat. apply written_no_mark. all_unmarked. }
  pose proof (iterrows_written (row_at w) w (length rows) rows 0 zero_counters) as H.
  assert (Hrows : forall k, nth_error rows k = row_at w (0 + k)).
  { intros k. unfold row_at. now rewrite R. }
  specialize (H Hrows). simpl in H.
  exists (length rows).
  destruct (iterrows w (length rows) 0 rows zero_counters) as [ev [c|e]]; simpl in *.
  - change (written_after_success (row_at w) 0 (length rows)
      ([Log LogAuthenticating; CallAuthenticate (Return true); Log LogAuthenticated;
        Log LogLoading; CallLoadExcel; Log (LogLoaded (length rows))]
       ++ (ev ++ [Log LogBlank; Log LogRule; Log (LogSummary c);
                  Finished true (Completed (successful c) (failed c))]))).
    apply (written_app _ 0 0); [lia | apply written_no_mark; all_unmarked |].
    apply (written_app _ 0 (length rows)); [lia | exact H |].
    apply written_no_mark; all_unmarked.
  - change (written_after_success (row_at w) 0 (length rows)
      ([Log LogAuthenticating; CallAuthenticate (Return true); Log LogAuthenticated;
        Log LogLoading; CallLoadExcel; Log (LogLoaded (length rows))]
       ++ (ev ++ [Log (LogError e); Finished false (Failure e)]))).
    apply (written_app _ 0 0); [lia | apply written_no_mark; all_unmarked |].
    apply (written_app _ 0 (length rows)); [lia | exact H |].
    apply written_no_mark; all_unmarked.
Qed.

(** C1. Wherever a run writes a status, it writes [OK] for a row [j] of
    the report, the two events just before are the successful return of
    [update_meter] for the identifier of that row and the line that
    reports it, and no status is written for row [j] anywhere else in the
    run, before or after.  Within one row, a status is written only on
    the path that counts the row as successful: after a failed update, or
    when the row is passed over, already processed, without meter or
    skipped, nothing is written. *)
Theorem status_written_once_after_success (w : world) (api : FracttalAPI) :
  (forall pre j s post,
      run w api = pre ++ CallMarkStatus j s :: post ->
      s = lit "OK" /\
      (exists r pre' v m,
          row_at w j = Some r /\
          pre = pre' ++ [CallUpdateMeter (identifier r) v (Return (true, m));
                         Log LogUpdated]) /\
      (forall s', ~ In (CallMarkStatus j s') pre) /\
      (forall s', ~ In (CallMarkStatus j s') post))
  /\
  (forall total_rows idx r c j s,
      In (CallMarkStatus j s) (fst (process_row w total_rows idx r c)) ->
      snd (process_row w total_rows idx r c) = Return (incr_successful c) /\
      exists v m, In (CallUpdateMeter (identifier r) v (Return (true, m)))
                     (fst (process_row w total_rows idx r c))).
Proof.
  split.
  - intros pre j s post E.
    destruct (run_written w api) as [hi H].
    destruct (H pre j s post E) as (Hs & _ & Hp & Hpre & Hpost).
    repeat split; assumption.
  - intros total_rows idx r c j s Hin.
    destruct (process_row_marks w total_rows idx r c) as [H | (ev0 & v & m & E & H0)].
    + exfalso. exact (no_mark_not_in _ j s H Hin).
    + rewrite E. simpl. split; [reflexivity|].
      exists v, m. apply in_or_app. right. left. reflexivity.
Qed.

Lemma status_written_once_after_success_witness :
  let w := steady_world [vehicle_row "ER-1022" "Camiones" "50"] (JInt 1000) in
  let api := init (lit "key") (lit "secret") in
  let pre' := [Log LogAuthenticating; CallAuthenticate (Return true);
               Log LogAuthenticated; Log LogLoading; CallLoadExcel; Log (LogLoaded 1);
               Progress 1 1; Stats zero_counters;
               Log (LogRow (lit "ER-1022") (lit "Camiones"));
               CallGetMeter (lit "ER-1022") (Return (JInt 1000));
               Log (LogSum (JInt 1000) (round_Z 50) (round_Z 1050) (lit "Km"))] in
  let pre := pre' ++ [CallUpdateMeter (lit "ER-1022") (round_Z 1050)
                        (Return (true, MsgUpdated)); Log LogUpdated] in
  let post := [Stats (incr_successful zero_counters); Log LogBlank; Log LogRule;
               Log (LogSummary (incr_successful zero_counters));
               Finished true (Completed 1 0)] in
  run w api = pre ++ CallMarkStatus 0 (lit "OK") :: post /\
  (forall s', ~ In (CallMarkStatus 0 s') pre) /\
  (forall s', ~ In (CallMarkStatus 0 s') post).
Proof.
  intros w api pre' pre post.
  assert (E : run w api = pre ++ CallMarkStatus 0 (lit "OK") :: post)
    by (vm_compute; reflexivity).
  split; [exact E|].
  exact (proj2 (proj2 (proj1 (status_written_once_after_success w api) pre 0%nat (lit "OK") post E))).
Defined.

(** ** The value calculator *)

Lemma float_of_str_raises (s : str) (e : exn) :
  float_of_str s = Raise e -> e = ValueError.
Proof.
  unfold float_of_str.
  destruct (drop_underscores 0 (to_ascii s)) as [t|]; [|congruence].
  destruct (parse_float_body (c_strip t)); congruence.
Qed.

Lemma int_of_str_raises (s : str) (e : exn) :
  int_of_str s = Raise e -> e = ValueError.
Proof.
  unfold int_of_str.
  destruct (take_sign (skip_c_space (to_ascii s))) as [neg body].
  destruct body as [|c body]; [congruence|].
  destruct (is_digit c); [|congruence].
  destruct (span_int_digits false (c :: body)) as [[d rest]|]; [|congruence].
  destruct (negb (length d <=? int_max_str_digits)%nat); [congruence|].
  destruct (skip_c_space rest); congruence.
Qed.

Lemma split_cut_none (t : str) : cut colon t = None -> split colon t = [t].
Proof.
  induction t as [|c t IH]; simpl; [reflexivity|].
  destruct (c =? colon); [discriminate|].
  destruct (cut colon t) as [[a b]|]; [discriminate|].
  intros _. now rewrite IH.
Qed.

Lemma split_cut_some (t h rest : str) :
  cut colon t = Some (h, rest) -> split colon t = h :: split colon rest.
Proof.
  revert h. induction t as [|c t IH]; simpl; intros h; [discriminate|].
  destruct (c =? colon).
  - intros E. now injection E as <- <-.
  - destruct (cut colon t) as [[a b]|]; [|discriminate].
    intros E. injection E as <- <-. now rewrite (IH a eq_refl).
Qed.

Lemma split_head (t : str) :
  exists ps, split colon t =
    match cut colon t with Some (mm, _) => mm | None => t end :: ps.
Proof.
  destruct (cut colon t) as [[a b]|] eqn:E.
  - exists (split colon b). now apply split_cut_some.
  - exists []. now apply split_cut_none.
Qed.

Lemma in_range_conversions (h m : Z) :
  within_double_range h m = true ->
  float_of_int h = Return (round_Z h) /\ int_truediv m 60 = Return (sixtieth m).
Proof.
  unfold within_double_range, float_of_int, int_truediv, sixtieth.
  intros H. apply andb_prop in H. destruct H as [Hh Hm].
  apply negb_true_iff in Hh. rewrite Hh. split; [reflexivity|].
  change (60 =? 0) with false. cbv iota.
  destruct (m =? 0); [reflexivity|].
  apply negb_true_iff in Hm. now rewrite Hm.
Qed.

Lemma hours_in_range (h m : Z) :
  within_double_range h m = true ->
  bind (int_truediv m 60) (fun q => int_add_float h q) = Return (decimal_hours h m).
Proof.
  intros H. destruct (in_range_conversions h m H) as [Hh Hm].
  rewrite Hm. simpl. unfold int_add_float. rewrite Hh. reflexivity.
Qed.

Lemma hours_of_parts_split (t : str) :
  hours_of_parts (split colon t) =
    bind (int_of_str (fst (time_fields t))) (fun horas =>
    bind (match snd (time_fields t) with
          | Some mm => int_of_str mm
          | None => Return 0
          end) (fun minutos =>
    bind (int_truediv minutos 60) (fun q => int_add_float horas q))).
Proof.
  unfold time_fields, hours_of_parts.
  destruct (cut colon t) as [[h rest]|] eqn:E.
  - rewrite (split_cut_some _ _ _ E).
    destruct (split_head rest) as [ps ->]. reflexivity.
  - rewrite (split_cut_none _ E). reflexivity.
Qed.

Lemma time_branch (t : str) :
  (forall h m, parse_hours_minutes t = Some (h, m) -> within_double_range h m = true) ->
  try_except
    (bind (hours_of_parts (split colon t)) (fun horas => Return (horas, lit "Horas")))
    caught_by_time_parser
    (fun _ => Return (fzero, lit "Horas"))
  = Return (match parse_hours_minutes t with
            | Some (h, m) => decimal_hours h m
            | None => fzero
            end, lit "Horas").
Proof.
  intros Hrange. rewrite hours_of_parts_split.
  unfold parse_hours_minutes, parse_int in *.
  destruct (time_fields t) as [h mm]; simpl fst; simpl snd.
  destruct (int_of_str h) as [horas|e] eqn:Eh.
  2: { rewrite (int_of_str_raises _ _ Eh). reflexivity. }
  destruct mm as [mm|].
  - destruct (int_of_str mm) as [minutos|e] eqn:Em.
    2: { rewrite (int_of_str_raises _ _ Em). reflexivity. }
    cbn [bind]. rewrite (hours_in_range horas minutos (Hrange _ _ eq_refl)). reflexivity.
  - cbn [bind]. rewrite (hours_in_range horas 0 (Hrange _ _ eq_refl)). reflexivity.
Qed.

Lemma km_branch (text : str) :
  try_except
    (bind (float_of_str (replace comma point text)) (fun valor => Return (valor, lit "Km")))
    caught_by_km_parser
    (fun _ => Return (fzero, lit "Km"))
  = Return (match float_of_distance text with Some d => d | None => fzero end, lit "Km").
Proof.
  unfold float_of_distance.
  destruct (float_of_str (replace comma point text)) as [x|e] eqn:E; [reflexivity|].
  rewrite (float_of_str_raises _ _ E). reflexivity.
Qed.

(** *** Decimal strings *)

Lemma span_digits_app (s : str) :
  forall d r, span_digits s = (d, r) ->
    s = d ++ r /\ Forall (fun c => is_digit c = true) d /\
    match r with c :: _ => is_digit c = false | [] => True end.
Proof.
  induction s as [|c s IH]; intros d r; cbn.
  { intros E. injection E as <- <-. repeat split; constructor. }
  destruct (is_digit c) eqn:Hc.
  - destruct (span_digits s) as [d' r'].
    intros E. injection E as <- <-.
    destruct (IH d' r' eq_refl) as (-> & Hd & Hr).
    repeat split; [constructor; assumption | exact Hr].
  - intros E. injection E as <- <-. repeat split; [constructor | exact Hc].
Qed.

Lemma span_digits_of_digits (d r : str) :
  Forall (fun c => is_digit c = true) d ->
  match r with c :: _ => is_digit c = false | [] => True end ->
  span_digits (d ++ r) = (d, r).
Proof.
  intros Hd Hr. induction Hd as [|c d Hc _ IH]; cbn.
  - destruct r as [|c r]; [reflexivity|]. cbn. now rewrite Hr.
  - now rewrite Hc, IH.
Qed.

Lemma is_digit_bounds (c : Z) : is_digit c = true -> 48 <= c <= 57.
Proof. unfold is_digit. intros H. apply andb_prop in H. lia. Qed.

Lemma number_char_bounds (c : Z) : number_char c -> 43 <= c <= 101 /\ c <> 95 /\ c <> 44.
Proof.
  intros [H | H]; [apply is_digit_bounds in H; lia|].
  cbn in H. lia.
Qed.

Lemma number_char_to_ascii (s : str) : Forall number_char s -> to_ascii s = s.
Proof.
  induction 1 as [|c s Hc _ IH]; [reflexivity|].
  unfold to_ascii in *. cbn [map]. rewrite IH. f_equal. unfold to_ascii_char.
  replace (c <? 127) with true; [reflexivity|].
  symmetry. apply Z.ltb_lt. apply number_char_bounds in Hc. lia.
Qed.

Lemma number_char_drop_underscores (s : str) :
  Forall number_char s -> forall prev, prev <> 95 -> drop_underscores prev s = Some s.
Proof.
  induction 1 as [|c s Hc _ IH]; intros prev Hp; cbn.
  { apply Z.eqb_neq in Hp. now rewrite Hp. }
  assert (Hc95 : c <> 95) by (apply number_char_bounds in Hc; tauto).
  apply Z.eqb_neq in Hp. rewrite Hp. cbn [andb].
  rewrite (proj2 (Z.eqb_neq c 95) Hc95), (IH c Hc95). reflexivity.
Qed.

Lemma number_char_not_space (c : Z) : number_char c -> c_isspace c = false.
Proof.
  unfold c_isspace. intros H. apply number_char_bounds in H.
  replace (c <=? 13) with false by (symmetry; apply Z.leb_gt; lia).
  replace (c =? 32) with false by (symmetry; apply Z.eqb_neq; lia).
  now rewrite andb_false_r.
Qed.

Lemma number_char_skip_c_space (s : str) : Forall number_char s -> skip_c_space s = s.
Proof.
  intros [|c s' Hc _]; [reflexivity|]. cbn. now rewrite (number_char_not_space c Hc).
Qed.

Lemma number_char_c_strip (s : str) : Forall number_char s -> c_strip s = s.
Proof.
  intros H. unfold c_strip. rewrite (number_char_skip_c_space s H).
  rewrite number_char_skip_c_space; [apply rev_involutive|].
  apply Forall_rev. exact H.
Qed.

Lemma digit_is_no_name (c : Z) (t : str) (name : string) :
  is_digit c = true ->
  match lit name with x :: _ => (97 <=? x) = true | [] => True end ->
  str_eqb (map lower_ascii (c :: t)) (lit name) = false.
Proof.
  intros Hc Hn. unfold str_eqb. apply bool_decide_eq_false. intros E.
  destruct (lit name) as [|x rest]; [discriminate|].
  cbn in E. injection E as E _. apply is_digit_bounds in Hc.
  apply Z.leb_le in Hn. unfold lower_ascii in E.
  destruct ((65 <=? c) && (c <=? 90)) eqn:Hl; [|lia].
  apply andb_prop in Hl. lia.
Qed.

Lemma replace_digits (d : str) :
  Forall (fun c => is_digit c = true) d -> replace comma point d = d.
Proof.
  induction 1 as [|c d Hc _ IH]; [reflexivity|].
  unfold replace in *. cbn. rewrite IH. f_equal.
  apply is_digit_bounds in Hc.
  replace (c =? comma) with false; [reflexivity|].
  symmetry. apply Z.eqb_neq. unfold comma. lia.
Qed.

Lemma digits_are_number_char (d : str) :
  Forall (fun c => is_digit c = true) d -> Forall number_char d.
Proof. intros H. eapply List.Forall_impl; [|exact H]. intros c Hc. now left. Qed.

(** What [float] reads in a number without sign: digits, or digits, a
    point and digits. *)
Lemma parse_decimal_of_digits (neg : bool) (w f : str) :
  Forall (fun c => is_digit c = true) w ->
  Forall (fun c => is_digit c = true) f ->
  w <> [] ->
  parse_decimal neg (w ++ match f with [] => [] | _ :: _ => point :: f end)
  = Some (decimal_value {| negative := neg; whole := w; fraction := f |}).
Proof.
  intros Hw Hf Hne. unfold parse_decimal, decimal_value.
  cbn [negative whole fraction].
  destruct f as [|c f].
  - rewrite (span_digits_of_digits w [] Hw I). rewrite !app_nil_r.
    destruct w as [|c w]; [contradiction|]. cbn [app parse_exponent length].
    unfold decimal_to_float. change (0 - Z.of_nat 0) with 0.
    destruct (digits_value (c :: w) =? 0); [reflexivity|].
    change (0 <=? 0) with true. cbv iota. change (10 ^ 0) with 1.
    now rewrite Z.mul_1_r.
  - rewrite (span_digits_of_digits w (point :: c :: f) Hw eq_refl).
    unfold point at 1.
    pose proof (span_digits_of_digits (c :: f) [] Hf I) as E.
    rewrite app_nil_r in E. rewrite E.
    destruct w as [|c0 w]; [contradiction|]. cbn [app parse_exponent].
    unfold decimal_to_float.
    destruct (digits_value (c0 :: w ++ c :: f) =? 0); [reflexivity|].
    replace (0 <=? 0 - Z.of_nat (length (c :: f))) with false
      by (symmetry; apply Z.leb_gt; cbn [length]; lia).
    replace (- (0 - Z.of_nat (length (c :: f)))) with (Z.of_nat (length (c :: f))) by lia.
    reflexivity.
Qed.

(** A decimal string is read by the code as the number it writes. *)
Lemma float_of_decimal_string (text : str) (d : decimal) :
  decimal_string text = Some d ->
  float_of_str (replace comma point text) = Return (decimal_value d).
Proof.
  unfold decimal_string.
  destruct (take_sign text) as [neg t] eqn:Hsign.
  destruct (span_digits t) as [w r] eqn:Hspan.
  destruct (span_digits_app t w r Hspan) as (-> & Hw & Hr).
  destruct w as [|c0 w0]; [discriminate|].
  set (w := c0 :: w0) in *.
  intros Hd.
  assert (Hshape : exists f,
             Forall (fun c => is_digit c = true) f /\
             d = {| negative := neg; whole := w; fraction := f |} /\
             replace comma point (w ++ r)
             = w ++ match f with [] => [] | _ :: _ => point :: f end).
  { destruct r as [|c t'].
    - injection Hd as <-. exists []. split; [constructor|]. split; [reflexivity|].
      rewrite !app_nil_r. now apply replace_digits.
    - destruct (is_separator c) eqn:Hsep; [|discriminate].
      destruct (span_digits t') as [f r'] eqn:Hf.
      destruct (span_digits_app t' f r' Hf) as (-> & Hfd & _).
      destruct f as [|cf f]; [discriminate|].
      destruct r' as [|? ?]; [|discriminate].
      injection Hd as <-. exists (cf :: f). split; [exact Hfd|].
      split; [reflexivity|].
      rewrite app_nil_r.
      assert (Hr' : replace comma point (w ++ c :: cf :: f)
                    = replace comma point w
                        ++ (if c =? comma then point else c) :: replace comma point (cf :: f))
        by (unfold replace; rewrite map_app; reflexivity).
      rewrite Hr', (replace_digits w Hw), (replace_digits (cf :: f) Hfd). do 2 f_equal.
      unfold is_separator in Hsep. destruct (c =? comma) eqn:Hc; [reflexivity|].
      cbn [orb] in Hsep. now apply Z.eqb_eq in Hsep. }
  destruct Hshape as (f & Hfd & -> & Hrep).
  set (u := w ++ match f with [] => [] | _ :: _ => point :: f end) in *.
  assert (Hu : Forall number_char u).
  { subst u. apply Forall_app. split; [now apply digits_are_number_char|].
    destruct f; [constructor|]. constructor; [right; cbn; tauto|].
    now apply digits_are_number_char. }
  assert (Hc0 : is_digit c0 = true) by now inversion Hw.
  assert (Hnosign : take_sign u = (false, u)).
  { subst u w. cbn [app]. apply is_digit_bounds in Hc0. unfold take_sign.
    destruct c0 as [|p|p]; try lia.
    do 6 (destruct p as [p|p|]; try reflexivity; try lia). }
  assert (Hread : forall sgn,
             Forall number_char sgn -> take_sign (sgn ++ u) = (neg, u) ->
             float_of_str (sgn ++ u)
             = Return (decimal_value {| negative := neg; whole := w; fraction := f |})).
  { intros sgn Hs Ht. unfold float_of_str.
    assert (Hall : Forall number_char (sgn ++ u)) by (apply Forall_app; now split).
    rewrite (number_char_to_ascii _ Hall), (number_char_drop_underscores _ Hall 0) by lia.
    rewrite (number_char_c_strip _ Hall). unfold parse_float_body. rewrite Ht.
    subst u w. cbn [app].
    rewrite (digit_is_no_name c0 _ "inf" Hc0 eq_refl),
            (digit_is_no_name c0 _ "infinity" Hc0 eq_refl),
            (digit_is_no_name c0 _ "nan" Hc0 eq_refl).
    cbn [orb].
    assert (Hne : c0 :: w0 <> []) by discriminate.
    pose proof (parse_decimal_of_digits neg (c0 :: w0) f Hw Hfd Hne) as Hp.
    cbn [app] in Hp. rewrite Hp. reflexivity. }
  assert (Hcons : forall c l, replace comma point (c :: l)
                              = (if c =? comma then point else c) :: replace comma point l)
    by reflexivity.
  subst w. unfold take_sign in Hsign.
  destruct text as [|c text]; [injection Hsign as <- E; discriminate|].
  destruct (Z.eq_dec c 45) as [->|H45].
  { injection Hsign as Hn Ht. subst neg.
    assert (Hrep' : replace comma point text = u) by (rewrite Ht; exact Hrep).
    rewrite Hcons, Hrep'.
    apply (Hread [45]); [repeat constructor; right; cbn; tauto | reflexivity]. }
  destruct (Z.eq_dec c 43) as [->|H43].
  { injection Hsign as Hn Ht. subst neg.
    assert (Hrep' : replace comma point text = u) by (rewrite Ht; exact Hrep).
    rewrite Hcons, Hrep'.
    apply (Hread [43]); [repeat constructor; right; cbn; tauto | reflexivity]. }
  assert (Hnumber_char : (neg, (c0 :: w0) ++ r) = (false, c :: text)).
  { etransitivity; [symmetry; exact Hsign|]. destruct c as [|p|p]; try reflexivity.
    do 6 (destruct p as [p|p|]; try reflexivity); contradiction. }
  pose proof (f_equal fst Hnumber_char) as Hn. pose proof (f_equal snd Hnumber_char) as E.
  cbn [fst snd] in Hn, E. subst neg.
  assert (Hrep' : replace comma point (c :: text) = u) by (rewrite <- E; exact Hrep).
  rewrite Hrep'.
  apply (Hread []); [constructor | exact Hnosign].
Qed.

(** *** Texts that are not numbers *)

Lemma other_letter_facts (c : Z) :
  is_other_letter c = true ->
  65 <= c <= 122 /\ ~ number_char c /\ c_isspace c = false /\ c <> 95 /\ c <> 44
  /\ ~ In (lower_ascii c) [97; 101; 102; 105; 110; 116; 121].
Proof.
  unfold is_other_letter. cbn [existsb]. intros H.
  apply andb_prop in H. destruct H as [H Hn]. apply andb_prop in H. destruct H as [H1 H2].
  apply Z.leb_le in H1, H2. apply negb_true_iff in Hn.
  repeat (apply orb_false_elim in Hn; destruct Hn as [?E Hn]).
  repeat match goal with E : (_ =? _) = false |- _ => apply Z.eqb_neq in E end.
  assert (Hl : lower_ascii c = c \/ lower_ascii c = c + 32 /\ 65 <= c <= 90).
  { unfold lower_ascii. destruct ((65 <=? c) && (c <=? 90)) eqn:Hc; [|now left].
    apply andb_prop in Hc. right. lia. }
  assert (Hc : 65 <= c <= 122) by lia.
  split; [exact Hc|]. split.
  { intros [Hd | Hd]; [apply is_digit_bounds in Hd; lia|]. cbn in Hd. lia. }
  split.
  { unfold c_isspace.
    replace (c <=? 13) with false by (symmetry; apply Z.leb_gt; lia).
    replace (c =? 32) with false by (symmetry; apply Z.eqb_neq; lia).
    now rewrite andb_false_r. }
  split; [lia|]. split; [lia|].
  cbn [In]. intros Hin. decompose [or] Hin; try congruence; contradiction.
Qed.

Lemma to_ascii_keeps (c : Z) (s : str) : In c s -> c < 127 -> In c (to_ascii s).
Proof.
  intros Hin Hc. unfold to_ascii. apply in_map_iff. exists c. split; [|exact Hin].
  unfold to_ascii_char. now rewrite (proj2 (Z.ltb_lt c 127) Hc).
Qed.

Lemma drop_underscores_keeps (c : Z) (s : str) :
  c <> 95 ->
  forall prev t, drop_underscores prev s = Some t -> In c s -> In c t.
Proof.
  intros Hc. induction s as [|x s IH]; intros prev t; cbn; [tauto|].
  destruct (x =? 95) eqn:Hx.
  - apply Z.eqb_eq in Hx.
    destruct (is_digit prev); [|discriminate].
    intros E [Hxc | Hin]; [exfalso; apply Hc; rewrite <- Hxc; exact Hx|].
    eapply IH; eassumption.
  - destruct ((prev =? 95) && negb (is_digit x)); [discriminate|].
    destruct (drop_underscores x s) as [t'|] eqn:E'; [|discriminate].
    intros E. injection E as <-. intros [-> | Hin]; [now left|].
    right. eapply IH; eauto.
Qed.

Lemma skip_c_space_keeps (c : Z) (s : str) :
  c_isspace c = false -> In c s -> In c (skip_c_space s).
Proof.
  intros Hc. induction s as [|x s IH]; [tauto|]. cbn.
  destruct (c_isspace x) eqn:Hx.
  - intros [-> | Hin]; [congruence | now apply IH].
  - intros H. exact H.
Qed.

Lemma c_strip_keeps (c : Z) (s : str) :
  c_isspace c = false -> In c s -> In c (c_strip s).
Proof.
  intros Hc Hin. unfold c_strip. apply in_rev. rewrite rev_involutive.
  apply skip_c_space_keeps; [exact Hc|]. apply in_rev. rewrite rev_involutive.
  now apply skip_c_space_keeps.
Qed.

Lemma take_sign_keeps (c : Z) (s : str) :
  c <> 43 -> c <> 45 -> In c s -> In c (snd (take_sign s)).
Proof.
  intros H43 H45. destruct s as [|x s]; [intros []|].
  intros Hin.
  destruct (Z.eq_dec x 45) as [->|Hx45]; [destruct Hin; [congruence | assumption]|].
  destruct (Z.eq_dec x 43) as [->|Hx43]; [destruct Hin; [congruence | assumption]|].
  assert (E : take_sign (x :: s) = (false, x :: s)).
  { unfold take_sign. destruct x as [|p|p]; try reflexivity.
    do 6 (destruct p as [p|p|]; try reflexivity); contradiction. }
  rewrite E. exact Hin.
Qed.

Lemma digits_are_number_chars (d : str) :
  Forall (fun c => is_digit c = true) d -> Forall number_char d.
Proof. intros H. eapply List.Forall_impl; [|exact H]. intros c Hc. now left. Qed.

Lemma parse_exponent_chars (s : str) (e : Z) :
  parse_exponent s = Some e -> Forall number_char s.
Proof.
  unfold parse_exponent. destruct s as [|c s]; [constructor|].
  destruct ((c =? 101) || (c =? 69)) eqn:Hc; [|discriminate].
  assert (Hn : number_char c).
  { right. apply orb_prop in Hc. destruct Hc as [Hc|Hc]; apply Z.eqb_eq in Hc; subst;
      cbn; tauto. }
  destruct (take_sign s) as [neg t] eqn:Ht.
  destruct (span_digits t) as [d r] eqn:Hd.
  destruct (span_digits_app t d r Hd) as (-> & Hdig & _).
  destruct d as [|x d]; [discriminate|]. destruct r as [|? ?]; [|discriminate].
  intros _. constructor; [exact Hn|]. rewrite app_nil_r in Ht.
  apply digits_are_number_chars in Hdig.
  unfold take_sign in Ht. destruct s as [|y s]; [discriminate|].
  destruct (Z.eq_dec y 45) as [->|Hy45].
  { injection Ht as _ ->. constructor; [right; cbn; tauto | exact Hdig]. }
  destruct (Z.eq_dec y 43) as [->|Hy43].
  { injection Ht as _ ->. constructor; [right; cbn; tauto | exact Hdig]. }
  assert (E : (neg, x :: d) = (false, y :: s)).
  { etransitivity; [symmetry; exact Ht|]. destruct y as [|p|p]; try reflexivity.
    do 6 (destruct p as [p|p|]; try reflexivity); contradiction. }
  pose proof (f_equal snd E) as E'. cbn [snd] in E'. rewrite <- E'. exact Hdig.
Qed.

Lemma parse_decimal_chars (neg : bool) (s : str) (x : float) :
  parse_decimal neg s = Some x -> Forall number_char s.
Proof.
  unfold parse_decimal.
  destruct (span_digits s) as [ip r] eqn:Hip.
  destruct (span_digits_app s ip r Hip) as (-> & Hi & _).
  apply digits_are_number_chars in Hi.
  assert (Hr : forall fp r', (match r with 46 :: t => span_digits t | _ => ([], r) end)
                             = (fp, r') ->
                             Forall number_char r' -> Forall number_char r).
  { intros fp r' E Hr'. destruct r as [|c t]; [injection E as <- <-; constructor|].
    destruct (Z.eq_dec c 46) as [->|Hc].
    - destruct (span_digits_app t fp r' E) as (-> & Hf & _).
      constructor; [right; cbn; tauto|]. apply Forall_app.
      split; [now apply digits_are_number_chars | exact Hr'].
    - assert (E' : (fp, r') = ([], c :: t)).
      { etransitivity; [symmetry; exact E|]. destruct c as [|p|p]; try reflexivity.
        do 6 (destruct p as [p|p|]; try reflexivity); contradiction. }
      pose proof (f_equal snd E') as E2. cbn [snd] in E2. now rewrite <- E2. }
  destruct (match r with 46 :: t => span_digits t | _ => ([], r) end) as [fp r'].
  destruct (ip ++ fp); [discriminate|].
  destruct (parse_exponent r') as [e|] eqn:He; [|discriminate].
  intros _. apply Forall_app. split; [exact Hi|].
  apply (Hr fp r' eq_refl). eapply parse_exponent_chars; eassumption.
Qed.

Lemma name_letters (name : string) (t : str) (c : Z) :
  str_eqb (map lower_ascii t) (lit name) = true ->
  In c t -> In (lower_ascii c) (lit name).
Proof.
  intros E Hin. apply str_eqb_true in E. rewrite <- E. now apply in_map.
Qed.

(** [float] makes nothing of a text with a Latin letter that no notation
    of a number has. *)
Lemma float_of_str_other_letter (s : str) (c : Z) :
  In c s -> is_other_letter c = true -> float_of_str s = Raise ValueError.
Proof.
  intros Hin Hc.
  destruct (other_letter_facts c Hc) as (Hb & Hn & Hsp & H95 & _ & Hl).
  destruct (float_of_str s) as [x|e] eqn:E.
  2: { now rewrite (float_of_str_raises _ _ E). }
  exfalso. unfold float_of_str in E.
  destruct (drop_underscores 0 (to_ascii s)) as [t|] eqn:Ht; [|discriminate].
  assert (Hu : In c (c_strip t)).
  { apply c_strip_keeps; [exact Hsp|].
    apply (drop_underscores_keeps c _ H95 _ _ Ht).
    apply to_ascii_keeps; [exact Hin | lia]. }
  unfold parse_float_body in E.
  assert (Hrest : In c (snd (take_sign (c_strip t)))).
  { apply take_sign_keeps; [| |exact Hu]; intros ->; apply Hn; right; cbn; tauto. }
  destruct (take_sign (c_strip t)) as [neg rest]. cbn [snd] in Hrest.
  destruct (str_eqb (map lower_ascii rest) (lit "inf")) eqn:E1.
  { apply Hl. pose proof (name_letters "inf" rest c E1 Hrest) as H.
    change (lit "inf") with [105; 110; 102] in H. cbn [In] in H |- *. tauto. }
  destruct (str_eqb (map lower_ascii rest) (lit "infinity")) eqn:E2.
  { apply Hl. pose proof (name_letters "infinity" rest c E2 Hrest) as H.
    change (lit "infinity") with [105; 110; 102; 105; 110; 105; 116; 121] in H.
    cbn [In] in H |- *. tauto. }
  destruct (str_eqb (map lower_ascii rest) (lit "nan")) eqn:E3.
  { apply Hl. pose proof (name_letters "nan" rest c E3 Hrest) as H.
    change (lit "nan") with [110; 97; 110] in H. cbn [In] in H |- *. tauto. }
  cbn [orb] in E.
  destruct (parse_decimal neg rest) as [y|] eqn:Ey; [|discriminate].
  apply parse_decimal_chars in Ey. rewrite List.Forall_forall in Ey.
  exact (Hn (Ey c Hrest)).
Qed.

Lemma other_letter_is_rejected (text : str) :
  has_other_letter text = true -> float_of_distance text = None.
Proof.
  unfold has_other_letter, float_of_distance. intros H.
  apply existsb_exists in H. destruct H as (c & Hin & Hc).
  destruct (other_letter_facts c Hc) as (_ & _ & _ & _ & H44 & _).
  rewrite (float_of_str_other_letter (replace comma point text) c); [reflexivity| |exact Hc].
  unfold replace. apply in_map_iff. exists c. split; [|exact Hin].
  now rewrite (proj2 (Z.eqb_neq c comma) H44).
Qed.

(** C2, with the distance and the running time read as the code reads
    them.  For the two vehicle categories [calculate_value_to_add]
    returns, with [Km], the number that a decimal string writes (an
    optional sign, digits, and optionally a comma or a point followed by
    digits), and 0 for a distance that is no decimal string and has a
    Latin letter other than a, e, f, i, n, t and y, or that [float]
    rejects for another reason; the distances that are no decimal strings
    and that [float] reads are left out.  For [Maquinarias] it returns,
    with [Horas], the hours written before the first colon plus a
    sixtieth of the minutes written between the first colon and the
    second, where no colon at all means 0 minutes, and 0 when the hours
    or the minutes are not integers; and 0 with [Desconocido] for any
    other category.  (The hours and minutes are taken within the range of
    a double.) *)
Theorem calculate_value_to_add_cases (r : row) :
  (forall h m,
      category r = lit "Maquinarias" ->
      parse_hours_minutes (running_time r) = Some (h, m) ->
      within_double_range h m = true) ->
  (category r = lit "Flota Liviana" \/ category r = lit "Camiones" ->
   decimal_string (distance r) = None ->
   has_other_letter (distance r) = true \/ float_of_distance (distance r) = None) ->
  calculate_value_to_add r = Return (value_by_cases r).
Proof.
  intros Hrange Hkm.
  unfold calculate_value_to_add, value_by_cases,
    category, distance, running_time in *.
  set (categoria := strip (get_str r col_categoria (lit ""))) in *.
  destruct (str_eqb categoria (lit "Flota Liviana") || str_eqb categoria (lit "Camiones"))
    eqn:Hv.
  { rewrite km_branch.
    destruct (decimal_string (get_str r col_km (lit "0"))) as [d|] eqn:Hd.
    - unfold float_of_distance. now rewrite (float_of_decimal_string _ d Hd).
    - assert (Hcat : categoria = lit "Flota Liviana" \/ categoria = lit "Camiones").
      { apply orb_prop in Hv. destruct Hv as [H|H]; apply str_eqb_true in H; tauto. }
      destruct (Hkm Hcat eq_refl) as [Hl | Hf].
      + now rewrite (other_letter_is_rejected _ Hl).
      + now rewrite Hf. }
  destruct (str_eqb categoria (lit "Maquinarias")) eqn:Em; [|reflexivity].
  apply str_eqb_true in Em.
  apply time_branch. intros h m. now apply Hrange.
Qed.

Lemma calculate_value_to_add_cases_witness :
  let r := vehicle_row "ER-1022" "Camiones" "abc" in
  (forall h m,
      category r = lit "Maquinarias" ->
      parse_hours_minutes (running_time r) = Some (h, m) ->
      within_double_range h m = true) /\
  (category r = lit "Flota Liviana" \/ category r = lit "Camiones" ->
   decimal_string (distance r) = None ->
   has_other_letter (distance r) = true \/ float_of_distance (distance r) = None) /\
  calculate_value_to_add r = Return (fzero, lit "Km").
Proof.
  intros r.
  assert (H1 : forall h m,
      category r = lit "Maquinarias" ->
      parse_hours_minutes (running_time r) = Some (h, m) ->
      within_double_range h m = true).
  { intros h m E. vm_compute in E. discriminate. }
  assert (H2 : category r = lit "Flota Liviana" \/ category r = lit "Camiones" ->
               decimal_string (distance r) = None ->
               has_other_letter (distance r) = true
               \/ float_of_distance (distance r) = None).
  { intros _ _. left. vm_compute. reflexivity. }
  split; [exact H1|]. split; [exact H2|].
  exact (calculate_value_to_add_cases r H1 H2).
Defined.

(** C2 does not hold as it is stated: a running time without colon is
    not read as malformed; its hours count. *)
Lemma calculate_value_to_add_differs_from_spec :
  calculate_value_to_add row_hours_only = Return (round_Z 5, lit "Horas") /\
  spec_calculate_value_to_add row_hours_only = (fzero, lit "Horas") /\
  calculate_value_to_add row_hours_only
    <> Return (spec_calculate_value_to_add row_hours_only).
Proof.
  assert (A : calculate_value_to_add row_hours_only = Return (round_Z 5, lit "Horas"))
    by (vm_compute; reflexivity).
  assert (B : spec_calculate_value_to_add row_hours_only = (fzero, lit "Horas"))
    by (vm_compute; reflexivity).
  split; [exact A|]. split; [exact B|].
  rewrite A, B. vm_compute. discriminate.
Qed.

(** The examples of the specification: times, distances (a double is
    written here as the quotient it is equal to), and a truck at 1000 km
    that ran 50 more. *)
Lemma calculator_examples :
  calculate_value_to_add (machine_row "EX-7" "2:30") = Return (round_quotient 5 2, lit "Horas") /\
  calculate_value_to_add (machine_row "EX-7" "1:45") = Return (round_quotient 7 4, lit "Horas") /\
  calculate_value_to_add (machine_row "EX-7" "0:00") = Return (fzero, lit "Horas") /\
  calculate_value_to_add (machine_row "EX-7" "abc") = Return (fzero, lit "Horas") /\
  calculate_value_to_add (<[col_categoria := lit "Maquinarias"]> ∅)
    = Return (fzero, lit "Horas") /\
  calculate_value_to_add (vehicle_row "ER-1022" "Camiones" "123,5")
    = Return (round_quotient 247 2, lit "Km") /\
  calculate_value_to_add (vehicle_row "ER-1022" "Flota Liviana" "123.5")
    = Return (round_quotient 247 2, lit "Km") /\
  calculate_value_to_add (vehicle_row "ER-1022" "Camiones" "abc") = Return (fzero, lit "Km") /\
  add_float (JInt 1000) (round_Z 50) = Return (round_Z 1050) /\
  add_float (JFloat (round_Z 500)) (round_quotient 7 4) = Return (round_quotient 2007 4).
Proof. repeat split; vm_compute; reflexivity. Qed.

(** C7. On a running time whose hours are beyond the range of a double
    [calculate_value_to_add] raises [OverflowError], which neither of its
    handlers catches, and the run that meets the row ends there. *)
Theorem calculate_value_to_add_raises_on_huge_hours :
  calculate_value_to_add row_huge_hours = Raise OverflowError /\
  run (steady_world [row_huge_hours; vehicle_row "ER-1022" "Camiones" "50"] (JInt 1000))
      (init (lit "key") (lit "secret"))
  = [Log LogAuthenticating; CallAuthenticate (Return true); Log LogAuthenticated;
     Log LogLoading; CallLoadExcel; Log (LogLoaded 2);
     Progress 1 2; Stats zero_counters; Log (LogRow (lit "EX-7") (lit "Maquinarias"));
     CallGetMeter (lit "EX-7") (Return (JInt 1000));
     Log (LogError OverflowError); Finished false (Failure OverflowError)].
Proof. split; vm_compute; reflexivity. Qed.

(** Apart from that, the calculator returns: the only exception that
    leaves it is [OverflowError], from the [Maquinarias] branch. *)
Lemma calculate_value_to_add_raises_only_overflow (r : row) (e : exn) :
  calculate_value_to_add r = Raise e ->
  e = OverflowError /\ category r = lit "Maquinarias".
Proof.
  unfold calculate_value_to_add, category.
  set (categoria := strip (get_str r col_categoria (lit ""))).
  destruct (str_eqb categoria (lit "Flota Liviana") || str_eqb categoria (lit "Camiones")).
  { rewrite km_branch. discriminate. }
  destruct (str_eqb categoria (lit "Maquinarias")) eqn:Em; [|discriminate].
  apply str_eqb_true in Em. intros H. split; [|exact Em].
  rewrite hours_of_parts_split in H.
  destruct (int_of_str (fst (time_fields (strip (get_str r col_tiempo (lit "0:00"))))))
    as [horas|e1] eqn:E1.
  2: { rewrite (int_of_str_raises _ _ E1) in H. discriminate. }
  cbn [bind] in H.
  destruct (match snd (time_fields (strip (get_str r col_tiempo (lit "0:00")))) with
            | Some mm => int_of_str mm
            | None => Return 0
            end) as [minutos|e2] eqn:E2.
  2: { assert (e2 = ValueError).
       { destruct (snd (time_fields (strip (get_str r col_tiempo (lit "0:00")))));
           [now apply int_of_str_raises in E2 | discriminate]. }
       subst e2. discriminate. }
  cbn [bind] in H.
  unfold int_truediv in H. change (60 =? 0) with false in H. cbv iota in H.
  unfold int_add_float, float_of_int in H.
  destruct (minutos =? 0).
  - cbn [bind] in H. destruct (is_infinite (round_Z horas)); cbn in H; congruence.
  - destruct (is_infinite (round_quotient minutos 60)); cbn in H; [congruence|].
    destruct (is_infinite (round_Z horas)); cbn in H; congruence.
Qed.

(** A vehicle whose distance cell is empty: the text of the cell is [nan],
    which [float] reads as the number NaN; the delta is NaN, not 0. *)
Lemma missing_distance_is_nan :
  calculate_value_to_add
    (<[col_categoria := lit "Camiones"]> (<[col_km := lit "nan"]> ∅))
  = Return (S754_nan, lit "Km").
Proof. vm_compute. reflexivity. Qed.

(** ** Rows that get to the value calculator *)

Lemma upper_o (c : Z) : upper_char c = 79 -> lower_ascii c = 111.
Proof.
  unfold lower_ascii, upper_char.
  destruct (65 <=? c) eqn:A; destruct (c <=? 90) eqn:B; simpl;
    destruct (97 <=? c) eqn:C; destruct (c <=? 122) eqn:D; simpl; lia.
Qed.

Lemma upper_k (c : Z) : upper_char c = 75 -> lower_ascii c = 107.
Proof.
  unfold lower_ascii, upper_char.
  destruct (65 <=? c) eqn:A; destruct (c <=? 90) eqn:B; simpl;
    destruct (97 <=? c) eqn:C; destruct (c <=? 122) eqn:D; simpl; lia.
Qed.

(** The test of the pipeline on the status is the comparison with [OK]
    that ignores case. *)
Lemma upper_is_ok (s : str) :
  str_eqb (upper s) (lit "OK") = eq_ignoring_case s (lit "OK").
Proof.
  destruct (eq_ignoring_case s (lit "OK")) eqn:E.
  - rewrite (upper_of_ok _ E). apply str_eqb_refl.
  - apply str_eqb_false. intros H. apply not_true_iff_false in E. apply E.
    unfold eq_ignoring_case. apply str_eqb_true.
    destruct s as [|o [|k [|x s]]]; try discriminate.
    cbn in H. injection H as Ho Hk. cbn.
    now rewrite (upper_o _ Ho), (upper_k _ Hk).
Qed.

(** What the loop does with a row that has an identifier, is not marked
    [OK] and whose meter is found with the value [v]. *)
Lemma process_row_with_meter (w : world) (total_rows idx : nat) (r : row)
    (c : counters) (v : json) :
  identifier r <> [] ->
  identifier r <> lit "nan" ->
  eq_ignoring_case (status r) (lit "OK") = false ->
  get_meter_value (meter_reply w idx (identifier r)) = Return v ->
  is_None v = false ->
  process_row w total_rows idx r c =
    match calculate_value_to_add r with
    | Raise e => (row_head total_rows idx r c v, Raise e)
    | Return (valor, unidad) =>
        if float_is_zero valor then
          (row_head total_rows idx r c v ++ [Log LogZeroValue; Stats (incr_skipped c)],
           Return (incr_skipped c))
        else
          match add_float v valor with
          | Raise e => (row_head total_rows idx r c v, Raise e)
          | Return nuevo =>
              let u := update_meter (update_reply w idx (identifier r) nuevo) in
              let sent := row_head total_rows idx r c v ++
                          [Log (LogSum v valor nuevo unidad);
                           CallUpdateMeter (identifier r) nuevo u] in
              match u with
              | Return (true, _) =>
                  (sent ++ [Log LogUpdated; CallMarkStatus idx (lit "OK");
                            Stats (incr_successful c)],
                   Return (incr_successful c))
              | Return (false, m) =>
                  (sent ++ [Log (LogUpdateFailed m); Stats (incr_failed c)],
                   Return (incr_failed c))
              | Raise e => (sent, Raise e)
              end
          end
    end.
Proof.
  unfold identifier, status, row_head, category, process_row, get_interno_and_categoria.
  cbn [fst snd].
  intros Hne Hnan Hok Hget Hnone.
  apply str_eqb_false in Hne, Hnan. rewrite Hne, Hnan. cbn [orb].
  rewrite upper_is_ok, Hok.
  unfold api_get_meter_value, call. rewrite Hget.
  cbn [bindM emit ret app]. rewrite Hnone.
  unfold lift.
  destruct (calculate_value_to_add r) as [[valor unidad]|e]; cbn [bindM emit ret app];
    [|reflexivity].
  destruct (float_is_zero valor); cbn [bindM emit ret app]; [reflexivity|].
  destruct (add_float v valor) as [nuevo|e]; cbn [bindM emit ret app]; [|reflexivity].
  unfold api_update_meter, call, mark_status.
  destruct (update_meter _) as [[[|] m]|e]; reflexivity.
Qed.

(** ** Categories *)

Lemma unknown_category (r : row) :
  category r <> lit "Flota Liviana" ->
  category r <> lit "Camiones" ->
  category r <> lit "Maquinarias" ->
  calculate_value_to_add r = Return (fzero, lit "Desconocido").
Proof.
  unfold category, calculate_value_to_add. intros H1 H2 H3.
  apply str_eqb_false in H1, H2, H3. now rewrite H1, H2, H3.
Qed.

Ltac no_update := simpl; repeat constructor.

(** C10, for the rows that get to the calculator.  The category is compared as it is written, blanks
    around it apart: with any other category than the three, whatever the
    difference, the calculator returns 0 and [Desconocido]; the loop never
    calls [update_meter] for such a row; and when the row gets to the
    calculator (it has an identifier, is not marked [OK] and its meter is
    found) it is counted as skipped. *)
Theorem other_category_is_unknown (r : row) :
  category r <> lit "Flota Liviana" ->
  category r <> lit "Camiones" ->
  category r <> lit "Maquinarias" ->
  calculate_value_to_add r = Return (fzero, lit "Desconocido")
  /\ (forall w total_rows idx c,
        Forall (fun e => is_update_call e = false)
               (fst (process_row w total_rows idx r c)))
  /\ (forall w total_rows idx c v,
        identifier r <> [] ->
        identifier r <> lit "nan" ->
        eq_ignoring_case (status r) (lit "OK") = false ->
        get_meter_value (meter_reply w idx (identifier r)) = Return v ->
        is_None v = false ->
        process_row w total_rows idx r c =
          ([Progress (idx + 1) total_rows; Stats c;
            Log (LogRow (identifier r) (category r));
            CallGetMeter (identifier r) (Return v);
            Log LogZeroValue; Stats (incr_skipped c)],
           Return (incr_skipped c))).
Proof.
  intros H1 H2 H3.
  pose proof (unknown_category r H1 H2 H3) as Hcalc.
  split; [exact Hcalc|]. split.
  - intros w total_rows idx c. unfold process_row.
    destruct (get_interno_and_categoria r) as [interno categoria]; simpl.
    destruct (str_eqb interno [] || str_eqb interno (lit "nan")); [no_update|].
    simpl.
    destruct (str_eqb (upper (strip (get_str r col_estado (lit "")))) (lit "OK"));
      [no_update|].
    simpl. unfold api_get_meter_value, call.
    destruct (get_meter_value (meter_reply w idx interno)) as [contador|e]; [|no_update].
    simpl. destruct (is_None contador); [no_update|].
    rewrite Hcalc. no_update.
  - intros w total_rows idx c v Hne Hnan Hok Hget Hnone.
    rewrite (process_row_with_meter w total_rows idx r c v Hne Hnan Hok Hget Hnone).
    rewrite Hcalc. reflexivity.
Qed.

Lemma other_category_is_unknown_witness :
  category row_small_letters <> lit "Flota Liviana" /\
  category row_small_letters <> lit "Camiones" /\
  category row_small_letters <> lit "Maquinarias" /\
  calculate_value_to_add row_small_letters = Return (fzero, lit "Desconocido").
Proof.
  assert (H1 : category row_small_letters <> lit "Flota Liviana")
    by (vm_compute; discriminate).
  assert (H2 : category row_small_letters <> lit "Camiones")
    by (vm_compute; discriminate).
  assert (H3 : category row_small_letters <> lit "Maquinarias")
    by (vm_compute; discriminate).
  split; [exact H1|]. split; [exact H2|]. split; [exact H3|].
  exact (proj1 (other_category_is_unknown row_small_letters H1 H2 H3)).
Defined.

(** Examples: small letters, capitals, and the category
    under a column label without its accent. *)
Lemma other_category_examples :
  calculate_value_to_add (vehicle_row "ER-1022" "camiones" "50")
    = Return (fzero, lit "Desconocido") /\
  calculate_value_to_add (vehicle_row "EX-7" "MAQUINARIAS" "50")
    = Return (fzero, lit "Desconocido") /\
  calculate_value_to_add
    (<[lit "Categoria" := lit "Camiones"]> (<[col_km := lit "50"]> ∅))
    = Return (fzero, lit "Desconocido") /\
  calculate_value_to_add (vehicle_row "ER-1022" " Camiones " "50")
    = Return (round_Z 50, lit "Km").
Proof. repeat split; vm_compute; reflexivity. Qed.

(** C10 does not hold as it is stated: a row in small letters whose meter
    is not found is counted as failed, not as skipped. *)
Lemma other_category_row_without_meter_is_failed :
  category row_small_letters = lit "camiones" /\
  calculate_value_to_add row_small_letters = Return (fzero, lit "Desconocido") /\
  process_row silent_world 1 0 row_small_letters zero_counters =
    ([Progress 1 1; Stats zero_counters;
      Log (LogRow (lit "ER-1022") (lit "camiones"));
      CallGetMeter (lit "ER-1022") (Return JNull);
      Log LogNoMeter; Stats (incr_failed zero_counters)],
     Return (incr_failed zero_counters)) /\
  incr_failed zero_counters <> incr_skipped zero_counters.
Proof.
  split; [vm_compute; reflexivity|].
  split; [vm_compute; reflexivity|].
  split; [vm_compute; reflexivity|].
  discriminate.
Qed.

(** ** Negative distances *)

Lemma negative_is_not_zero (d : float) : fltb d fzero = true -> float_is_zero d = false.
Proof.
  unfold fltb, float_is_zero, feqb, SFltb, SFeqb.
  destruct (SFcompare d fzero) as [[| |]|]; congruence.
Qed.

Lemma reading_adds (v : json) (current d : float) :
  reading v = Some current ->
  is_None v = false /\ add_float v d = Return (fadd current d).
Proof.
  destruct v as [|b|n|x|s|l|m]; simpl; try discriminate.
  - intros E. injection E as <-. split; [reflexivity|]. now destruct b.
  - unfold int_add_float, float_of_int.
    destruct (is_infinite (round_Z n)); [discriminate|].
    intros E. injection E as <-. split; reflexivity.
  - intros E. injection E as <-. split; reflexivity.
Qed.

(** A row is counted as skipped only when its delta is equal to 0. *)
Lemma skipped_only_on_zero_delta
    (w : world) (total_rows idx : nat) (r : row) (c c' : counters) :
  snd (process_row w total_rows idx r c) = Return c' ->
  skipped c' = S (skipped c) ->
  exists d unidad,
    calculate_value_to_add r = Return (d, unidad) /\ float_is_zero d = true.
Proof.
  unfold process_row.
  destruct (get_interno_and_categoria r) as [interno categoria]; simpl.
  destruct (str_eqb interno [] || str_eqb interno (lit "nan")); simpl.
  { intros E. injection E as <-. lia. }
  destruct (str_eqb (upper (strip (get_str r col_estado (lit "")))) (lit "OK")); simpl.
  { intros E. injection E as <-. simpl. lia. }
  unfold api_get_meter_value, call.
  destruct (get_meter_value (meter_reply w idx interno)) as [contador|e]; simpl;
    [|discriminate].
  destruct (is_None contador); simpl.
  { intros E. injection E as <-. simpl. lia. }
  unfold lift.
  destruct (calculate_value_to_add r) as [[valor unidad]|e]; simpl; [|discriminate].
  destruct (float_is_zero valor) eqn:Hz; simpl.
  { intros _ _. exists valor, unidad. split; [reflexivity | exact Hz]. }
  destruct (add_float contador valor) as [nuevo|e]; simpl; [|discriminate].
  unfold api_update_meter, call.
  destruct (update_meter (update_reply w idx interno nuevo)) as [[[|] m]|e]; simpl;
    try discriminate; intros E; injection E as <-; simpl; lia.
Qed.

(** C9, without the order between the sum and the reading.  A row of a vehicle category that has an identifier, is
    not marked [OK], whose meter is found with a reading that is a number
    and whose distance parses to a negative number [d]: the calculator
    returns [d] with [Km], the row is not skipped (only a row whose delta
    is equal to 0 is), and [update_meter] is called with the double
    precision sum of the reading and [d]. *)
Theorem negative_distance_is_submitted
    (w : world) (total_rows idx : nat) (r : row) (c : counters)
    (v : json) (current d : float) :
  identifier r <> [] ->
  identifier r <> lit "nan" ->
  eq_ignoring_case (status r) (lit "OK") = false ->
  category r = lit "Flota Liviana" \/ category r = lit "Camiones" ->
  float_of_distance (distance r) = Some d ->
  fltb d fzero = true ->
  get_meter_value (meter_reply w idx (identifier r)) = Return v ->
  reading v = Some current ->
  calculate_value_to_add r = Return (d, lit "Km")
  /\ float_is_zero d = false
  /\ (forall w' total_rows' idx' r' c0 c',
        snd (process_row w' total_rows' idx' r' c0) = Return c' ->
        skipped c' = S (skipped c0) ->
        exists d' unidad,
          calculate_value_to_add r' = Return (d', unidad) /\ float_is_zero d' = true)
  /\ exists tail res,
       process_row w total_rows idx r c =
         (row_head total_rows idx r c v ++
          [Log (LogSum v d (fadd current d) (lit "Km"));
           CallUpdateMeter (identifier r) (fadd current d)
             (update_meter (update_reply w idx (identifier r) (fadd current d)))]
          ++ tail, res)
       /\ ~ In (Log LogZeroValue) tail
       /\ (forall c', res = Return c' -> skipped c' = skipped c).
Proof.
  intros Hne Hnan Hok Hcat Hd Hneg Hget Hread.
  assert (Hcalc : calculate_value_to_add r = Return (d, lit "Km")).
  { unfold calculate_value_to_add. fold (category r).
    assert (Hc : str_eqb (category r) (lit "Flota Liviana")
                 || str_eqb (category r) (lit "Camiones") = true).
    { destruct Hcat as [-> | ->]; reflexivity. }
    rewrite Hc. fold (distance r). rewrite km_branch, Hd. reflexivity. }
  pose proof (negative_is_not_zero d Hneg) as Hnz.
  destruct (reading_adds v current d Hread) as [Hnone Hadd].
  split; [exact Hcalc|]. split; [exact Hnz|].
  split; [exact skipped_only_on_zero_delta|].
  rewrite (process_row_with_meter w total_rows idx r c v Hne Hnan Hok Hget Hnone).
  rewrite Hcalc, Hnz, Hadd. cbv zeta.
  destruct (update_meter (update_reply w idx (identifier r) (fadd current d)))
    as [[[|] m]|e].
  - exists [Log LogUpdated; CallMarkStatus idx (lit "OK"); Stats (incr_successful c)],
           (Return (incr_successful c)).
    split; [now rewrite <- app_assoc|]. split.
    + simpl. intros [H|[H|[H|[]]]]; discriminate.
    + intros c' E. now injection E as <-.
  - exists [Log (LogUpdateFailed m); Stats (incr_failed c)], (Return (incr_failed c)).
    split; [now rewrite <- app_assoc|]. split.
    + simpl. intros [H|[H|[]]]; discriminate.
    + intros c' E. now injection E as <-.
  - exists [], (Raise e).
    split; [now rewrite app_nil_r|]. split.
    + simpl. tauto.
    + discriminate.
Qed.

Lemma negative_distance_is_submitted_witness :
  identifier row_backwards <> [] /\
  identifier row_backwards <> lit "nan" /\
  eq_ignoring_case (status row_backwards) (lit "OK") = false /\
  float_of_distance (distance row_backwards) = Some minus_half /\
  fltb minus_half fzero = true /\
  reading (JInt 1000) = Some (round_Z 1000) /\
  calculate_value_to_add row_backwards = Return (minus_half, lit "Km") /\
  fltb (fadd (round_Z 1000) minus_half) (round_Z 1000) = true.
Proof.
  assert (H1 : identifier row_backwards <> []) by (vm_compute; discriminate).
  assert (H2 : identifier row_backwards <> lit "nan") by (vm_compute; discriminate).
  assert (H3 : eq_ignoring_case (status row_backwards) (lit "OK") = false)
    by (vm_compute; reflexivity).
  assert (H4 : category row_backwards = lit "Flota Liviana"
               \/ category row_backwards = lit "Camiones")
    by (right; vm_compute; reflexivity).
  assert (H5 : float_of_distance (distance row_backwards) = Some minus_half)
    by (vm_compute; reflexivity).
  assert (H6 : fltb minus_half fzero = true) by (vm_compute; reflexivity).
  assert (H7 : get_meter_value
                 (meter_reply (steady_world [row_backwards] (JInt 1000)) 0
                    (identifier row_backwards)) = Return (JInt 1000))
    by (vm_compute; reflexivity).
  assert (H8 : reading (JInt 1000) = Some (round_Z 1000)) by (vm_compute; reflexivity).
  split; [exact H1|]. split; [exact H2|]. split; [exact H3|]. split; [exact H5|].
  split; [exact H6|]. split; [exact H8|]. split.
  - exact (proj1 (negative_distance_is_submitted
                    (steady_world [row_backwards] (JInt 1000)) 1 0 row_backwards
                    zero_counters (JInt 1000) (round_Z 1000) minus_half
                    H1 H2 H3 H4 H5 H6 H7 H8)).
  - vm_compute. reflexivity.
Defined.

(** C9 does not hold as it is stated: added to a reading of 10^16, a distance of
    minus a half is lost in the rounding of the sum; the value submitted
    is the reading itself, which is not below the reading. *)
Lemma absorbed_distance_is_not_below_the_reading :
  float_of_distance (distance row_backwards) = Some minus_half /\
  fltb minus_half fzero = true /\
  process_row (steady_world [row_backwards] (JInt big_reading)) 1 0 row_backwards
              zero_counters =
    ([Progress 1 1; Stats zero_counters;
      Log (LogRow (lit "ER-1022") (lit "Camiones"));
      CallGetMeter (lit "ER-1022") (Return (JInt big_reading));
      Log (LogSum (JInt big_reading) minus_half (round_Z big_reading) (lit "Km"));
      CallUpdateMeter (lit "ER-1022") (round_Z big_reading) (Return (true, MsgUpdated));
      Log LogUpdated; CallMarkStatus 0 (lit "OK");
      Stats (incr_successful zero_counters)],
     Return (incr_successful zero_counters)) /\
  fadd (round_Z big_reading) minus_half = round_Z big_reading /\
  fltb (round_Z big_reading) (round_Z big_reading) = false.
Proof. repeat split; vm_compute; reflexivity. Qed.

(** ** The client *)






(** A status 200 with a JSON body that is not an object leaves
    [update_meter] as an exception. *)
Lemma update_meter_raises_on_array : update_meter array_body = Raise AttributeError.
Proof. reflexivity. Qed.

(** [get_meter_value] returns [None] when there is no response, when the
    status is an error, when the body is not JSON and when the asset has
    no meter record. *)
Lemma get_meter_value_absent :
  get_meter_value NoResponse = Return JNull /\
  (forall r, 400 <= status_code r < 600 -> get_meter_value (Responds r) = Return JNull) /\
  (forall r, body r = None -> get_meter_value (Responds r) = Return JNull) /\
  get_meter_value (json_reply (JDict [(lit "data", JList [])])) = Return JNull /\
  get_meter_value (json_reply (JDict [])) = Return JNull.
Proof.
  split; [reflexivity|]. split; [|split; [|split; reflexivity]].
  - intros r Hr. unfold get_meter_value, raise_for_status. cbn [send bind].
    replace ((400 <=? status_code r) && (status_code r <? 600)) with true; [reflexivity|].
    symmetry. apply andb_true_intro. split; [apply Z.leb_le | apply Z.ltb_lt]; lia.
  - intros r Hb. unfold get_meter_value, raise_for_status, json_of. cbn [send bind].
    destruct ((400 <=? status_code r) && (status_code r <? 600)); [reflexivity|].
    cbn [bind]. rewrite Hb. reflexivity.
Qed.

(** C6. The three calls of the client do not turn every response into
    a flag or into [None]: on a JSON body that they do not expect, here a
    meter whose [last_data] is [null] for [get_meter_value] and a JSON
    array for [authenticate] and [update_meter], they raise
    [AttributeError], and the run that meets it stops at that row. *)
Theorem client_raises_on_unexpected_json :
  get_meter_value meter_without_reading = Raise AttributeError /\
  authenticate (init (lit "key") (lit "secret")) array_body = Raise AttributeError /\
  update_meter array_body = Raise AttributeError /\
  run {| auth_reply := token_granted;
         report := Return [vehicle_row "ER-1022" "Camiones" "50";
                           vehicle_row "ER-1023" "Camiones" "70"];
         meter_reply := fun _ _ => meter_without_reading;
         put_reply := fun _ _ _ => update_accepted |}
      (init (lit "key") (lit "secret"))
  = [Log LogAuthenticating; CallAuthenticate (Return true); Log LogAuthenticated;
     Log LogLoading; CallLoadExcel; Log (LogLoaded 2);
     Progress 1 2; Stats zero_counters; Log (LogRow (lit "ER-1022") (lit "Camiones"));
     CallGetMeter (lit "ER-1022") (Raise AttributeError);
     Log (LogError AttributeError); Finished false (Failure AttributeError)].
Proof. repeat split; vm_compute; reflexivity. Qed.

(* ===================================================================== *)
(** * More on the loop                                                    *)
(* ===================================================================== *)

Import Rows.

(** The body of the loop does what the path of the row says. *)
Lemma process_row_path (w : world) (total_rows idx : nat) (r : row) (c : counters) :
  process_row w total_rows idx r c =
    (events_of total_rows idx r c (path_of w idx r), after c (path_of w idx r)).
Proof.
  unfold path_of, has_identifier, marked_ok, events_of, row_head, identifier,
    category, status, process_row, get_interno_and_categoria.
  cbn [fst snd].
  destruct (str_eqb (strip (get_str r col_interno (lit ""))) []
            || str_eqb (strip (get_str r col_interno (lit ""))) (lit "nan"));
    cbn [negb]; [reflexivity|].
  rewrite upper_is_ok.
  destruct (eq_ignoring_case (strip (get_str r col_estado (lit ""))) (lit "OK"));
    [reflexivity|].
  unfold api_get_meter_value, call.
  destruct (get_meter_value _) as [contador|e]; [|reflexivity].
  cbn [bindM emit ret app].
  destruct (is_None contador); [reflexivity|].
  unfold lift.
  destruct (calculate_value_to_add r) as [[valor unidad]|e]; [|reflexivity].
  cbn [bindM emit ret app].
  destruct (float_is_zero valor); [reflexivity|].
  destruct (add_float contador valor) as [nuevo|e]; [|reflexivity].
  cbn [bindM emit ret app].
  unfold api_update_meter, call, mark_status.
  destruct (update_meter _) as [[[|] m]|e]; reflexivity.
Qed.

Lemma iterrows_step (w : world) (total_rows idx : nat) (r : row) (rest : list row)
    (c : counters) :
  iterrows w total_rows idx (r :: rest) c =
    match after c (path_of w idx r) with
    | Return c' =>
        (events_of total_rows idx r c (path_of w idx r)
           ++ fst (iterrows w total_rows (S idx) rest c'),
         snd (iterrows w total_rows (S idx) rest c'))
    | Raise e => (events_of total_rows idx r c (path_of w idx r), Raise e)
    end.
Proof.
  cbn [iterrows]. rewrite process_row_path. unfold bindM.
  destruct (after c (path_of w idx r)) as [c'|e]; [|reflexivity].
  now destruct (iterrows w total_rows (S idx) rest c').
Qed.

Lemma path_kind (w : world) (idx : nat) (r : row) :
  (has_identifier r = false /\ path_of w idx r = PassedOver)
  \/ (has_identifier r = true /\ marked_ok r = true /\ path_of w idx r = AlreadyProcessed)
  \/ (has_identifier r = true /\ marked_ok r = false /\ looked_up (path_of w idx r) = true).
Proof.
  unfold path_of.
  destruct (has_identifier r); cbn [negb]; [|left; split; reflexivity].
  destruct (marked_ok r); [right; left; repeat split|].
  right. right. split; [reflexivity|]. split; [reflexivity|].
  destruct (get_meter_value _) as [x|e]; [|reflexivity].
  destruct (is_None x); [reflexivity|].
  destruct (calculate_value_to_add r) as [[d u]|e]; [|reflexivity].
  destruct (float_is_zero d); [reflexivity|].
  destruct (add_float x d) as [v|e]; [|reflexivity].
  destruct (update_meter _) as [[[|] m]|e]; reflexivity.
Qed.

(** What a run is made of once the token is granted and the report
    loaded. *)
Lemma run_body_loaded (w : world) (api api' : FracttalAPI) (rows : list row) :
  authenticate api (auth_reply w) = Return (true, api') ->
  report w = Return rows ->
  run_body w api =
    match snd (iterrows w (length rows) 0 rows zero_counters) with
    | Return c =>
        (run_prefix (length rows)
           ++ fst (iterrows w (length rows) 0 rows zero_counters) ++ run_suffix c,
         Return (Some c))
    | Raise e =>
        (run_prefix (length rows) ++ fst (iterrows w (length rows) 0 rows zero_counters),
         Raise e)
    end.
Proof.
  intros Ha Hr. unfold run_body, api_authenticate, load_excel, call.
  rewrite Ha, Hr. cbn [bind fst bindM emit ret app negb].
  destruct (iterrows w (length rows) 0 rows zero_counters) as [ev [c|e]];
    cbn [fst snd bindM emit ret app]; unfold run_prefix, run_suffix; cbn [app].
  - reflexivity.
  - now rewrite ?app_nil_r.
Qed.

(** A run that gets to the end of the rows had its token, its report and
    a loop that returned. *)
Lemma final_counters_inv (w : world) (api : FracttalAPI) (c : counters) :
  final_counters w api = Some c ->
  exists api' rows,
    authenticate api (auth_reply w) = Return (true, api') /\
    report w = Return rows /\
    snd (iterrows w (length rows) 0 rows zero_counters) = Return c.
Proof.
  unfold final_counters.
  destruct (authenticate api (auth_reply w)) as [[[|] api']|e] eqn:Ha.
  - destruct (report w) as [rows|e] eqn:Hr.
    + rewrite (run_body_loaded w api api' rows Ha Hr).
      destruct (snd (iterrows w (length rows) 0 rows zero_counters)) as [c'|e] eqn:Hi;
        [|discriminate].
      intros E. injection E as <-. exists api', rows. repeat split; assumption.
    + unfold run_body, api_authenticate, load_excel, call. rewrite Ha, Hr. discriminate.
  - unfold run_body, api_authenticate, call. rewrite Ha. discriminate.
  - unfold run_body, api_authenticate, call. rewrite Ha. discriminate.
Qed.

Lemma run_completed (w : world) (api : FracttalAPI) (c : counters) :
  final_counters w api = Some c ->
  exists rows,
    report w = Return rows /\
    snd (iterrows w (length rows) 0 rows zero_counters) = Return c /\
    run w api =
      run_prefix (length rows)
        ++ fst (iterrows w (length rows) 0 rows zero_counters) ++ run_suffix c.
Proof.
  intros H. destruct (final_counters_inv w api c H) as (api' & rows & Ha & Hr & Hi).
  exists rows. split; [exact Hr|]. split; [exact Hi|].
  unfold run. rewrite (run_body_loaded w api api' rows Ha Hr), Hi. reflexivity.
Qed.

(** ** The counters *)

Lemma filter_split {A} (p q : A -> bool) (l : list A) :
  length (List.filter p l) =
    (length (List.filter (fun x => p x && q x) l)
     + length (List.filter (fun x => p x && negb (q x)) l))%nat.
Proof.
  induction l as [|x l IH]; [reflexivity|].
  cbn [List.filter]. destruct (p x), (q x); cbn [andb negb length]; lia.
Qed.

Lemma iterrows_counts (w : world) (total_rows : nat) :
  forall (rows : list row) (idx : nat) (c c' : counters),
    snd (iterrows w total_rows idx rows c) = Return c' ->
    counted c' = (counted c + length (List.filter has_identifier rows))%nat /\
    already_processed c' =
      (already_processed c
       + length (List.filter (fun r => has_identifier r && marked_ok r) rows))%nat.
Proof.
  induction rows as [|r rest IH]; intros idx c c'.
  { cbn. intros E. injection E as <-. lia. }
  rewrite iterrows_step. cbn [List.filter].
  destruct (path_kind w idx r) as [[Hid Hp] | [(Hid & Hok & Hp) | (Hid & Hok & Hp)]];
    rewrite Hid; try rewrite Hok; cbn [andb].
  - rewrite Hp. cbn [after snd]. apply IH.
  - rewrite Hp. cbn [after snd]. intros H. apply IH in H.
    unfold counted in *. cbn in *. lia.
  - destruct (path_of w idx r); try discriminate; cbn [after snd];
      try discriminate; intros H; apply IH in H; unfold counted in *; cbn in *; lia.
Qed.

(** X1. When a run gets to the end of the rows, every row that has an
    identifier has been counted once, by one of the four counters, the
    rows without identifier by none; the rows counted as already processed
    are the rows that have an identifier and the mark [OK]. *)
Theorem counters_add_up (w : world) (api : FracttalAPI) (c : counters) :
  final_counters w api = Some c ->
  exists rows,
    report w = Return rows /\
    (successful c + failed c + skipped c + already_processed c)%nat
      = length (List.filter has_identifier rows) /\
    already_processed c
      = length (List.filter (fun r => has_identifier r && marked_ok r) rows) /\
    (successful c + failed c + skipped c)%nat
      = length (List.filter (fun r => has_identifier r && negb (marked_ok r)) rows).
Proof.
  intros H. destruct (run_completed w api c H) as (rows & Hr & Hi & _).
  exists rows. split; [exact Hr|].
  destruct (iterrows_counts w (length rows) rows 0 zero_counters c Hi) as [H1 H2].
  unfold counted in H1. cbn in H1, H2.
  pose proof (filter_split has_identifier marked_ok rows). lia.
Qed.

Lemma counters_add_up_witness :
  let w := steady_world [vehicle_row "ER-1022" "Camiones" "50";
                         vehicle_row "" "Camiones" "70";
                         vehicle_row "ER-1024" "camiones" "70"] (JInt 1000) in
  let api := init (lit "key") (lit "secret") in
  final_counters w api
    = Some {| successful := 1; failed := 0; skipped := 1; already_processed := 0 |} /\
  exists rows, report w = Return rows /\ length (List.filter has_identifier rows) = 2%nat.
Proof.
  intros w api.
  assert (H : final_counters w api
    = Some {| successful := 1; failed := 0; skipped := 1; already_processed := 0 |})
    by (vm_compute; reflexivity).
  split; [exact H|].
  destruct (counters_add_up w api _ H) as (rows & Hr & Hsum & _).
  exists rows. split; [exact Hr|]. cbn in Hsum. now rewrite <- Hsum.
Defined.

(** ** The stat cards *)

Lemma cards_after_app (shown : counters) (a b : list event) :
  cards_after shown (a ++ b) = cards_after (cards_after shown a) b.
Proof. unfold cards_after. apply fold_left_app. Qed.

Lemma iterrows_cards (w : world) (total_rows : nat) :
  forall (rows : list row) (idx : nat) (c c' : counters),
    snd (iterrows w total_rows idx rows c) = Return c' ->
    cards_after c (fst (iterrows w total_rows idx rows c)) = c'.
Proof.
  induction rows as [|r rest IH]; intros idx c c'.
  { cbn. intros E. now injection E as <-. }
  rewrite iterrows_step.
  destruct (path_of w idx r); cbn [after snd fst]; try discriminate;
    intros H; rewrite cards_after_app; apply IH in H; exact H.
Qed.

(** X2. When a run gets to the end of the rows, the stat cards of the window
    show the counters the run ended with, which are the ones of its
    summary line and of its completion signal. *)
Theorem cards_show_final_counters (w : world) (api : FracttalAPI) (c : counters) :
  final_counters w api = Some c ->
  stat_cards (run w api) = c /\
  In (Log (LogSummary c)) (run w api) /\
  In (Finished true (Completed (successful c) (failed c))) (run w api).
Proof.
  intros H. destruct (run_completed w api c H) as (rows & Hr & Hi & ->).
  split.
  - change (stat_cards ?ev) with (cards_after zero_counters ev).
    rewrite !cards_after_app. cbn [run_prefix cards_after fold_left].
    fold (cards_after zero_counters (fst (iterrows w (length rows) 0 rows zero_counters))).
    rewrite (iterrows_cards w (length rows) rows 0 zero_counters c Hi). reflexivity.
  - split; apply in_or_app; right; apply in_or_app; right; cbn; tauto.
Qed.

Lemma cards_show_final_counters_witness :
  let w := steady_world [vehicle_row "ER-1022" "Camiones" "50";
                         vehicle_row "" "Camiones" "70"] (JInt 1000) in
  let api := init (lit "key") (lit "secret") in
  final_counters w api = Some (incr_successful zero_counters) /\
  stat_cards (run w api) = incr_successful zero_counters.
Proof.
  intros w api.
  assert (H : final_counters w api = Some (incr_successful zero_counters))
    by (vm_compute; reflexivity).
  split; [exact H|].
  exact (proj1 (cards_show_final_counters w api _ H)).
Defined.

(** ** The completion signal *)

Lemma events_of_not_finished (total_rows idx : nat) (r : row) (c : counters) (p : path) :
  Forall (fun e => is_finished e = false) (events_of total_rows idx r c p).
Proof. destruct p; cbn; repeat constructor. Qed.

Lemma iterrows_not_finished (w : world) (total_rows : nat) :
  forall (rows : list row) (idx : nat) (c : counters),
    Forall (fun e => is_finished e = false) (fst (iterrows w total_rows idx rows c)).
Proof.
  induction rows as [|r rest IH]; intros idx c; [constructor|].
  rewrite iterrows_step.
  destruct (after c (path_of w idx r)) as [c'|e]; cbn [fst].
  - apply Forall_app. split; [apply events_of_not_finished | apply IH].
  - apply events_of_not_finished.
Qed.

(** X3. Whatever the remote answers and whatever is raised, a run emits its
    completion signal once, as its last event; the signal says success
    exactly when the run got to the end of the rows. *)
Theorem run_finishes_once (w : world) (api : FracttalAPI) :
  exists ev ok m,
    run w api = ev ++ [Finished ok m] /\
    Forall (fun e => is_finished e = false) ev /\
    (ok = true <-> exists c, final_counters w api = Some c).
Proof.
  unfold run, final_counters.
  destruct (authenticate api (auth_reply w)) as [[[|] api']|e] eqn:Ha.
  - destruct (report w) as [rows|e] eqn:Hr.
    + rewrite (run_body_loaded w api api' rows Ha Hr).
      pose proof (iterrows_not_finished w (length rows) rows 0 zero_counters) as Hn.
      destruct (snd (iterrows w (length rows) 0 rows zero_counters)) as [c|e].
      * exists (run_prefix (length rows)
                  ++ fst (iterrows w (length rows) 0 rows zero_counters)
                  ++ [Log LogBlank; Log LogRule; Log (LogSummary c)]),
               true, (Completed (successful c) (failed c)).
        split; [unfold run_suffix; now rewrite <- !app_assoc|].
        split; [|split; [intros _; now exists c | reflexivity]].
        apply Forall_app. split; [repeat constructor|].
        apply Forall_app. split; [exact Hn | repeat constructor].
      * exists ((run_prefix (length rows)
                   ++ fst (iterrows w (length rows) 0 rows zero_counters))
                  ++ [Log (LogError e)]), false, (Failure e).
        split; [now rewrite <- !app_assoc|].
        split; [|split; [discriminate | intros [c Hc]; discriminate]].
        apply Forall_app. split; [|repeat constructor].
        apply Forall_app. split; [repeat constructor | exact Hn].
    + unfold run_body, api_authenticate, load_excel, call. rewrite Ha, Hr.
      cbn [bind fst bindM emit ret app negb].
      exists [Log LogAuthenticating; CallAuthenticate (Return true); Log LogAuthenticated;
              Log LogLoading; CallLoadExcel; Log (LogError e)], false, (Failure e).
      split; [reflexivity|].
      split; [repeat constructor|]. split; [discriminate | intros [c Hc]; discriminate].
  - unfold run_body, api_authenticate, call. rewrite Ha.
    cbn [bind fst bindM emit ret app negb].
    exists [Log LogAuthenticating; CallAuthenticate (Return false)], false,
           AuthenticationError.
    split; [reflexivity|].
    split; [repeat constructor|]. split; [discriminate | intros [c Hc]; discriminate].
  - unfold run_body, api_authenticate, call. rewrite Ha.
    cbn [bind fst bindM emit ret app negb].
    exists [Log LogAuthenticating; CallAuthenticate (Raise e); Log (LogError e)], false,
           (Failure e).
    split; [reflexivity|].
    split; [repeat constructor|]. split; [discriminate | intros [c Hc]; discriminate].
Qed.

(** ** Progress *)

Lemma progress_signals_app (a b : list event) :
  progress_signals (a ++ b) = progress_signals a ++ progress_signals b.
Proof.
  induction a as [|e a IH]; [reflexivity|].
  destruct e; cbn; now rewrite ?IH.
Qed.

Lemma events_of_progress (total_rows idx : nat) (r : row) (c : counters) (p : path) :
  progress_signals (events_of total_rows idx r c p) = [((idx + 1)%nat, total_rows)].
Proof. destruct p; reflexivity. Qed.

Lemma iterrows_progress (w : world) (total_rows : nat) :
  forall (rows : list row) (idx : nat) (c : counters),
    exists k,
      (k <= length rows)%nat /\
      progress_signals (fst (iterrows w total_rows idx rows c))
        = map (fun i => ((i + 1)%nat, total_rows)) (seq idx k) /\
      (forall c', snd (iterrows w total_rows idx rows c) = Return c' -> k = length rows).
Proof.
  induction rows as [|r rest IH]; intros idx c.
  { exists 0%nat. repeat split; reflexivity. }
  rewrite iterrows_step.
  destruct (after c (path_of w idx r)) as [c'|e]; cbn [fst snd].
  - destruct (IH (S idx) c') as (k & Hk & Hp & Hret).
    exists (S k). split; [cbn; lia|]. split.
    + rewrite progress_signals_app, events_of_progress, Hp. reflexivity.
    + intros c'' H. cbn. f_equal. now apply (Hret c'').
  - exists 1%nat. split; [cbn; lia|]. split.
    + now rewrite events_of_progress.
    + discriminate.
Qed.

(** X4. The progress signals of a run over a report of [n] rows are, in
    order, (1, n), (2, n), ... one for each row visited, rows without
    identifier included; they go up to (n, n) when the run gets to the end
    of the rows. *)
Theorem progress_counts_rows (w : world) (api : FracttalAPI) (rows : list row) :
  report w = Return rows ->
  exists k,
    (k <= length rows)%nat /\
    progress_signals (run w api)
      = map (fun i => ((i + 1)%nat, length rows)) (seq 0 k) /\
    ((exists c, final_counters w api = Some c) -> k = length rows).
Proof.
  intros Hr. unfold run, final_counters.
  destruct (authenticate api (auth_reply w)) as [[[|] api']|e] eqn:Ha.
  - rewrite (run_body_loaded w api api' rows Ha Hr).
    destruct (iterrows_progress w (length rows) rows 0 zero_counters) as (k & Hk & Hp & Hret).
    exists k. split; [exact Hk|].
    destruct (snd (iterrows w (length rows) 0 rows zero_counters)) as [c|e].
    + split; [|intros _; now apply (Hret c)].
      rewrite !progress_signals_app, Hp. cbn. now rewrite app_nil_r.
    + split; [|intros [c Hc]; discriminate].
      rewrite !progress_signals_app, Hp. cbn. now rewrite app_nil_r.
  - unfold run_body, api_authenticate, call. rewrite Ha.
    exists 0%nat. split; [lia|]. split; [reflexivity | intros [c Hc]; discriminate].
  - unfold run_body, api_authenticate, call. rewrite Ha.
    exists 0%nat. split; [lia|]. split; [reflexivity | intros [c Hc]; discriminate].
Qed.

Lemma progress_counts_rows_witness :
  let rows := [vehicle_row "ER-1022" "Camiones" "50"; vehicle_row "" "Camiones" "70"] in
  let w := steady_world rows (JInt 1000) in
  report w = Return rows /\
  exists k, progress_signals (run w (init (lit "key") (lit "secret")))
            = map (fun i => ((i + 1)%nat, 2%nat)) (seq 0 k).
Proof.
  intros rows w.
  assert (H : report w = Return rows) by reflexivity.
  split; [exact H|].
  destruct (progress_counts_rows w (init (lit "key") (lit "secret")) rows H)
    as (k & _ & Hp & _).
  exists k. exact Hp.
Defined.

(** ** The calls of a run *)

Lemma count_app (kind : event -> bool) (a b : list event) :
  count kind (a ++ b) = (count kind a + count kind b)%nat.
Proof. unfold count. now rewrite List.filter_app, length_app. Qed.

Lemma iterrows_calls (w : world) (total_rows : nat) :
  forall (rows : list row) (idx : nat) (c c' : counters),
    snd (iterrows w total_rows idx rows c) = Return c' ->
    let ev := fst (iterrows w total_rows idx rows c) in
    successful c' = (successful c + count is_mark ev)%nat /\
    (successful c' + failed c' + skipped c')%nat
      = (successful c + failed c + skipped c + count is_lookup ev)%nat /\
    (successful c' + failed c')%nat
      = (successful c + failed c + count is_update_call ev
         + count is_no_meter_line ev)%nat.
Proof.
  induction rows as [|r rest IH]; intros idx c c'.
  { cbn. intros E. injection E as <-. cbn. lia. }
  rewrite iterrows_step.
  destruct (path_of w idx r); cbn [after snd fst]; try discriminate;
    intros H; apply IH in H; cbv zeta in *; rewrite !count_app;
    destruct H as (H1 & H2 & H3); cbn in *; lia.
Qed.

Lemma iterrows_marks_le_updates (w : world) (total_rows : nat) :
  forall (rows : list row) (idx : nat) (c : counters),
    (count is_mark (fst (iterrows w total_rows idx rows c))
     <= count is_update_call (fst (iterrows w total_rows idx rows c)))%nat.
Proof.
  induction rows as [|r rest IH]; intros idx c; [cbn; lia|].
  rewrite iterrows_step.
  destruct (after c (path_of w idx r)) as [c'|e] eqn:Ha; cbn [fst].
  - rewrite !count_app. specialize (IH (S idx) c').
    destruct (path_of w idx r); cbn in *; lia.
  - destruct (path_of w idx r); cbn in *; try discriminate; lia.
Qed.

(** X5. When a run gets to the end of the rows: it has written as many
    statuses as it counts successes; it has looked up one meter for each
    row counted as successful, failed or skipped; and it has called
    [update_meter] once for each success and each failure other than a
    meter not found. *)
Theorem calls_match_counters (w : world) (api : FracttalAPI) (c : counters) :
  final_counters w api = Some c ->
  count is_mark (run w api) = successful c /\
  count is_lookup (run w api) = (successful c + failed c + skipped c)%nat /\
  (count is_update_call (run w api) + count is_no_meter_line (run w api))%nat
    = (successful c + failed c)%nat /\
  (successful c <= count is_update_call (run w api) <= successful c + failed c)%nat.
Proof.
  intros H. destruct (run_completed w api c H) as (rows & Hr & Hi & ->).
  destruct (iterrows_calls w (length rows) rows 0 zero_counters c Hi) as (H1 & H2 & H3).
  cbn [successful failed skipped zero_counters] in H1, H2, H3.
  pose proof (iterrows_marks_le_updates w (length rows) rows 0 zero_counters) as Hup.
  rewrite !count_app. unfold run_prefix, run_suffix. cbn [count List.filter is_mark
    is_lookup is_update_call is_no_meter_line length].
  cbn. lia.
Qed.

Lemma calls_match_counters_witness :
  let w := steady_world [vehicle_row "ER-1022" "Camiones" "50";
                         vehicle_row "ER-1024" "camiones" "70"] (JInt 1000) in
  let api := init (lit "key") (lit "secret") in
  final_counters w api
    = Some {| successful := 1; failed := 0; skipped := 1; already_processed := 0 |} /\
  count is_mark (run w api) = 1%nat /\
  count is_lookup (run w api) = 2%nat.
Proof.
  intros w api.
  assert (H : final_counters w api
    = Some {| successful := 1; failed := 0; skipped := 1; already_processed := 0 |})
    by (vm_compute; reflexivity).
  split; [exact H|].
  destruct (calls_match_counters w api _ H) as (H1 & H2 & _).
  split; [exact H1 | exact H2].
Defined.

(** ** What is sent to [update_meter] *)

Lemma split_unique {A} (kind : A -> bool) (a b : list A) (u0 : A) :
  Forall (fun e => kind e = false) a ->
  Forall (fun e => kind e = false) b ->
  kind u0 = true ->
  forall pre u post,
    kind u = true ->
    pre ++ u :: post = a ++ u0 :: b ->
    pre = a /\ u = u0 /\ post = b.
Proof.
  intros Ha Hb Hu0. induction Ha as [|y a Hy Ha IH]; intros pre u post Hu E.
  - destruct pre as [|x pre]; cbn in E.
    + injection E as -> ->. repeat split.
    + injection E as -> E. exfalso.
      rewrite List.Forall_forall in Hb.
      assert (Hin : In u b) by (rewrite <- E; apply in_elt).
      specialize (Hb u Hin). congruence.
  - destruct pre as [|x pre]; cbn in E.
    + injection E as -> _. congruence.
    + injection E as -> E. destruct (IH pre u post Hu E) as (-> & -> & ->).
      repeat split.
Qed.

Lemma path_sent (w : world) (idx : nat) (r : row) x d u v res :
  sent (path_of w idx r) = Some (x, d, u, v, res) ->
  is_None x = false /\
  calculate_value_to_add r = Return (d, u) /\
  float_is_zero d = false /\
  add_float x d = Return v /\
  res = update_meter (update_reply w idx (identifier r) v).
Proof.
  unfold path_of.
  destruct (negb (has_identifier r)); [discriminate|].
  destruct (marked_ok r); [discriminate|].
  destruct (get_meter_value _) as [x'|e]; [|discriminate].
  destruct (is_None x') eqn:Hn; [discriminate|].
  destruct (calculate_value_to_add r) as [[d' u']|e]; [|discriminate].
  destruct (float_is_zero d') eqn:Hz; [discriminate|].
  destruct (add_float x' d') as [v'|e] eqn:Hadd; [|discriminate].
  destruct (update_meter _) as [[[|] m]|e] eqn:Hu; cbn [sent];
    intros E; injection E as <- <- <- <- <-; repeat split; assumption || now symmetry.
Qed.

Lemma events_of_updates (total_rows idx : nat) (r : row) (c : counters) (p : path) :
  (sent p = None /\
   Forall (fun e => is_update_call e = false) (events_of total_rows idx r c p))
  \/ exists x d u v res tail,
       sent p = Some (x, d, u, v, res) /\
       events_of total_rows idx r c p =
         (row_head total_rows idx r c x ++ [Log (LogSum x d v u)])
           ++ CallUpdateMeter (identifier r) v res :: tail /\
       Forall (fun e => is_update_call e = false) tail.
Proof.
  destruct p; cbn [sent events_of];
    try (left; split; [reflexivity | unfold row_head; cbn; repeat constructor]).
  - right. exists contador, valor, unidad, nuevo, (Raise e), [].
    split; [reflexivity|]. split; [now rewrite <- app_assoc | constructor].
  - right. exists contador, valor, unidad, nuevo, (Return (true, m)),
      [Log LogUpdated; CallMarkStatus idx (lit "OK"); Stats (incr_successful c)].
    split; [reflexivity|]. split; [now rewrite <- !app_assoc | repeat constructor].
  - right. exists contador, valor, unidad, nuevo, (Return (false, m)),
      [Log (LogUpdateFailed m); Stats (incr_failed c)].
    split; [reflexivity|]. split; [now rewrite <- !app_assoc | repeat constructor].
Qed.

Section UpdatesFollowLookups.

Variable w : world.
Variable rows_at : nat -> option row.
Variable total_rows : nat.

Lemma follow_none (ev : list event) :
  Forall (fun e => is_update_call e = false) ev ->
  updates_follow_lookups w rows_at total_rows ev.
Proof.
  intros H pre s v res post E. exfalso.
  rewrite List.Forall_forall in H.
  assert (Hin : In (CallUpdateMeter s v res) ev) by (rewrite E; apply in_elt).
  specialize (H _ Hin). discriminate.
Qed.

Lemma follow_app (a b : list event) :
  updates_follow_lookups w rows_at total_rows a ->
  updates_follow_lookups w rows_at total_rows b ->
  updates_follow_lookups w rows_at total_rows (a ++ b).
Proof.
  intros Ha Hb pre s v res post E.
  apply app_eq_app in E. destruct E as [l [[E1 E2] | [E1 E2]]].
  - destruct l as [|x l]; cbn in E2.
    + rewrite app_nil_r in E1. subst pre.
      destruct (Hb [] s v res post (eq_sym E2))
        as (j & r & c & x & d & u & pre' & _ & _ & Hp & _).
      exfalso. destruct pre'; cbn in Hp; discriminate.
    + injection E2 as <- ->. exact (Ha pre s v res l E1).
  - subst pre.
    destruct (Hb l s v res post E2)
      as (j & r & c & x & d & u & pre' & Hr & Hs & Hp & Hrest).
    exists j, r, c, x, d, u, (a ++ pre').
    split; [exact Hr|]. split; [exact Hs|]. split; [|exact Hrest].
    rewrite Hp. now rewrite <- app_assoc.
Qed.

Lemma follow_row (idx : nat) (r : row) (c : counters) :
  rows_at idx = Some r ->
  updates_follow_lookups w rows_at total_rows
    (events_of total_rows idx r c (path_of w idx r)).
Proof.
  intros Hr.
  destruct (events_of_updates total_rows idx r c (path_of w idx r))
    as [[_ H] | (x & d & u & v & res & tail & Hs & -> & Htail)].
  { now apply follow_none. }
  destruct (path_sent w idx r x d u v res Hs) as (Hn & Hc & Hz & Ha & Hres).
  intros pre s v' res' post E.
  assert (Hhead : Forall (fun e => is_update_call e = false)
                    (row_head total_rows idx r c x ++ [Log (LogSum x d v u)]))
    by (unfold row_head; cbn; repeat constructor).
  destruct (split_unique is_update_call _ _ (CallUpdateMeter (identifier r) v res)
              Hhead Htail eq_refl pre (CallUpdateMeter s v' res') post eq_refl
              (eq_sym E)) as (-> & Hev & ->).
  injection Hev as -> -> ->.
  exists idx, r, c, x, d, u, []. repeat split; assumption.
Qed.

Lemma follow_iterrows :
  forall (rows : list row) (idx : nat) (c : counters),
    (forall k, nth_error rows k = rows_at (idx + k)%nat) ->
    updates_follow_lookups w rows_at total_rows (fst (iterrows w total_rows idx rows c)).
Proof.
  induction rows as [|r rest IH]; intros idx c Hrows.
  { apply follow_none. constructor. }
  assert (Hr : rows_at idx = Some r).
  { specialize (Hrows 0%nat). cbn in Hrows. now rewrite Nat.add_0_r in Hrows. }
  rewrite iterrows_step.
  destruct (after c (path_of w idx r)) as [c'|e]; cbn [fst].
  - apply follow_app; [now apply follow_row|].
    apply IH. intros k. specialize (Hrows (S k)). cbn in Hrows.
    rewrite Hrows. f_equal. lia.
  - now apply follow_row.
Qed.

End UpdatesFollowLookups.

(** X6. Every call of [update_meter] in a run is made for a row of the
    report with the identifier of that row, directly after the lookup of
    the meter of that row, which returned a reading, and the line of the
    sum; the value sent is the sum of that reading and of the delta the
    calculator gave for the row, and this delta is not 0. *)
Theorem update_follows_lookup (w : world) (api : FracttalAPI) (rows : list row) :
  report w = Return rows ->
  forall pre s v res post,
    run w api = pre ++ CallUpdateMeter s v res :: post ->
    exists j r c x d u pre',
      nth_error rows j = Some r /\ identifier r = s /\
      pre = pre' ++ [Progress (j + 1) (length rows); Stats c;
                     Log (LogRow s (category r));
                     CallGetMeter s (Return x);
                     Log (LogSum x d v u)] /\
      is_None x = false /\
      calculate_value_to_add r = Return (d, u) /\
      float_is_zero d = false /\
      add_float x d = Return v /\
      res = update_meter (update_reply w j s v).
Proof.
  intros Hr.
  assert (H : updates_follow_lookups w (nth_error rows) (length rows) (run w api)).
  { unfold run.
    destruct (authenticate api (auth_reply w)) as [[[|] api']|e] eqn:Ha.
    - rewrite (run_body_loaded w api api' rows Ha Hr).
      pose proof (follow_iterrows w (nth_error rows) (length rows) rows 0 zero_counters
                    (fun k => eq_refl)) as Hi.
      destruct (snd (iterrows w (length rows) 0 rows zero_counters)) as [c|e].
      + apply follow_app; [apply follow_none; repeat constructor|].
        apply follow_app; [exact Hi | apply follow_none; repeat constructor].
      + apply follow_app; [|apply follow_none; repeat constructor].
        apply follow_app; [apply follow_none; repeat constructor | exact Hi].
    - unfold run_body, api_authenticate, call. rewrite Ha.
      apply follow_none. repeat constructor.
    - unfold run_body, api_authenticate, call. rewrite Ha.
      apply follow_none. repeat constructor. }
  intros pre s v res post E.
  destruct (H pre s v res post E) as (j & r & c & x & d & u & pre' & Hj & Hs & Hp & Hrest).
  exists j, r, c, x, d, u, pre'. split; [exact Hj|]. split; [exact Hs|].
  split; [|exact Hrest].
  rewrite Hp. unfold row_head. rewrite Hs. reflexivity.
Qed.

Lemma update_follows_lookup_witness :
  let rows := [vehicle_row "" "Camiones" "70"; vehicle_row "ER-1022" "Camiones" "50"] in
  let w := steady_world rows (JInt 1000) in
  let api := init (lit "key") (lit "secret") in
  let pre := run_prefix 2 ++
             [Progress 1 2; Progress 2 2; Stats zero_counters;
              Log (LogRow (lit "ER-1022") (lit "Camiones"));
              CallGetMeter (lit "ER-1022") (Return (JInt 1000));
              Log (LogSum (JInt 1000) (round_Z 50) (round_Z 1050) (lit "Km"))] in
  let post := [Log LogUpdated; CallMarkStatus 1 (lit "OK");
               Stats (incr_successful zero_counters)]
              ++ run_suffix (incr_successful zero_counters) in
  report w = Return rows /\
  run w api = pre ++ CallUpdateMeter (lit "ER-1022") (round_Z 1050)
                       (Return (true, MsgUpdated)) :: post /\
  exists j r, nth_error rows j = Some r /\ identifier r = lit "ER-1022".
Proof.
  intros rows w api pre post.
  assert (Hr : report w = Return rows) by reflexivity.
  assert (E : run w api = pre ++ CallUpdateMeter (lit "ER-1022") (round_Z 1050)
                                   (Return (true, MsgUpdated)) :: post)
    by (vm_compute; reflexivity).
  split; [exact Hr|]. split; [exact E|].
  destruct (update_follows_lookup w api rows Hr _ _ _ _ _ E)
    as (j & r & _ & _ & _ & _ & _ & Hj & Hs & _).
  exists j, r. split; [exact Hj | exact Hs].
Defined.

(** ** Running again over a marked report *)

Lemma iterrows_all_marked (w : world) (total_rows : nat) :
  forall (rows : list row) (idx : nat) (c : counters),
    Forall (fun r => marked_ok r = true) rows ->
    snd (iterrows w total_rows idx rows c) =
      Return {| successful := successful c; failed := failed c; skipped := skipped c;
                already_processed :=
                  already_processed c + length (List.filter has_identifier rows) |}
    /\ Forall (fun e => is_quiet e = true) (fst (iterrows w total_rows idx rows c)).
Proof.
  induction rows as [|r rest IH]; intros idx c Hall.
  { cbn. rewrite Nat.add_0_r. destruct c. split; [reflexivity | constructor]. }
  inversion Hall as [|r' rest' Hok Hrest]; subst.
  rewrite iterrows_step. cbn [List.filter].
  destruct (path_kind w idx r) as [[Hid Hp] | [(Hid & _ & Hp) | (_ & Hno & _)]];
    [| |congruence]; rewrite Hp, Hid; cbn [after fst snd events_of].
  - destruct (IH (S idx) c Hrest) as [H1 H2]. split; [exact H1|].
    constructor; [reflexivity | exact H2].
  - destruct (IH (S idx) (incr_already_processed c) Hrest) as [H1 H2]. split.
    + rewrite H1. cbn. do 2 f_equal. lia.
    + repeat (constructor; [reflexivity|]). exact H2.
Qed.

(** X7. A run over a report in which every row is already marked [OK] gets to
    the end of the rows without a lookup, an update or a status written:
    the rows that have an identifier are all counted as already processed
    and the three other counters stay at 0. *)
Theorem marked_report_is_left_alone
    (w : world) (api api' : FracttalAPI) (rows : list row) :
  authenticate api (auth_reply w) = Return (true, api') ->
  report w = Return rows ->
  Forall (fun r => marked_ok r = true) rows ->
  final_counters w api =
    Some {| successful := 0; failed := 0; skipped := 0;
            already_processed := length (List.filter has_identifier rows) |}
  /\ Forall (fun e => is_remote_call e = false /\ is_mark e = false) (run w api).
Proof.
  intros Ha Hr Hall.
  destruct (iterrows_all_marked w (length rows) rows 0 zero_counters Hall) as [H1 H2].
  unfold final_counters, run. rewrite (run_body_loaded w api api' rows Ha Hr), H1.
  split; [reflexivity|].
  assert (Hq : forall ev, Forall (fun e => is_quiet e = true) ev ->
                 Forall (fun e => is_remote_call e = false /\ is_mark e = false) ev).
  { intros ev Hev. eapply List.Forall_impl; [|exact Hev].
    intros e He. unfold is_quiet in He.
    apply andb_prop in He. destruct He as [A B].
    split; now apply negb_true_iff. }
  apply Forall_app. split; [repeat constructor|].
  apply Forall_app. split; [now apply Hq | repeat constructor].
Qed.

Lemma marked_report_is_left_alone_witness :
  let rows := [<[col_estado := lit "ok"]> (vehicle_row "ER-1022" "Camiones" "50");
               <[col_estado := lit " OK "]> (vehicle_row "" "Camiones" "70")] in
  let w := steady_world rows (JInt 1000) in
  let api := init (lit "key") (lit "secret") in
  Forall (fun r => marked_ok r = true) rows /\
  final_counters w api =
    Some {| successful := 0; failed := 0; skipped := 0; already_processed := 1 |}.
Proof.
  intros rows w api.
  assert (Ha : authenticate api (auth_reply w)
               = Return (true, set_token api (JStr (lit "token")))) by reflexivity.
  assert (Hr : report w = Return rows) by reflexivity.
  assert (Hall : Forall (fun r => marked_ok r = true) rows)
    by (repeat constructor; vm_compute; reflexivity).
  split; [exact Hall|].
  exact (proj1 (marked_report_is_left_alone w api _ rows Ha Hr Hall)).
Defined.

(* ===================================================================== *)
(** * More on the client                                                  *)
(* ===================================================================== *)

Import Replies.

(** ** What [response.json()] does *)











(** ** Runs that no exception ends *)







(* ===================================================================== *)
(** * More on the calculator                                              *)
(* ===================================================================== *)

Import Signs.

(** ** Doubles without minus sign *)

Lemma unsigned_not_below_zero (x : float) : unsigned x -> below_zero x = false.
Proof. destruct x as [s|s| |s m e]; cbn; intros H; subst; reflexivity. Qed.

Lemma round_aux_unsigned (m e : Z) (l : location) :
  unsigned (binary_round_aux prec emax false m e l).
Proof.
  unfold binary_round_aux.
  destruct (shr_fexp prec emax m e l) as [mrs e'].
  destruct (shr_fexp prec emax _ e' loc_Exact) as [mrs' e''].
  destruct (shr_m mrs') as [|p|p]; [reflexivity| |exact I].
  destruct (e'' <=? emax - prec); reflexivity.
Qed.

Lemma round_Z_unsigned (n : Z) : 0 <= n -> unsigned (round_Z n).
Proof.
  unfold round_Z, binary_normalize. destruct n as [|p|p]; [reflexivity| |lia].
  intros _. unfold binary_round.
  destruct (shl_align p 0 _) as [mz ez]. apply round_aux_unsigned.
Qed.

Lemma round_quotient_unsigned (a b : Z) :
  0 < a -> 0 < b -> unsigned (round_quotient a b).
Proof.
  intros Ha Hb. unfold round_quotient.
  replace (a <? 0) with false by (symmetry; apply Z.ltb_ge; lia).
  replace (b <? 0) with false by (symmetry; apply Z.ltb_ge; lia).
  cbn [SFdiv].
  destruct (SFdiv_core_binary prec emax _ 0 _ 0) as [[mz ez] lz].
  apply round_aux_unsigned.
Qed.

Lemma fadd_unsigned (x y : float) : unsigned x -> unsigned y -> unsigned (fadd x y).
Proof.
  destruct x as [sx|sx| |sx mx ex], y as [sy|sy| |sy my ey];
    intros Hx Hy; cbn in Hx, Hy; subst; cbn; try reflexivity; try exact I.
  destruct (shl_align mx ex (Z.min ex ey)) as [a ea].
  destruct (shl_align my ey (Z.min ex ey)) as [b eb].
  cbn [fst]. change (Z.pos a + Z.pos b) with (Z.pos (a + b)).
  cbn [binary_normalize]. unfold binary_round.
  destruct (shl_align (a + b)%positive _ _) as [mz ez].
  apply round_aux_unsigned.
Qed.

(** ** Texts without minus sign *)

Lemma is_digit_range (c : Z) : is_digit c = true -> 48 <= c <= 57.
Proof. unfold is_digit. intros H. apply andb_prop in H. lia. Qed.

Lemma digits_value_nonneg (d : str) :
  Forall (fun c => is_digit c = true) d -> 0 <= digits_value d.
Proof.
  unfold digits_value.
  assert (H : forall d acc, Forall (fun c => is_digit c = true) d -> 0 <= acc ->
                0 <= fold_left (fun acc c => 10 * acc + (c - 48)) d acc).
  { clear d. induction d as [|c d IH]; intros acc Hd Hacc; [exact Hacc|].
    inversion Hd as [|c' d' Hc Hd']; subst. cbn. apply IH; [exact Hd'|].
    apply is_digit_range in Hc. lia. }
  intros Hd. apply H; [exact Hd | lia].
Qed.

Lemma span_digits_digits (s : str) :
  Forall (fun c => is_digit c = true) (fst (span_digits s)).
Proof.
  induction s as [|c s IH]; [constructor|].
  cbn. destruct (is_digit c) eqn:Hc; [|constructor].
  destruct (span_digits s) as [d r]. cbn in *. now constructor.
Qed.

Lemma span_int_digits_digits (s : str) :
  forall b d r, span_int_digits b s = Some (d, r) ->
                Forall (fun c => is_digit c = true) d.
Proof.
  induction s as [|c s IH]; intros b d r; cbn.
  { destruct b; [discriminate|]. intros E. injection E as <- <-. constructor. }
  destruct (is_digit c) eqn:Hc.
  - destruct (span_int_digits false s) as [[d' r']|] eqn:E'; [|discriminate].
    intros E. injection E as <- <-. constructor; [exact Hc | now apply (IH false d' r')].
  - destruct (c =? 95).
    + destruct b; [discriminate|]. apply IH.
    + destruct b; [discriminate|]. intros E. injection E as <- <-. constructor.
Qed.

Lemma to_ascii_char_minus (c : Z) : to_ascii_char c = minus -> c = minus.
Proof.
  unfold to_ascii_char, minus. destruct (c <? 127); [auto|].
  destruct (isspace c); [discriminate|].
  unfold to_decimal.
  destruct (find _ decimal_zeros) as [z|] eqn:Hf; [|discriminate].
  apply find_some in Hf. destruct Hf as [_ Hz]. apply andb_prop in Hz. lia.
Qed.

Lemma to_ascii_minus (s : str) : In minus (to_ascii s) -> In minus s.
Proof.
  unfold to_ascii. rewrite in_map_iff. intros (c & Hc & Hin).
  apply to_ascii_char_minus in Hc. now subst.
Qed.

Lemma skip_c_space_in (x : Z) (s : str) : In x (skip_c_space s) -> In x s.
Proof.
  induction s as [|c s IH]; [auto|]. cbn.
  destruct (c_isspace c); [right; now apply IH | auto].
Qed.

Lemma c_strip_in (x : Z) (s : str) : In x (c_strip s) -> In x s.
Proof.
  unfold c_strip. intros H. apply in_rev in H. apply skip_c_space_in in H.
  apply in_rev in H. now apply skip_c_space_in in H.
Qed.

Lemma lstrip_in (x : Z) (s : str) : In x (lstrip s) -> In x s.
Proof.
  induction s as [|c s IH]; [auto|]. cbn.
  destruct (isspace c); [right; now apply IH | auto].
Qed.

Lemma strip_in (x : Z) (s : str) : In x (strip s) -> In x s.
Proof.
  unfold strip, rstrip. intros H. apply in_rev in H. apply lstrip_in in H.
  apply in_rev in H. now apply lstrip_in in H.
Qed.

Lemma drop_underscores_in (x : Z) (s : str) :
  forall prev t, drop_underscores prev s = Some t -> In x t -> In x s.
Proof.
  induction s as [|c s IH]; intros prev t; cbn.
  { destruct (prev =? 95); [discriminate|]. intros E. now injection E as <-. }
  destruct (c =? 95).
  - destruct (is_digit prev); [|discriminate]. intros E Hin. right. eapply IH; eassumption.
  - destruct ((prev =? 95) && negb (is_digit c)); [discriminate|].
    destruct (drop_underscores c s) as [t'|] eqn:E'; [|discriminate].
    intros E. injection E as <-. intros [-> | Hin]; [now left|].
    right. eapply IH; eassumption.
Qed.

Lemma replace_minus (s : str) : In minus (replace comma point s) -> In minus s.
Proof.
  unfold replace. rewrite in_map_iff. intros (c & Hc & Hin).
  destruct (c =? comma); [discriminate|]. now subst.
Qed.

Lemma cut_in (x : Z) (s : str) :
  forall a b, cut colon s = Some (a, b) -> (In x a \/ In x b) -> In x s.
Proof.
  induction s as [|c s IH]; intros a b; cbn; [discriminate|].
  destruct (c =? colon).
  - intros E. injection E as <- <-. intros [[] | H]. now right.
  - destruct (cut colon s) as [[a' b']|] eqn:E'; [|discriminate].
    intros E. injection E as <- <-. intros [[-> | H] | H]; [now left | |];
      right; apply (IH a' b' eq_refl); tauto.
Qed.

Lemma take_sign_unsigned (s : str) :
  ~ In minus s ->
  fst (take_sign s) = false /\ (forall x, In x (snd (take_sign s)) -> In x s).
Proof.
  unfold take_sign, minus. intros H.
  destruct s as [|c s]; [split; auto|].
  assert (Hc : c <> 45) by (intros ->; apply H; now left).
  destruct c as [|p|p];
    try (split; [reflexivity | intros x Hx; first [exact Hx | right; exact Hx]]).
  do 6 (destruct p as [p|p|];
        try (split; [reflexivity | intros x Hx; first [exact Hx | right; exact Hx]]));
    congruence.
Qed.

Lemma decimal_to_float_unsigned (m e : Z) :
  0 <= m -> unsigned (decimal_to_float false m e).
Proof.
  intros Hm. unfold decimal_to_float.
  destruct (m =? 0) eqn:Hz; [reflexivity|]. apply Z.eqb_neq in Hz.
  destruct (0 <=? e) eqn:He.
  - apply Z.leb_le in He. apply round_Z_unsigned.
    apply Z.mul_nonneg_nonneg; [exact Hm | now apply Z.pow_nonneg].
  - apply Z.leb_gt in He. apply round_quotient_unsigned; [lia|].
    apply Z.pow_pos_nonneg; lia.
Qed.

Lemma fraction_digits (r : str) :
  Forall (fun c => is_digit c = true)
    (fst (match r with 46 :: t0 => span_digits t0 | _ => ([], r) end)).
Proof.
  destruct r as [|c r0]; cbn; [constructor|].
  destruct c as [|p|p]; cbn; try constructor.
  do 6 (destruct p as [p|p|]; cbn; try constructor).
  apply span_digits_digits.
Qed.

Lemma float_of_str_unsigned (s : str) (x : float) :
  ~ In minus s -> float_of_str s = Return x -> unsigned x.
Proof.
  intros Hs. unfold float_of_str.
  destruct (drop_underscores 0 (to_ascii s)) as [t|] eqn:Ht; [|discriminate].
  assert (Hstrip : ~ In minus (c_strip t)).
  { intros H. apply Hs. apply to_ascii_minus.
    apply (drop_underscores_in minus _ _ _ Ht). now apply c_strip_in. }
  unfold parse_float_body.
  destruct (take_sign_unsigned _ Hstrip) as [Hneg _].
  destruct (take_sign (c_strip t)) as [neg rest]. cbn in Hneg. subst neg.
  destruct (str_eqb (map lower_ascii rest) (lit "inf")
            || str_eqb (map lower_ascii rest) (lit "infinity")).
  { intros E. injection E as <-. reflexivity. }
  destruct (str_eqb (map lower_ascii rest) (lit "nan")).
  { intros E. injection E as <-. exact I. }
  unfold parse_decimal.
  pose proof (span_digits_digits rest) as Hip.
  destruct (span_digits rest) as [ip r]. cbn [fst] in Hip.
  pose proof (fraction_digits r) as Hfp.
  destruct (match r with 46 :: t0 => span_digits t0 | _ => ([], r) end) as [fp r'].
  cbn [fst] in Hfp.
  destruct (ip ++ fp) as [|c0 l0] eqn:Hd; [discriminate|].
  destruct (parse_exponent r') as [e|]; [|discriminate].
  intros E. injection E as <-.
  apply decimal_to_float_unsigned. apply digits_value_nonneg.
  rewrite <- Hd. apply Forall_app. split; assumption.
Qed.

Lemma int_of_str_nonneg (s : str) (n : Z) :
  ~ In minus s -> int_of_str s = Return n -> 0 <= n.
Proof.
  intros Hs. unfold int_of_str.
  assert (H : ~ In minus (skip_c_space (to_ascii s))).
  { intros H. apply Hs. apply to_ascii_minus. now apply skip_c_space_in. }
  destruct (take_sign_unsigned _ H) as [Hneg _].
  destruct (take_sign (skip_c_space (to_ascii s))) as [neg body]. cbn in Hneg. subst neg.
  destruct body as [|c body]; [discriminate|].
  destruct (is_digit c); [|discriminate].
  destruct (span_int_digits false (c :: body)) as [[d rest]|] eqn:Hd; [|discriminate].
  destruct (negb (length d <=? int_max_str_digits)%nat); [discriminate|].
  destruct (skip_c_space rest); [|discriminate].
  intros E. injection E as <-. apply digits_value_nonneg.
  exact (span_int_digits_digits _ _ _ _ Hd).
Qed.

Lemma time_fields_in (x : Z) (t : str) :
  (In x (fst (time_fields t)) -> In x t) /\
  (forall mm, snd (time_fields t) = Some mm -> In x mm -> In x t).
Proof.
  unfold time_fields.
  destruct (cut colon t) as [[h rest]|] eqn:E; cbn [fst snd].
  - split.
    + intros H. apply (cut_in x t h rest E). now left.
    + intros mm Hmm Hin. injection Hmm as <-.
      apply (cut_in x t h rest E). right.
      destruct (cut colon rest) as [[mm' rest']|] eqn:E'; [|exact Hin].
      apply (cut_in x rest mm' rest' E'). now left.
  - split; [auto | discriminate].
Qed.

(** X13. The calculator returns a delta below zero only for a distance, or a
    running time, that is written with a minus sign. *)
Theorem delta_below_zero_needs_minus_sign (r : row) (d : float) (u : str) :
  ~ In minus (distance r) ->
  ~ In minus (running_time r) ->
  calculate_value_to_add r = Return (d, u) ->
  below_zero d = false.
Proof.
  intros Hkm Ht. unfold calculate_value_to_add. fold (distance r) (running_time r).
  destruct (str_eqb _ (lit "Flota Liviana") || str_eqb _ (lit "Camiones")).
  { rewrite km_branch. unfold float_of_distance.
    destruct (float_of_str (replace comma point (distance r))) as [x|e] eqn:E;
      intros H; injection H as <- _; apply unsigned_not_below_zero; [|reflexivity].
    apply (float_of_str_unsigned _ _ (fun H => Hkm (replace_minus _ H)) E). }
  destruct (str_eqb _ (lit "Maquinarias")).
  2: { intros H. injection H as <- _. reflexivity. }
  rewrite hours_of_parts_split.
  destruct (time_fields_in minus (running_time r)) as [Hh Hm].
  destruct (int_of_str (fst (time_fields (running_time r)))) as [horas|e1] eqn:E1.
  2: { rewrite (int_of_str_raises _ _ E1). intros H. injection H as <- _. reflexivity. }
  pose proof (int_of_str_nonneg _ _ (fun H => Ht (Hh H)) E1) as Hhoras.
  cbn [bind].
  assert (Hmin : forall minutos,
            match snd (time_fields (running_time r)) with
            | Some mm => int_of_str mm
            | None => Return 0
            end = Return minutos -> 0 <= minutos).
  { intros minutos. destruct (snd (time_fields (running_time r))) as [mm|] eqn:Emm.
    - intros E. apply (int_of_str_nonneg mm); [|exact E].
      intros H. apply Ht. now apply (Hm mm).
    - intros E. injection E as <-. lia. }
  destruct (match snd (time_fields (running_time r)) with
            | Some mm => int_of_str mm
            | None => Return 0
            end) as [minutos|e2] eqn:E2.
  2: { assert (e2 = ValueError).
       { destruct (snd (time_fields (running_time r)));
           [now apply int_of_str_raises in E2 | discriminate]. }
       subst e2. intros H. injection H as <- _. reflexivity. }
  specialize (Hmin minutos eq_refl). cbn [bind].
  unfold int_truediv. change (60 =? 0) with false. cbv iota.
  unfold int_add_float, float_of_int.
  assert (Hsum : forall q, unsigned q -> unsigned (fadd (round_Z horas) q)).
  { intros q Hq. apply fadd_unsigned; [now apply round_Z_unsigned | exact Hq]. }
  destruct (minutos =? 0) eqn:Hz.
  - cbn [bind].
    destruct (is_infinite (round_Z horas));
      cbn [bind try_except caught_by_time_parser]; [discriminate|].
    intros H. injection H as <- _. apply unsigned_not_below_zero.
    apply Hsum. reflexivity.
  - apply Z.eqb_neq in Hz.
    destruct (is_infinite (round_quotient minutos 60));
      cbn [bind try_except caught_by_time_parser]; [discriminate|].
    destruct (is_infinite (round_Z horas));
      cbn [bind try_except caught_by_time_parser]; [discriminate|].
    intros H. injection H as <- _. apply unsigned_not_below_zero.
    apply Hsum. apply round_quotient_unsigned; lia.
Qed.

Lemma delta_below_zero_needs_minus_sign_witness :
  let r := machine_row "EX-7" "1:45" in
  ~ In minus (distance r) /\ ~ In minus (running_time r) /\
  calculate_value_to_add r = Return (round_quotient 7 4, lit "Horas") /\
  below_zero (round_quotient 7 4) = false.
Proof.
  intros r.
  assert (H1 : ~ In minus (distance r)) by (vm_compute; intuition discriminate).
  assert (H2 : ~ In minus (running_time r)) by (vm_compute; intuition discriminate).
  assert (H3 : calculate_value_to_add r = Return (round_quotient 7 4, lit "Horas"))
    by (vm_compute; reflexivity).
  split; [exact H1|]. split; [exact H2|]. split; [exact H3|].
  exact (delta_below_zero_needs_minus_sign r _ _ H1 H2 H3).
Defined.

(** ** Readings of 0 and distances that are not numbers *)

Lemma fadd_zero_left (z d : float) :
  float_is_zero z = true -> float_is_zero d = false -> fadd z d = d.
Proof.
  destruct z as [sz|sz| |sz mz ez]; cbn; try discriminate;
    try (destruct sz; discriminate).
  intros _. destruct d as [sd|sd| |sd md ed]; cbn; try reflexivity; discriminate.
Qed.

Lemma fadd_nan_right (x : float) : fadd x S754_nan = S754_nan.
Proof. now destruct x. Qed.

(** X14. A reading of 0 is a reading: when the lookup of a row returns 0
    (as a number of any kind), the row is not counted as without meter,
    and [update_meter] is called with the delta of the row itself. *)
Theorem zero_reading_is_updated
    (w : world) (total_rows idx : nat) (r : row) (c : counters)
    (x : json) (zero d : float) (u : str) :
  has_identifier r = true ->
  marked_ok r = false ->
  get_meter_value (meter_reply w idx (identifier r)) = Return x ->
  reading x = Some zero ->
  float_is_zero zero = true ->
  calculate_value_to_add r = Return (d, u) ->
  float_is_zero d = false ->
  In (CallUpdateMeter (identifier r) d
        (update_meter (update_reply w idx (identifier r) d)))
     (fst (process_row w total_rows idx r c))
  /\ ~ In (Log LogNoMeter) (fst (process_row w total_rows idx r c)).
Proof.
  intros Hid Hok Hget Hread Hzero Hcalc Hd.
  destruct (reading_adds x zero d Hread) as [Hnone Hadd].
  rewrite (fadd_zero_left zero d Hzero Hd) in Hadd.
  rewrite process_row_path. unfold path_of.
  rewrite Hid, Hok, Hget, Hnone, Hcalc, Hd, Hadd. cbn [negb fst].
  destruct (update_meter (update_reply w idx (identifier r) d)) as [[[|] m]|e];
    cbn [events_of row_head app]; split;
    try (cbn; intuition discriminate); cbn; tauto.
Qed.

Lemma zero_reading_is_updated_witness :
  let r := vehicle_row "ER-1022" "Camiones" "50" in
  let w := steady_world [r] (JInt 0) in
  has_identifier r = true /\ marked_ok r = false /\
  reading (JInt 0) = Some fzero /\
  In (CallUpdateMeter (lit "ER-1022") (round_Z 50) (Return (true, MsgUpdated)))
     (fst (process_row w 1 0 r zero_counters)).
Proof.
  intros r w.
  assert (H1 : has_identifier r = true) by (vm_compute; reflexivity).
  assert (H2 : marked_ok r = false) by (vm_compute; reflexivity).
  assert (H3 : get_meter_value (meter_reply w 0 (identifier r)) = Return (JInt 0))
    by (vm_compute; reflexivity).
  assert (H4 : reading (JInt 0) = Some fzero) by (vm_compute; reflexivity).
  assert (H5 : float_is_zero fzero = true) by reflexivity.
  assert (H6 : calculate_value_to_add r = Return (round_Z 50, lit "Km"))
    by (vm_compute; reflexivity).
  assert (H7 : float_is_zero (round_Z 50) = false) by (vm_compute; reflexivity).
  split; [exact H1|]. split; [exact H2|]. split; [exact H4|].
  exact (proj1 (zero_reading_is_updated w 1 0 r zero_counters (JInt 0) fzero
                  (round_Z 50) (lit "Km") H1 H2 H3 H4 H5 H6 H7)).
Defined.

(** X15. A vehicle whose distance cell is empty is not skipped: the text of
    the cell is [nan], the delta is NaN, which is not equal to 0, and
    [update_meter] is called with NaN whatever the reading of the
    meter.  The call returns false with the exception of [requests]: a
    NaN has no JSON encoding, so that nothing is sent; the row is counted
    as failed. *)
Theorem empty_distance_is_sent_as_nan
    (w : world) (total_rows idx : nat) (r : row) (c : counters)
    (x : json) (current : float) :
  has_identifier r = true ->
  marked_ok r = false ->
  category r = lit "Flota Liviana" \/ category r = lit "Camiones" ->
  distance r = lit "nan" ->
  get_meter_value (meter_reply w idx (identifier r)) = Return x ->
  reading x = Some current ->
  calculate_value_to_add r = Return (S754_nan, lit "Km")
  /\ In (CallUpdateMeter (identifier r) S754_nan
           (update_meter (update_reply w idx (identifier r) S754_nan)))
        (fst (process_row w total_rows idx r c))
  /\ ~ In (Log LogZeroValue) (fst (process_row w total_rows idx r c))
  /\ update_meter (update_reply w idx (identifier r) S754_nan)
     = Return (false, MsgException InvalidJSONError)
  /\ snd (process_row w total_rows idx r c) = Return (incr_failed c).
Proof.
  intros Hid Hok Hcat Hkm Hget Hread.
  assert (Hcalc : calculate_value_to_add r = Return (S754_nan, lit "Km")).
  { unfold calculate_value_to_add. fold (category r) (distance r).
    assert (Hc : str_eqb (category r) (lit "Flota Liviana")
                 || str_eqb (category r) (lit "Camiones") = true).
    { destruct Hcat as [-> | ->]; reflexivity. }
    rewrite Hc, Hkm. reflexivity. }
  split; [exact Hcalc|].
  destruct (reading_adds x current S754_nan Hread) as [Hnone Hadd].
  rewrite fadd_nan_right in Hadd.
  assert (Hput : update_meter (update_reply w idx (identifier r) S754_nan)
                 = Return (false, MsgException InvalidJSONError)) by reflexivity.
  rewrite process_row_path. unfold path_of.
  rewrite Hid, Hok, Hget, Hnone, Hcalc, Hadd. cbn [negb fst float_is_zero].
  change (float_is_zero S754_nan) with false. cbv iota.
  rewrite Hput. cbn [events_of row_head app fst snd after].
  split; [cbn; tauto|]. split; [cbn; intuition discriminate|].
  split; reflexivity.
Qed.

Lemma empty_distance_is_sent_as_nan_witness :
  let r := vehicle_row "ER-1022" "Camiones" "nan" in
  let w := steady_world [r] (JInt 1000) in
  has_identifier r = true /\ marked_ok r = false /\ distance r = lit "nan" /\
  reading (JInt 1000) = Some (round_Z 1000) /\
  calculate_value_to_add r = Return (S754_nan, lit "Km").
Proof.
  intros r w.
  assert (H1 : has_identifier r = true) by (vm_compute; reflexivity).
  assert (H2 : marked_ok r = false) by (vm_compute; reflexivity).
  assert (H3 : category r = lit "Flota Liviana" \/ category r = lit "Camiones")
    by (right; vm_compute; reflexivity).
  assert (H4 : distance r = lit "nan") by (vm_compute; reflexivity).
  assert (H5 : get_meter_value (meter_reply w 0 (identifier r)) = Return (JInt 1000))
    by (vm_compute; reflexivity).
  assert (H6 : reading (JInt 1000) = Some (round_Z 1000)) by (vm_compute; reflexivity).
  split; [exact H1|]. split; [exact H2|]. split; [exact H4|]. split; [exact H6|].
  exact (proj1 (empty_distance_is_sent_as_nan w 1 0 r zero_counters (JInt 1000)
                  (round_Z 1000) H1 H2 H3 H4 H5 H6)).
Defined.

(** ** Running times with more than two fields *)

Lemma cut_app_some (a b h rest : str) :
  cut colon a = Some (h, rest) -> cut colon (a ++ b) = Some (h, rest ++ b).
Proof.
  revert h. induction a as [|c a IH]; intros h; cbn; [discriminate|].
  destruct (c =? colon).
  - intros E. now injection E as <- <-.
  - destruct (cut colon a) as [[h' r']|]; [|discriminate].
    intros E. injection E as <- <-. now rewrite (IH h' eq_refl).
Qed.

Lemma cut_app_none (a b : str) :
  cut colon a = None -> cut colon (a ++ colon :: b) = Some (a, b).
Proof.
  induction a as [|c a IH]; cbn; [reflexivity|].
  destruct (c =? colon); [discriminate|].
  destruct (cut colon a) as [[h' r']|]; [discriminate|].
  intros _. now rewrite IH.
Qed.

Lemma cut_some_of_in (a : str) : In colon a -> exists h rest, cut colon a = Some (h, rest).
Proof.
  induction a as [|c a IH]; cbn; [tauto|].
  destruct (c =? colon) eqn:Hc; [eauto|].
  intros [-> | H]; [now rewrite Z.eqb_refl in Hc|].
  destruct (IH H) as (h & rest & ->). eauto.
Qed.

Lemma time_fields_more (t more : str) :
  In colon t -> time_fields (t ++ colon :: more) = time_fields t.
Proof.
  intros H. destruct (cut_some_of_in t H) as (h & rest & E).
  unfold time_fields. rewrite (cut_app_some t _ h rest E), E. f_equal. f_equal.
  destruct (cut colon rest) as [[mm r']|] eqn:E'.
  - now rewrite (cut_app_some rest _ mm r' E').
  - now rewrite (cut_app_none rest more E').
Qed.

(** X16. What a running time has after a second colon does not count:
    [1:30:45] is read as [1:30], seconds or not. *)
Theorem running_time_after_second_colon_is_ignored (r1 r2 : row) (more : str) :
  category r1 = lit "Maquinarias" ->
  category r2 = lit "Maquinarias" ->
  In colon (running_time r2) ->
  running_time r1 = running_time r2 ++ colon :: more ->
  calculate_value_to_add r1 = calculate_value_to_add r2.
Proof.
  intros H1 H2 Hin Ht. unfold calculate_value_to_add.
  fold (category r1) (category r2) (running_time r1) (running_time r2).
  rewrite H1, H2. cbn [orb].
  change (str_eqb (lit "Maquinarias") (lit "Flota Liviana")) with false.
  change (str_eqb (lit "Maquinarias") (lit "Camiones")) with false.
  cbn [orb]. rewrite !str_eqb_refl.
  rewrite !hours_of_parts_split, Ht, (time_fields_more _ more Hin). reflexivity.
Qed.

Lemma running_time_after_second_colon_is_ignored_witness :
  let r1 := machine_row "EX-7" "1:30:45" in
  let r2 := machine_row "EX-7" "1:30" in
  In colon (running_time r2) /\
  running_time r1 = running_time r2 ++ colon :: lit "45" /\
  calculate_value_to_add r1 = calculate_value_to_add r2.
Proof.
  intros r1 r2.
  assert (H1 : category r1 = lit "Maquinarias") by (vm_compute; reflexivity).
  assert (H2 : category r2 = lit "Maquinarias") by (vm_compute; reflexivity).
  assert (H3 : In colon (running_time r2)) by (vm_compute; tauto).
  assert (H4 : running_time r1 = running_time r2 ++ colon :: lit "45")
    by (vm_compute; reflexivity).
  split; [exact H3|]. split; [exact H4|].
  exact (running_time_after_second_colon_is_ignored r1 r2 (lit "45") H1 H2 H3 H4).
Defined.

(** ** A row that raises *)

Lemma raised_after (c : counters) (p : path) :
  match raised p with
  | Some e => after c p = Raise e
  | None => exists c', after c p = Return c'
  end.
Proof. destruct p; cbn; eauto. Qed.

Lemma iterrows_raises (w : world) (total_rows : nat) :
  forall (rows : list row) (idx : nat) (c : counters) (j : nat) (r : row) (e : exn),
    nth_error rows j = Some r ->
    raised (path_of w (idx + j) r) = Some e ->
    (forall i r', (i < j)%nat -> nth_error rows i = Some r' ->
                  raised (path_of w (idx + i) r') = None) ->
    snd (iterrows w total_rows idx rows c) = Raise e /\
    fst (iterrows w total_rows idx rows c)
      = fst (iterrows w total_rows idx (firstn (S j) rows) c) /\
    progress_signals (fst (iterrows w total_rows idx rows c))
      = map (fun i => ((i + 1)%nat, total_rows)) (seq idx (S j)).
Proof.
  induction rows as [|r0 rest IH]; intros idx c j r e Hj He Hbefore.
  { destruct j; discriminate. }
  destruct j as [|j].
  - injection Hj as ->. rewrite Nat.add_0_r in He.
    change (firstn 1 (r :: rest)) with [r]. rewrite !iterrows_step.
    pose proof (raised_after c (path_of w idx r)) as Ha. rewrite He in Ha.
    rewrite Ha. cbn [fst snd]. rewrite events_of_progress.
    repeat split; reflexivity.
  - cbn [nth_error] in Hj.
    change (firstn (S (S j)) (r0 :: rest)) with (r0 :: firstn (S j) rest).
    rewrite !iterrows_step.
    pose proof (raised_after c (path_of w idx r0)) as Ha.
    assert (H0 : raised (path_of w idx r0) = None).
    { specialize (Hbefore 0%nat r0). rewrite Nat.add_0_r in Hbefore.
      apply Hbefore; [lia | reflexivity]. }
    rewrite H0 in Ha. destruct Ha as [c' Ha]. rewrite Ha. cbn [fst snd].
    destruct (IH (S idx) c' j r e Hj) as (Hs & Hf & Hp).
    + now replace (S idx + j)%nat with (idx + S j)%nat by lia.
    + intros i r' Hi Hr'.
      replace (S idx + i)%nat with (idx + S i)%nat by lia.
      apply Hbefore; [lia | exact Hr'].
    + split; [exact Hs|]. split; [now rewrite Hf|].
      rewrite progress_signals_app, events_of_progress, Hp. reflexivity.
Qed.

(** X19. The first row that raises ends the run: the rows after it are not
    visited, the run is over with the line of the error and the
    completion signal of a failure, which carries the exception, and
    there is no summary; what was done for the rows before it, statuses
    written included, is as in a run over the rows up to it. *)
Theorem raising_row_ends_the_run
    (w : world) (api api' : FracttalAPI) (rows : list row) (j : nat) (r : row) (e : exn) :
  authenticate api (auth_reply w) = Return (true, api') ->
  report w = Return rows ->
  nth_error rows j = Some r ->
  raised (path_of w j r) = Some e ->
  (forall i r', (i < j)%nat -> nth_error rows i = Some r' ->
                raised (path_of w i r') = None) ->
  final_counters w api = None /\
  run w api =
    run_prefix (length rows)
      ++ fst (iterrows w (length rows) 0 (firstn (S j) rows) zero_counters)
      ++ [Log (LogError e); Finished false (Failure e)] /\
  progress_signals (run w api)
    = map (fun i => ((i + 1)%nat, length rows)) (seq 0 (S j)).
Proof.
  intros Ha Hr Hj He Hbefore.
  destruct (iterrows_raises w (length rows) rows 0 zero_counters j r e Hj He Hbefore)
    as (Hs & Hf & Hp).
  assert (Hrun : run w api =
            run_prefix (length rows)
              ++ fst (iterrows w (length rows) 0 rows zero_counters)
              ++ [Log (LogError e); Finished false (Failure e)]).
  { unfold run. rewrite (run_body_loaded w api api' rows Ha Hr), Hs.
    now rewrite <- app_assoc. }
  split; [|split].
  - unfold final_counters. now rewrite (run_body_loaded w api api' rows Ha Hr), Hs.
  - now rewrite Hrun, Hf.
  - rewrite Hrun, !progress_signals_app, Hp.
    cbn [run_prefix progress_signals app]. now rewrite app_nil_r.
Qed.

Lemma raising_row_ends_the_run_witness :
  let rows := [vehicle_row "ER-1022" "Camiones" "50"; row_huge_hours;
               vehicle_row "ER-1023" "Camiones" "70"] in
  let w := steady_world rows (JInt 1000) in
  let api := init (lit "key") (lit "secret") in
  nth_error rows 1 = Some row_huge_hours /\
  raised (path_of w 1 row_huge_hours) = Some OverflowError /\
  final_counters w api = None /\
  progress_signals (run w api) = [(1%nat, 3%nat); (2%nat, 3%nat)].
Proof.
  intros rows w api.
  assert (Ha : authenticate api (auth_reply w)
               = Return (true, set_token api (JStr (lit "token"))))
    by (vm_compute; reflexivity).
  assert (Hr : report w = Return rows) by reflexivity.
  assert (Hj : nth_error rows 1 = Some row_huge_hours) by reflexivity.
  assert (He : raised (path_of w 1 row_huge_hours) = Some OverflowError)
    by (vm_compute; reflexivity).
  assert (Hb : forall i r', (i < 1)%nat -> nth_error rows i = Some r' ->
                            raised (path_of w i r') = None).
  { intros [|i] r' Hi E; [|lia]. injection E as <-. vm_compute. reflexivity. }
  destruct (raising_row_ends_the_run w api _ rows 1 row_huge_hours OverflowError
              Ha Hr Hj He Hb) as (H1 & _ & H3).
  split; [exact Hj|]. split; [exact He|]. split; [exact H1|]. exact H3.
Defined.

(* ===================================================================== *)
(** * The window                                                          *)
(* ===================================================================== *)

Import Window.

(** ** The signals of a run, as the window receives them *)

Lemma run_shape (w : world) (api : Api.FracttalAPI) :
  exists ev ok m,
    run w api = ev ++ [Finished ok m] /\
    Forall (fun e => is_finished e = false) ev /\
    match final_counters w api with
    | Some c =>
        ok = true /\ m = Completed (successful c) (failed c) /\
        cards_after zero_counters ev = c /\
        exists rows,
          report w = Return rows /\
          progress_signals ev
            = map (fun i => ((i + 1)%nat, length rows)) (seq 0 (length rows))
    | None => ok = false
    end.
Proof.
  unfold run, final_counters.
  destruct (Api.authenticate api (auth_reply w)) as [[[|] api']|e] eqn:Ha.
  - destruct (report w) as [rows|e] eqn:Hr.
    + rewrite (run_body_loaded w api api' rows Ha Hr).
      pose proof (iterrows_not_finished w (length rows) rows 0 zero_counters) as Hn.
      pose proof (iterrows_cards w (length rows) rows 0 zero_counters) as Hc.
      destruct (iterrows_progress w (length rows) rows 0 zero_counters)
        as (k & _ & Hp & Hk).
      destruct (snd (iterrows w (length rows) 0 rows zero_counters)) as [c|e].
      * exists (run_prefix (length rows)
                  ++ fst (iterrows w (length rows) 0 rows zero_counters)
                  ++ [Log LogBlank; Log LogRule; Log (LogSummary c)]),
               true, (Completed (successful c) (failed c)).
        split; [unfold run_suffix; now rewrite <- !app_assoc|].
        split.
        { apply Forall_app. split; [repeat constructor|].
          apply Forall_app. split; [exact Hn | repeat constructor]. }
        split; [reflexivity|]. split; [reflexivity|]. split.
        { rewrite !cards_after_app. cbn [run_prefix cards_after fold_left].
          fold (cards_after zero_counters
                  (fst (iterrows w (length rows) 0 rows zero_counters))).
          now rewrite (Hc c eq_refl). }
        exists rows. split; [reflexivity|].
        rewrite !progress_signals_app, Hp, (Hk c eq_refl). cbn [run_prefix progress_signals].
        now rewrite app_nil_r.
      * exists ((run_prefix (length rows)
                   ++ fst (iterrows w (length rows) 0 rows zero_counters))
                  ++ [Log (LogError e)]), false, (Failure e).
        split; [now rewrite <- !app_assoc|].
        split; [|reflexivity].
        apply Forall_app. split; [|repeat constructor].
        apply Forall_app. split; [repeat constructor | exact Hn].
    + unfold run_body, api_authenticate, load_excel, call. rewrite Ha, Hr.
      cbn [bind fst bindM emit ret app negb].
      exists [Log LogAuthenticating; CallAuthenticate (Return true); Log LogAuthenticated;
              Log LogLoading; CallLoadExcel; Log (LogError e)], false, (Failure e).
      split; [reflexivity|]. split; [repeat constructor | reflexivity].
  - unfold run_body, api_authenticate, call. rewrite Ha.
    cbn [bind fst bindM emit ret app negb].
    exists [Log LogAuthenticating; CallAuthenticate (Return false)], false,
           AuthenticationError.
    split; [reflexivity|]. split; [repeat constructor | reflexivity].
  - unfold run_body, api_authenticate, call. rewrite Ha.
    cbn [bind fst bindM emit ret app negb].
    exists [Log LogAuthenticating; CallAuthenticate (Raise e); Log (LogError e)], false,
           (Failure e).
    split; [reflexivity|]. split; [repeat constructor | reflexivity].
Qed.

Lemma deliver_all_app (cleared_before : nat -> bool) (a b : list event) :
  forall (k : nat) (win : window),
    deliver_all cleared_before k (a ++ b) win
    = deliver_all cleared_before (k + length a) b (deliver_all cleared_before k a win).
Proof.
  induction a as [|e a IH]; intros k win; cbn [app deliver_all length].
  - now rewrite Nat.add_0_r.
  - rewrite IH. now rewrite Nat.add_succ_r.
Qed.

(** Before the completion signal arrives, the signals of a run touch
    the cards, the bar and the log only. *)
Lemma deliver_all_quiet (cleared_before : nat -> bool) (ev : list event) :
  Forall (fun e => is_finished e = false) ev ->
  forall (k : nat) (win : window),
    let win' := deliver_all cleared_before k ev win in
    api_key win' = api_key win /\ api_secret win' = api_secret win /\
    selected_file win' = selected_file win /\ file_label win' = file_label win /\
    status_label win' = status_label win /\
    select_btn win' = select_btn win /\ start_btn win' = start_btn win /\
    dialogs win' = dialogs win /\
    shown win' = cards_after (shown win) ev.
Proof.
  induction 1 as [|e ev He _ IH]; intros k win; cbn zeta.
  { cbn. destruct win; repeat split; reflexivity. }
  cbn [deliver_all]. specialize (IH (S k)). cbn zeta in IH.
  set (win1 := deliver e (if cleared_before k then clear_log win else win)).
  destruct (IH win1) as (H1 & H2 & H3 & H4 & H5 & H6 & H7 & H8 & H9).
  rewrite H1, H2, H3, H4, H5, H6, H7, H8, H9. clear IH H1 H2 H3 H4 H5 H6 H7 H8 H9.
  subst win1. unfold cards_after. cbn [fold_left].
  destruct e as [| |c| | | | | |], (cleared_before k); try discriminate He;
    repeat split; try reflexivity; destruct c; reflexivity.
Qed.

Lemma deliver_all_bar (cleared_before : nat -> bool) (ev : list event) :
  forall (k : nat) (win : window),
    progress_bar (deliver_all cleared_before k ev win)
    = fold_left bar_step (progress_signals ev) (progress_bar win).
Proof.
  induction ev as [|e ev IH]; intros k win; [reflexivity|].
  cbn [deliver_all]. rewrite IH.
  destruct e, (cleared_before k); reflexivity.
Qed.

Lemma setMaximum_maximum (m : nat) (bar : QProgressBar) :
  maximum (setMaximum m bar) = Z.of_nat m.
Proof.
  unfold setMaximum. destruct (Z.of_nat m =? maximum bar) eqn:E; [|reflexivity].
  symmetry. now apply Z.eqb_eq.
Qed.

Lemma bar_step_in_range (bar : QProgressBar) (current total : nat) :
  (current <= total)%nat ->
  bar_step bar (current, total)
  = {| maximum := Z.of_nat total; value := Z.of_nat current |}.
Proof.
  intros H. unfold bar_step, setValue. cbn [fst snd].
  rewrite setMaximum_maximum.
  replace (Z.of_nat total <? Z.of_nat current) with false
    by (symmetry; apply Z.ltb_ge; lia).
  reflexivity.
Qed.

Lemma bar_fills (total_rows : nat) :
  forall (k idx : nat) (bar : QProgressBar),
    (idx + S k <= total_rows)%nat ->
    fold_left bar_step (map (fun i => ((i + 1)%nat, total_rows)) (seq idx (S k))) bar
    = {| maximum := Z.of_nat total_rows; value := Z.of_nat (idx + S k) |}.
Proof.
  induction k as [|k IH]; intros idx bar H.
  - cbn [seq map fold_left]. rewrite bar_step_in_range by lia. reflexivity.
  - change (seq idx (S (S k))) with (idx :: seq (S idx) (S k)).
    cbn [map fold_left]. rewrite IH by lia. f_equal. lia.
Qed.

Lemma str_eqb_nil_false (s : str) : str_eqb s [] = false -> s <> [].
Proof. intros H ->. now rewrite str_eqb_refl in H. Qed.

Lemma str_eqb_nil_neq (s : str) : s <> [] -> str_eqb s [] = false.
Proof.
  intros H. destruct (str_eqb s []) eqn:E; [|reflexivity].
  apply str_eqb_true in E. contradiction.
Qed.

(** ** A run, seen from the window *)

(** X17. A click on the start button with a file selected: when the run is
    over, both buttons are enabled again and the file is still selected.
    If the run got to the end of the rows, the status is [Completado],
    the stat cards show the final counters, no dialog is shown, and, if
    the report has rows, the bar is full.  If not, the status is [Error]
    and one error dialog is shown, with the message of the completion
    signal. *)
Theorem window_after_a_run
    (w : world) (cleared_before : nat -> bool) (win : window) (filepath : str) :
  selected_file win = Some filepath ->
  filepath <> [] ->
  let win' := session w cleared_before win in
  select_btn win' = true /\ start_btn win' = true /\
  selected_file win' = Some filepath /\
  match final_counters w (Api.init (api_key win) (api_secret win)) with
  | Some c =>
      status_label win' = Completado /\
      shown win' = c /\
      dialogs win' = dialogs win /\
      forall rows, report w = Return rows -> rows <> [] ->
                   progress_bar win' = full (length rows)
  | None =>
      status_label win' = Error /\
      exists m, dialogs win' = dialogs win ++ [m]
                /\ In (Finished false m) (run w (Api.init (api_key win) (api_secret win)))
  end.
Proof.
  intros Hf Hne. cbn zeta. unfold session, start_update, no_file.
  rewrite Hf, (str_eqb_nil_neq filepath Hne).
  set (api := Api.init (api_key win) (api_secret win)).
  destruct (run_shape w api) as (ev & ok & m & Hrun & Hq & Hfin).
  rewrite Hrun, deliver_all_app. cbn [deliver_all].
  set (win0 := {| api_key := api_key win |}) in *.
  pose proof (deliver_all_quiet cleared_before ev Hq 0 win0) as Hd. cbn zeta in Hd.
  pose proof (deliver_all_bar cleared_before ev 0 win0) as Hb.
  set (win1 := deliver_all cleared_before 0 ev win0) in *.
  destruct Hd as (_ & _ & H3 & _ & _ & _ & _ & H8 & H9).
  assert (Hclear : forall b : bool,
             selected_file (if b then clear_log win1 else win1) = selected_file win1 /\
             dialogs (if b then clear_log win1 else win1) = dialogs win1 /\
             shown (if b then clear_log win1 else win1) = shown win1 /\
             progress_bar (if b then clear_log win1 else win1) = progress_bar win1).
  { intros [|]; repeat split; reflexivity. }
  destruct (Hclear (cleared_before (0 + length ev)%nat)) as (C1 & C2 & C3 & C4).
  clear Hclear. cbn [deliver].
  set (win2 := if cleared_before (0 + length ev)%nat then clear_log win1 else win1) in *.
  assert (F : select_btn (on_finished ok m win2) = true /\
              start_btn (on_finished ok m win2) = true /\
              selected_file (on_finished ok m win2) = selected_file win2 /\
              status_label (on_finished ok m win2) = (if ok then Completado else Error) /\
              dialogs (on_finished ok m win2)
                = (if ok then dialogs win2 else dialogs win2 ++ [m]) /\
              shown (on_finished ok m win2) = shown win2 /\
              progress_bar (on_finished ok m win2) = progress_bar win2)
    by (repeat split; reflexivity).
  destruct F as (F1 & F2 & F3 & F4 & F5 & F6 & F7).
  rewrite F1, F2, F3, F4, F5, F6, F7, C1, C2, C3, C4, H3, H8, H9.
  split; [reflexivity|]. split; [reflexivity|]. split; [reflexivity|].
  destruct (final_counters w api) as [c|].
  - destruct Hfin as (-> & -> & Hc & rows & Hr & Hp).
    split; [reflexivity|]. split; [exact Hc|]. split; [reflexivity|].
    intros rows' Hr' Hrows. rewrite Hr in Hr'. injection Hr' as <-.
    rewrite Hb, Hp.
    destruct rows as [|r rest]; [contradiction|]. cbn [length].
    rewrite bar_fills by lia. reflexivity.
  - subst ok. split; [reflexivity|].
    exists m. split; [reflexivity|].
    apply in_or_app. right. now left.
Qed.

Lemma window_after_a_run_witness :
  let w := steady_world [vehicle_row "ER-1022" "Camiones" "50";
                         vehicle_row "" "Camiones" "70"] (JInt 1000) in
  let win := select_file (lit "/home/user/report.xlsx") (initial (lit "key") (lit "secret")) in
  let win' := session w (fun _ => false) win in
  selected_file win = Some (lit "/home/user/report.xlsx") /\
  select_btn win' = true /\ start_btn win' = true /\
  status_label win' = Completado /\
  shown win' = incr_successful zero_counters /\
  progress_bar win' = full 2.
Proof.
  intros w win win'.
  assert (H1 : selected_file win = Some (lit "/home/user/report.xlsx"))
    by (vm_compute; reflexivity).
  assert (H2 : lit "/home/user/report.xlsx" <> []) by (vm_compute; discriminate).
  assert (H3 : final_counters w (Api.init (api_key win) (api_secret win))
               = Some (incr_successful zero_counters)) by (vm_compute; reflexivity).
  pose proof (window_after_a_run w (fun _ => false) win _ H1 H2) as H.
  cbn zeta in H. rewrite H3 in H.
  destruct H as (A & B & _ & C & D & _ & E).
  split; [exact H1|]. split; [exact A|]. split; [exact B|]. split; [exact C|].
  split; [exact D|].
  apply (E [vehicle_row "ER-1022" "Camiones" "50"; vehicle_row "" "Camiones" "70"]);
    [reflexivity | discriminate].
Defined.

(** ** The window between runs *)

Lemma session_controls (w : world) (cleared_before : nat -> bool) (win : window)
    (filepath : str) :
  selected_file win = Some filepath ->
  filepath <> [] ->
  let win' := session w cleared_before win in
  api_key win' = api_key win /\ api_secret win' = api_secret win /\
  selected_file win' = selected_file win /\ file_label win' = file_label win /\
  select_btn win' = true /\ start_btn win' = true /\
  status_label win' <> Procesando /\ status_label win' <> Listo.
Proof.
  intros Hf Hne. cbn zeta. unfold session, start_update, no_file.
  rewrite Hf, (str_eqb_nil_neq filepath Hne).
  destruct (run_shape w (Api.init (api_key win) (api_secret win)))
    as (ev & ok & m & -> & Hq & _).
  rewrite deliver_all_app. cbn [deliver_all deliver].
  set (win0 := {| api_key := api_key win |}).
  pose proof (deliver_all_quiet cleared_before ev Hq 0 win0) as Hd. cbn zeta in Hd.
  set (win1 := deliver_all cleared_before 0 ev win0) in *.
  destruct Hd as (H1 & H2 & H3 & H4 & _).
  destruct (cleared_before (0 + length ev)%nat), ok;
    cbn [on_finished clear_log api_key api_secret selected_file file_label select_btn
         start_btn status_label];
    rewrite H1, H2, H3, H4; repeat split; discriminate.
Qed.

(** X18. However the window is used after [main] has shown it: the
    credentials are those of the environment and are not empty; between
    runs the button that selects a file is enabled, and the start button
    is enabled exactly when a file is selected, so that no run starts
    without one; as long as no file is selected the window is as it was
    shown. *)
Theorem window_between_runs
    (env_key env_secret : option str) (win0 : window) (actions : list action) :
  main env_key env_secret = Shown win0 ->
  let win := clicks actions win0 in
  env_key = Some (api_key win) /\ env_secret = Some (api_secret win) /\
  api_key win <> [] /\ api_secret win <> [] /\
  select_btn win = true /\
  status_label win <> Procesando /\
  (start_btn win = true <-> selected_file win <> None) /\
  (forall filepath, selected_file win = Some filepath ->
                    filepath <> [] /\ file_label win = Some filepath) /\
  (selected_file win = None -> win = win0).
Proof.
  intros Hmain. cbn zeta. unfold main in Hmain.
  destruct env_key as [key|]; [|discriminate].
  destruct env_secret as [secret|]; [|discriminate].
  cbn [unset] in Hmain.
  destruct (str_eqb key []) eqn:Hk; [discriminate|].
  destruct (str_eqb secret []) eqn:Hs; [discriminate|].
  cbn [orb] in Hmain. injection Hmain as <-.
  apply str_eqb_nil_false in Hk, Hs.
  unfold clicks.
  induction actions as [|a actions IH] using rev_ind.
  { cbn. repeat split; try assumption; try discriminate.
    intros H. now contradiction H. }
  rewrite fold_left_app. cbn [fold_left].
  set (win := fold_left click actions (initial key secret)) in *.
  destruct IH as (I1 & I2 & I3 & I4 & I5 & I6 & I7 & I8 & I9).
  destruct a as [filepath|w cleared_before|]; cbn [click].
  - rewrite I5. unfold select_file.
    destruct (str_eqb filepath []) eqn:Hf.
    { exact (conj I1 (conj I2 (conj I3 (conj I4 (conj I5 (conj I6 (conj I7 (conj I8 I9)))))))). }
    apply str_eqb_nil_false in Hf.
    cbn [append_log api_key api_secret select_btn status_label start_btn selected_file
         file_label].
    refine (conj I1 (conj I2 (conj I3 (conj I4 (conj I5 (conj I6 (conj _ (conj _ _)))))))).
    + split; [discriminate | reflexivity].
    + intros f E. injection E as <-. split; [exact Hf | reflexivity].
    + discriminate.
  - destruct (start_btn win) eqn:Hstart.
    + destruct (selected_file win) as [filepath|] eqn:Hsel.
      2:{ exfalso. exact (proj1 I7 eq_refl eq_refl). }
      destruct (I8 filepath eq_refl) as (Hne & Hlabel).
      destruct (session_controls w cleared_before win filepath Hsel Hne)
        as (S1 & S2 & S3 & S4 & S5 & S6 & S7 & _).
      rewrite S1, S2, S3, S4, S5, S6, Hsel.
      refine (conj I1 (conj I2 (conj I3 (conj I4 (conj eq_refl (conj S7 (conj _ (conj _ _)))))))).
      * split; [discriminate | reflexivity].
      * intros f E. injection E as <-. split; [exact Hne | exact Hlabel].
      * discriminate.
    + rewrite <- Hstart in I7.
      exact (conj I1 (conj I2 (conj I3 (conj I4 (conj I5 (conj I6 (conj I7 (conj I8 I9)))))))).
  - cbn [clear_log api_key api_secret select_btn status_label start_btn selected_file
         file_label].
    refine (conj I1 (conj I2 (conj I3 (conj I4 (conj I5 (conj I6 (conj I7 (conj I8 _)))))))).
    intros Hnone. rewrite (I9 Hnone). reflexivity.
Qed.

Lemma window_between_runs_witness :
  let w := steady_world [vehicle_row "ER-1022" "Camiones" "50"] (JInt 1000) in
  let win0 := initial (lit "key") (lit "secret") in
  let win := clicks [ClickStart w (fun _ => false); ClickSelect []; ClickClear] win0 in
  main (Some (lit "key")) (Some (lit "secret")) = Shown win0 /\
  start_btn win = false /\ win = win0.
Proof.
  intros w win0 win.
  assert (H : main (Some (lit "key")) (Some (lit "secret")) = Shown win0)
    by (vm_compute; reflexivity).
  destruct (window_between_runs _ _ win0
              [ClickStart w (fun _ => false); ClickSelect []; ClickClear] H)
    as (_ & _ & _ & _ & _ & _ & H7 & _ & H9).
  assert (Hnone : selected_file win = None) by (vm_compute; reflexivity).
  split; [exact H|]. split.
  - destruct (start_btn win) eqn:E; [|reflexivity].
    apply H7 in E. contradiction.
  - exact (H9 Hnone).
Defined.
